(** * cf: a command-line client for Cloudflare DNS

    A shallow embedding of the zone resolver ([internal/client]), the
    output renderer ([internal/output]) and the DNS record commands
    ([cmd/dns.go]), with the properties the specification states about
    them.

    Conventions of the embedding:
    - a Go [string] is a sequence of bytes: Rocq's [string], whose
      characters are the 256 values of [ascii];
    - [len] of a string or slice is a [nat]; an [int] that is not a length
      (a TTL) is a [Z], a [uint16] is an [N] (no arithmetic is done on
      either);
    - a Go pointer used as an optional value ([*bool], [*uint16], [*int],
      [*string]) is an [option]; a slice that can be [nil] and is told
      apart from an empty one is an [option (list _)];
    - a value of type [error] is an [error] below, [nil] is [None];
    - everything a command does to the outside (a round trip to the
      provider, a line on standard output) is an [event] of a program tree
      [prog]; a run-time panic is the leaf [Panic]. *)

From Stdlib Require Import Ascii NArith ZArith Lia DecimalString.
From Stdlib Require DecimalPos DecimalZ.
From stdpp Require Import base option list sorting gmap strings.

Open Scope Z_scope.
Open Scope nat_scope.
Open Scope stdpp_scope.

(** ** Errors *)

(** [errors.New] and the errors of the provider library carry a text;
    [fmt.Errorf] with the verb [%w] builds an error whose text is the format
    with the text of the wrapped error spliced in, and which remembers the
    wrapped error. *)
Inductive error : Type :=
| errorString (text : string)
| wrapError (text : string) (wrapped : error).

(** The method [Error()]. *)
Definition Error (e : error) : string :=
  match e with
  | errorString text => text
  | wrapError text _ => text
  end.

(** [fmt.Errorf(prefix + "%w", err)]: every format of the repository that
    wraps an error ends in the verb. *)
Definition Errorf_w (prefix : string) (err : error) : error :=
  wrapError (prefix +:+ Error err) err.

(** [fmt.Errorf(prefix + "%s", s)] and [fmt.Errorf(text)]. *)
Definition Errorf_s (prefix s : string) : error := errorString (prefix +:+ s).

(** A returned [(value, error)] pair: either the value with a [nil] error, or
    an error. *)
Inductive result (A : Type) : Type :=
| Ok (a : A)
| Err (e : error).
Arguments Ok {A} a.
Arguments Err {A} e.

(** ** The parts of Go's standard library the code calls *)

Module gostd.

(** *** [strings] *)

Definition byteval (c : ascii) : N := N_of_ascii c.

(** [utf8.RuneSelf]: bytes below it are single-byte runes. *)
Definition RuneSelf : N := 128%N.

Fixpoint isASCII (s : string) : bool :=
  match s with
  | EmptyString => true
  | String c rest => (byteval c <? RuneSelf)%N && isASCII rest
  end.

Definition isUpper (c : ascii) : bool :=
  ((byteval "A" <=? byteval c)%N && (byteval c <=? byteval "Z")%N)%bool.

(** [c += 'a' - 'A'] for an upper-case ASCII letter. *)
Definition lowerByte (c : ascii) : ascii :=
  if isUpper c then ascii_of_N (byteval c + 32) else c.

Fixpoint lowerBytes (s : string) : string :=
  match s with
  | EmptyString => EmptyString
  | String c rest => String (lowerByte c) (lowerBytes rest)
  end.

Section ToLower.
(** [strings.Map(unicode.ToLower, s)], which [strings.ToLower] falls
    back to when [s] has a byte outside ASCII. The Unicode case tables
    are not part of the repository: they are a parameter. *)
Variable unicodeLower : string → string.

(** [strings.ToLower]: ASCII-only strings are lowered byte by byte
    (returned as they are when they have no upper-case letter, which
    [lowerBytes] does as well). *)
Definition ToLower (s : string) : string :=
  if isASCII s then lowerBytes s else unicodeLower s.
End ToLower.

(** [strings.HasPrefix s sub]. *)
Definition HasPrefix (s sub : string) : bool := String.prefix sub s.

(** [strings.Contains]: [sub] starts at some position of [s]. *)
Fixpoint Contains (s sub : string) : bool :=
  if HasPrefix s sub then true
  else match s with
       | EmptyString => false
       | String _ rest => Contains rest sub
       end.

(** [strings.Join]. *)
Fixpoint Join (elems : list string) (sep : string) : string :=
  match elems with
  | [] => EmptyString
  | [e] => e
  | e :: rest => e +:+ sep +:+ Join rest sep
  end.

(** *** [unicode/utf8] *)

(** The table [first] together with [acceptRanges]: for a lead byte, the
    length of the sequence it announces and the range its second byte
    must be in; [None] for a byte that cannot start a sequence. *)
Definition first (b : N) : option (nat * (N * N)) :=
  (if b <? 0xC2 then None
   else if b <? 0xE0 then Some (2%nat, (0x80, 0xBF))
   else if b =? 0xE0 then Some (3%nat, (0xA0, 0xBF))
   else if b <? 0xED then Some (3%nat, (0x80, 0xBF))
   else if b =? 0xED then Some (3%nat, (0x80, 0x9F))
   else if b <? 0xF0 then Some (3%nat, (0x80, 0xBF))
   else if b =? 0xF0 then Some (4%nat, (0x90, 0xBF))
   else if b <? 0xF4 then Some (4%nat, (0x80, 0xBF))
   else if b =? 0xF4 then Some (4%nat, (0x80, 0x8F))
   else None)%N.

(** Is the byte at position [i] of [s] within [lo..hi]? *)
Definition byteIn (s : string) (i : nat) (lo hi : N) : bool :=
  match String.get i s with
  | Some c => ((lo <=? byteval c)%N && (byteval c <=? hi)%N)%bool
  | None => false
  end.

(** The number of bytes the rune starting with [c], followed by [rest],
    takes: an invalid or cut-off sequence is one byte wide. *)
Definition runeSize (c : ascii) (rest : string) : nat :=
  if (byteval c <? RuneSelf)%N then 1
  else match first (byteval c) with
       | None => 1
       | Some (size, (lo, hi)) =>
           if String.length rest <? size - 1 then 1
           else if negb (byteIn rest 0 lo hi) then 1
           else if size =? 2 then 2
           else if negb (byteIn rest 1 0x80%N 0xBF%N) then 1
           else if size =? 3 then 3
           else if negb (byteIn rest 2 0x80%N 0xBF%N) then 1
           else 4
       end.

(** The loop of [utf8.RuneCountInString], with the bytes still to skip of
    the rune being read. *)
Fixpoint runeCountFrom (skip : nat) (s : string) : nat :=
  match s with
  | EmptyString => 0
  | String c rest =>
      match skip with
      | S k => runeCountFrom k rest
      | O => S (runeCountFrom (runeSize c rest - 1) rest)
      end
  end.

Definition RuneCountInString (s : string) : nat := runeCountFrom 0 s.

(** *** [fmt] *)

Fixpoint spaces (n : nat) : string :=
  match n with
  | O => EmptyString
  | S k => String " " (spaces k)
  end.

(** [fmt.Sprintf("%-*s", width, s)] for a width that is not negative:
    [s], then spaces up to [width], the width counted in runes. (Widths
    above fmt's internal bound of 10^6 are outside the model.) *)
Definition SprintfPad (width : nat) (s : string) : string :=
  s +:+ spaces (width - RuneCountInString s).

End gostd.

(** [strconv.Itoa]. *)
Definition Itoa (n : Z) : string :=
  DecimalString.NilZero.string_of_int (Z.to_int n).

(** ** The provider library (cloudflare-go): the data the code exchanges
    with it, with the fields the code reads or writes *)

Module cloudflare.

Record Zone := mkZone {
  Zone_ID : string;
  Zone_Name : string;
  Zone_Status : string }.

Record DNSRecord := mkDNSRecord {
  Rec_ID : string;
  Rec_Type : string;
  Rec_Name : string;
  Rec_Content : string;
  Rec_TTL : Z;
  Rec_Proxied : option bool;
  Rec_Priority : option N;
  Rec_Comment : string }.

Record ListDNSRecordsParams := mkListDNSRecordsParams {
  List_Type : string;
  List_Name : string }.

Record CreateDNSRecordParams := mkCreateDNSRecordParams {
  Create_Type : string;
  Create_Name : string;
  Create_Content : string;
  Create_TTL : Z;
  Create_Proxied : option bool;
  Create_Priority : option N;
  Create_Comment : string }.

Record UpdateDNSRecordParams := mkUpdateDNSRecordParams {
  Update_ID : string;
  Update_Type : string;
  Update_Name : string;
  Update_Content : string;
  Update_TTL : Z;
  Update_Proxied : option bool;
  Update_Priority : option N;
  Update_Comment : option string }.

(** The methods of [*cloudflare.API] the client calls: each is one round
    trip to the provider. [ListZones] is variadic in the zone names to
    filter by. *)
Inductive call : Type :=
| ZoneDetails (zoneID : string)
| ListZones (names : list string)
| ListDNSRecords (zoneID : string) (params : ListDNSRecordsParams)
| GetDNSRecord (zoneID recordID : string)
| CreateDNSRecord (zoneID : string) (params : CreateDNSRecordParams)
| UpdateDNSRecord (zoneID : string) (params : UpdateDNSRecordParams)
| DeleteDNSRecord (zoneID recordID : string).

(** What each method returns. *)
Definition reply (c : call) : Type :=
  match c with
  | ZoneDetails _ => result Zone
  | ListZones _ => result (list Zone)
  | ListDNSRecords _ _ => result (list DNSRecord)
  | GetDNSRecord _ _ => result DNSRecord
  | CreateDNSRecord _ _ => result DNSRecord
  | UpdateDNSRecord _ _ => result DNSRecord
  | DeleteDNSRecord _ _ => option error
  end.

End cloudflare.

(** ** JSON documents *)

(** What [encoding/json] writes, as a document tree: the members of an
    object in the order they are written. *)
#[warnings="-register-all"]
Inductive json : Type :=
| JNull
| JBool (b : bool)
| JNumber (n : Z)
| JString (s : string)
| JArray (items : list json)
| JObject (members : list (string * json)).

(** The values handed to [json.Encoder.Encode] as [interface{}]. *)
Class Marshaler (A : Type) := marshal : A → json.

(** A string is a JSON string. *)
Global Instance marshal_string : Marshaler string := JString.

(** A map is an object, its keys sorted. *)
Definition keyLe {V} (a b : string * V) : Prop := String.le a.1 b.1.
Global Instance keyLe_dec {V} (a b : string * V) : Decision (keyLe a b).
Proof. unfold keyLe. apply _. Defined.

Global Instance marshal_map `{Marshaler V} : Marshaler (gmap string V) :=
  λ m, JObject (prod_map id marshal <$> merge_sort keyLe (map_to_list m)).

(** A slice is an array, and the [nil] slice is [null]. *)
Global Instance marshal_slice `{Marshaler A} : Marshaler (option (list A)) :=
  λ s, match s with
       | None => JNull
       | Some items => JArray (marshal <$> items)
       end.

(** The built-in [append] on a slice that may be [nil]. *)
Definition append {A} (s : option (list A)) (x : A) : option (list A) :=
  Some (default [] s ++ [x]).

(** ** Programs *)

(** What a command does to the outside. *)
Inductive event : Type :=
| Call (c : cloudflare.call)   (* a round trip to the provider *)
| Fprintln (line : string)     (* [fmt.Fprintln(os.Stdout, line)] *)
| Encode (doc : json).         (* [json.Encoder.Encode] on [os.Stdout] *)

(** What comes back: the provider's reply; nothing the code looks at for
    [Fprintln]; the write error, if any, for [Encode]. *)
Definition resp (e : event) : Type :=
  match e with
  | Call c => cloudflare.reply c
  | Fprintln _ => unit
  | Encode _ => option error
  end.

Inductive prog (A : Type) : Type :=
| Ret (a : A)
| Panic
| Vis (e : event) (k : resp e → prog A).
Arguments Ret {A} a.
Arguments Panic {A}.
Arguments Vis {A} e k.

Fixpoint bind {A B} (p : prog A) (f : A → prog B) : prog B :=
  match p with
  | Ret a => f a
  | Panic => Panic
  | Vis e k => Vis e (λ r, bind (k r) f)
  end.

Declare Scope prog_scope.
Delimit Scope prog_scope with prog.
Bind Scope prog_scope with prog.
Notation "x ← p ; k" := (bind p (λ x, k))
  (at level 20, p at level 100, k at level 200, only parsing) : prog_scope.
Open Scope prog_scope.

(** One event, returning its response. *)
Definition perform (e : event) : prog (resp e) := Vis e Ret.

(** [xs[i]] and [xs[i] = x]: out of range they panic. *)
Definition index {A} (xs : list A) (i : nat) : prog A :=
  match xs !! i with
  | Some x => Ret x
  | None => Panic
  end.

Definition setIndex {A} (xs : list A) (i : nat) (x : A) : prog (list A) :=
  if decide (i < length xs) then Ret (<[i:=x]> xs) else Panic.

(** [for i, x := range xs { s = body i x s }], counting from [i]. *)
Fixpoint rangeFrom {A St} (i : nat) (xs : list A)
    (body : nat → A → St → prog St) (s : St) : prog St :=
  match xs with
  | [] => Ret s
  | x :: rest => s' ← body i x s; rangeFrom (S i) rest body s'
  end.

Definition forRange {A St} (xs : list A) (body : nat → A → St → prog St)
    (s : St) : prog St :=
  rangeFrom 0 xs body s.

(** An entry of the log of a run: an event and the response it got. *)
Inductive entry : Type :=
| Entry (e : event) (r : resp e).

Section Run.
(** The outside world: any state, and any way of answering events. *)
Context {W : Type} (world : ∀ e : event, W → resp e * W).

(** Running a program: what it returns ([None] if it panicked), the log
    of its events in order, and the world it leaves. *)
Fixpoint run {A} (p : prog A) (w : W) : option A * list entry * W :=
  match p with
  | Ret a => (Some a, [], w)
  | Panic => (None, [], w)
  | Vis e k =>
      let '(r, w1) := world e w in
      let '(a, log, w2) := run (k r) w1 in
      (a, Entry e r :: log, w2)
  end.
End Run.

(** ** internal/output/output.go *)

Module output.

(** [type Format string] and its two constants. *)
Definition Format : Type := string.
Definition FormatTable : Format := "table".
Definition FormatJSON : Format := "json".

(** [Writer]: its [out] is always [os.Stdout], the target of the events
    [Fprintln] and [Encode]. *)
Record Writer := mkWriter { format : Format }.

Definition NewWriter (format : Format) : Writer := mkWriter format.

Definition WriteJSON `{Marshaler A} (w : Writer) (data : A)
    : prog (option error) :=
  perform (Encode (marshal data)).

Definition WriteSuccess (w : Writer) (msg : string) : prog unit :=
  if decide (format w = FormatJSON) then
    _ ← WriteJSON w
          ({[ "status" := "success"; "message" := msg ]} : gmap string string);
    Ret tt
  else
    perform (Fprintln msg).

Definition writeASCIITable (w : Writer) (headers : list string)
    (rows : list (list string)) : prog (option error) :=
  (* Calculate column widths *)
  widths ← forRange headers
              (λ i h widths, setIndex widths i (String.length h))
              (replicate (length headers) 0);
  widths ← forRange rows
              (λ _ row widths,
                 forRange row
                   (λ i cell widths,
                      if decide (i < length widths) then
                        wi ← index widths i;
                        if decide (wi < String.length cell) then
                          setIndex widths i (String.length cell)
                        else Ret widths
                      else Ret widths)
                   widths)
              widths;
  (* Print headers *)
  headerParts ← forRange headers
                  (λ i h headerParts,
                     wi ← index widths i;
                     Ret (headerParts ++ [gostd.SprintfPad wi h]))
                  [];
  _ ← perform (Fprintln (gostd.Join headerParts "  "));
  (* Print rows *)
  _ ← forRange rows
        (λ _ row _,
           rowParts ← forRange row
                        (λ i cell rowParts,
                           if decide (i < length widths) then
                             wi ← index widths i;
                             Ret (rowParts ++ [gostd.SprintfPad wi cell])
                           else Ret rowParts)
                        [];
           perform (Fprintln (gostd.Join rowParts "  ")))
        tt;
  Ret None.

Definition writeTableAsJSON (w : Writer) (headers : list string)
    (rows : list (list string)) : prog (option error) :=
  result ← forRange rows
             (λ _ row (result : option (list (gmap string string))),
                item ← forRange headers
                         (λ i header (item : gmap string string),
                            if decide (i < length row) then
                              cell ← index row i;
                              Ret (<[header := cell]> item)
                            else Ret item)
                         ∅;
                Ret (append result item))
             None;
  WriteJSON w result.

Definition WriteTable (w : Writer) (headers : list string)
    (rows : list (list string)) : prog (option error) :=
  if decide (format w = FormatJSON) then writeTableAsJSON w headers rows
  else writeASCIITable w headers rows.

Definition FormatBool (b : bool) : string :=
  if b then "true" else "false".

Definition FormatInt (n : Z) : string := Itoa n.

Definition FormatTTL (ttl : Z) : string :=
  if decide (ttl = 1%Z) then "Auto" else Itoa ttl.

End output.

(** ** internal/config/config.go *)

Module config.

Record Config := mkConfig {
  APIToken : string;
  APIKey : string;
  APIEmail : string;
  OutputFormat : string }.

Definition HasCredentials (c : Config) : bool :=
  bool_decide (APIToken c ≠ EmptyString)
  || (bool_decide (APIKey c ≠ EmptyString)
      && bool_decide (APIEmail c ≠ EmptyString)).

End config.

(** ** internal/client/client.go *)

(** Library functions the client calls whose code is outside the
    repository and which the embedding leaves open: the Unicode fallback of
    [strings.ToLower], and the two constructors of the provider's API
    handle, which make no request and return an error or [nil]. *)
Record Externals := mkExternals {
  unicodeLower : string → string;
  NewWithAPIToken : string → option error;
  NewWithKey : string → string → option error }.

Definition quote : string := String (ascii_of_nat 34) EmptyString.
Definition newline : string := String (ascii_of_nat 10) EmptyString.

Module client.

(** [Client] wraps the API handle; its calls are the events [Call]. *)
Inductive Client : Type := mkClient.

Record Zone := mkZone {
  Zone_ID : string;
  Zone_Name : string;
  Zone_Status : string }.

Record DNSRecord := mkDNSRecord {
  ID : string;
  Type_ : string;
  Name : string;
  Content : string;
  TTL : Z;
  Proxied : bool;
  Priority : option N;
  Comment : string }.

Record CreateDNSRecordParams := mkCreateDNSRecordParams {
  Create_Type : string;
  Create_Name : string;
  Create_Content : string;
  Create_TTL : Z;
  Create_Proxied : bool;
  Create_Priority : option N;
  Create_Comment : string }.

Record UpdateDNSRecordParams := mkUpdateDNSRecordParams {
  Update_Type : string;
  Update_Name : string;
  Update_Content : string;
  Update_TTL : option Z;
  Update_Proxied : option bool;
  Update_Priority : option N;
  Update_Comment : option string }.

(** [boolValue] safely dereferences a bool pointer. *)
Definition boolValue (b : option bool) : bool :=
  match b with
  | None => false
  | Some v => v
  end.

Definition isLowerHex (c : ascii) : bool :=
  let b := gostd.byteval c in
  ((gostd.byteval "0" <=? b)%N && (b <=? gostd.byteval "9")%N)
  || ((gostd.byteval "a" <=? b)%N && (b <=? gostd.byteval "f")%N).

(** The loop [for _, c := range s] of [looksLikeZoneID]. It ranges over
    the runes of [s]; a byte below [utf8.RuneSelf] is always a rune of its
    own, and a rune that starts at any other byte is outside ASCII and
    fails the test at once, so the loop is a loop over the bytes. *)
Fixpoint allLowerHex (s : string) : bool :=
  match s with
  | EmptyString => true
  | String c rest => if negb (isLowerHex c) then false else allLowerHex rest
  end.

(** [looksLikeZoneID] checks if the string looks like a Cloudflare zone
    ID (32 hex chars). *)
Definition looksLikeZoneID (s : string) : bool :=
  if decide (String.length s ≠ 32) then false else allLowerHex s.

(** The four markers of [isPermissionError]. *)
Definition permissionMarkers : list string :=
  ["permission"; "unauthorized"; "forbidden"; "403"].

(** The text [GetZone] puts in front of a permission error. *)
Definition zoneGuidance : string :=
  "permission denied when looking up zone by name." +:+ newline +:+
  newline +:+
  "This usually happens when your API token is scoped to specific zones."
    +:+ newline +:+
  "To fix this, either:" +:+ newline +:+
  "  1. Use the zone ID directly: cf zones get <zone-id>" +:+ newline +:+
  "  2. Grant your token " +:+ quote +:+ "All zones" +:+ quote +:+
    " read permission" +:+ newline +:+
  newline +:+
  "Error: ".

Definition toZone (z : cloudflare.Zone) : Zone :=
  {| Zone_ID := cloudflare.Zone_ID z;
     Zone_Name := cloudflare.Zone_Name z;
     Zone_Status := cloudflare.Zone_Status z |}.

Definition toDNSRecord (r : cloudflare.DNSRecord) : DNSRecord :=
  {| ID := cloudflare.Rec_ID r;
     Type_ := cloudflare.Rec_Type r;
     Name := cloudflare.Rec_Name r;
     Content := cloudflare.Rec_Content r;
     TTL := cloudflare.Rec_TTL r;
     Proxied := boolValue (cloudflare.Rec_Proxied r);
     Priority := cloudflare.Rec_Priority r;
     Comment := cloudflare.Rec_Comment r |}.

Section WithExternals.
Variable ext : Externals.

(** [New] creates a new Cloudflare client from the given config. *)
Definition New (cfg : config.Config) : result Client :=
  if negb (config.HasCredentials cfg) then
    Err (errorString
      "no credentials configured. Set CLOUDFLARE_API_TOKEN or CLOUDFLARE_API_KEY + CLOUDFLARE_API_EMAIL")
  else
    let err :=
      if decide (config.APIToken cfg ≠ EmptyString)
      then NewWithAPIToken ext (config.APIToken cfg)
      else NewWithKey ext (config.APIKey cfg) (config.APIEmail cfg) in
    match err with
    | Some err => Err (Errorf_w "failed to create API client: " err)
    | None => Ok mkClient
    end.

(** [isPermissionError] checks if the error is a
    permission/authorization error. *)
Definition isPermissionError (err : option error) : bool :=
  match err with
  | None => false
  | Some err =>
      let errStr := gostd.ToLower (unicodeLower ext) (Error err) in
      gostd.Contains errStr "permission"
      || gostd.Contains errStr "unauthorized"
      || gostd.Contains errStr "forbidden"
      || gostd.Contains errStr "403"
  end.

(** [ListZones] returns all zones accessible by the current
    credentials. *)
Definition ListZones (c : Client) : prog (result (list Zone)) :=
  r ← perform (Call (cloudflare.ListZones []));
  match r with
  | Err err =>
      if isPermissionError (Some err) then
        Ret (Err (Errorf_w
          "permission denied: your API token may not have 'Zone:Read' permission for all zones. "
          err))
      else Ret (Err err)
  | Ok zones => Ret (Ok (toZone <$> zones))
  end.

(** The second half of [GetZone]: try to find by name. *)
Definition zoneByName (c : Client) (nameOrID : string)
    : prog (result Zone) :=
  r ← perform (Call (cloudflare.ListZones [nameOrID]));
  match r with
  | Err err =>
      if isPermissionError (Some err) then
        Ret (Err (Errorf_w zoneGuidance err))
      else Ret (Err err)
  | Ok zones =>
      if decide (length zones = 0) then
        Ret (Err (Errorf_s "zone not found: " nameOrID))
      else
        z ← index zones 0;
        Ret (Ok (toZone z))
  end.

(** [GetZone] returns a zone by name or ID. *)
Definition GetZone (c : Client) (nameOrID : string) : prog (result Zone) :=
  (* First, try to get by ID directly *)
  if looksLikeZoneID nameOrID then
    r ← perform (Call (cloudflare.ZoneDetails nameOrID));
    match r with
    | Ok zone => Ret (Ok (toZone zone))
    | Err _ =>
        (* If it failed, it might not be an ID after all, try by name *)
        zoneByName c nameOrID
    end
  else zoneByName c nameOrID.

(** [ResolveZoneID] resolves a zone name or ID to a zone ID. *)
Definition ResolveZoneID (c : Client) (nameOrID : string)
    : prog (result string) :=
  r ← GetZone c nameOrID;
  match r with
  | Err err => Ret (Err err)
  | Ok zone => Ret (Ok (Zone_ID zone))
  end.

(** [ListDNSRecords] returns DNS records for a zone. The filter starts
    empty and takes the type and the name that are not empty, which is
    the type and the name as they are. *)
Definition ListDNSRecords (c : Client) (zoneID recordType name : string)
    : prog (result (list DNSRecord)) :=
  let filterType :=
    if decide (recordType ≠ EmptyString) then recordType else EmptyString in
  let filterName :=
    if decide (name ≠ EmptyString) then name else EmptyString in
  r ← perform (Call (cloudflare.ListDNSRecords zoneID
         {| cloudflare.List_Type := filterType;
            cloudflare.List_Name := filterName |}));
  match r with
  | Err err => Ret (Err (Errorf_w "failed to list DNS records: " err))
  | Ok records => Ret (Ok (toDNSRecord <$> records))
  end.

(** [GetDNSRecord] returns a specific DNS record. *)
Definition GetDNSRecord (c : Client) (zoneID recordID : string)
    : prog (result DNSRecord) :=
  r ← perform (Call (cloudflare.GetDNSRecord zoneID recordID));
  match r with
  | Err err => Ret (Err (Errorf_w "failed to get DNS record: " err))
  | Ok r => Ret (Ok (toDNSRecord r))
  end.

(** [CreateDNSRecord] creates a new DNS record. *)
Definition CreateDNSRecord (c : Client) (zoneID : string)
    (params : CreateDNSRecordParams) : prog (result DNSRecord) :=
  let createParams :=
    {| cloudflare.Create_Type := Create_Type params;
       cloudflare.Create_Name := Create_Name params;
       cloudflare.Create_Content := Create_Content params;
       cloudflare.Create_TTL := Create_TTL params;
       cloudflare.Create_Proxied := Some (Create_Proxied params);
       cloudflare.Create_Priority := Create_Priority params;
       cloudflare.Create_Comment := Create_Comment params |} in
  r ← perform (Call (cloudflare.CreateDNSRecord zoneID createParams));
  match r with
  | Err err => Ret (Err (Errorf_w "failed to create DNS record: " err))
  | Ok r => Ret (Ok (toDNSRecord r))
  end.

(** [UpdateDNSRecord] updates an existing DNS record. The TTL of the
    provider's parameters is an [int]: it stays at its zero value when
    [params.TTL] is [nil]. *)
Definition UpdateDNSRecord (c : Client) (zoneID recordID : string)
    (params : UpdateDNSRecordParams) : prog (result DNSRecord) :=
  let updateParams :=
    {| cloudflare.Update_ID := recordID;
       cloudflare.Update_Type := Update_Type params;
       cloudflare.Update_Name := Update_Name params;
       cloudflare.Update_Content := Update_Content params;
       cloudflare.Update_TTL :=
         match Update_TTL params with
         | Some ttl => ttl
         | None => 0%Z
         end;
       cloudflare.Update_Proxied := Update_Proxied params;
       cloudflare.Update_Priority := Update_Priority params;
       cloudflare.Update_Comment := Update_Comment params |} in
  r ← perform (Call (cloudflare.UpdateDNSRecord zoneID updateParams));
  match r with
  | Err err => Ret (Err (Errorf_w "failed to update DNS record: " err))
  | Ok r => Ret (Ok (toDNSRecord r))
  end.

(** [DeleteDNSRecord] deletes a DNS record. *)
Definition DeleteDNSRecord (c : Client) (zoneID recordID : string)
    : prog (option error) :=
  err ← perform (Call (cloudflare.DeleteDNSRecord zoneID recordID));
  match err with
  | Some err => Ret (Some (Errorf_w "failed to delete DNS record: " err))
  | None => Ret None
  end.

(** [FindDNSRecords] finds DNS records by name and type. *)
Definition FindDNSRecords (c : Client) (zoneID name recordType : string)
    : prog (result (list DNSRecord)) :=
  ListDNSRecords c zoneID recordType name.

End WithExternals.

End client.

(** A [*Zone] and a [*DNSRecord] handed to the encoder: a struct without
    tags is an object with its fields under their Go names, in the order
    of the declaration; a [nil] pointer is [null]. *)
Global Instance marshal_Zone : Marshaler client.Zone :=
  λ z, JObject [("ID", JString (client.Zone_ID z));
                ("Name", JString (client.Zone_Name z));
                ("Status", JString (client.Zone_Status z))].

Global Instance marshal_DNSRecord : Marshaler client.DNSRecord :=
  λ r, JObject [("ID", JString (client.ID r));
                ("Type", JString (client.Type_ r));
                ("Name", JString (client.Name r));
                ("Content", JString (client.Content r));
                ("TTL", JNumber (client.TTL r));
                ("Proxied", JBool (client.Proxied r));
                ("Priority", match client.Priority r with
                             | Some p => JNumber (Z.of_N p)
                             | None => JNull
                             end);
                ("Comment", JString (client.Comment r))].

(** ** cmd/zones.go (helpers) and cmd/dns.go *)

Module cmd.

(** The flags of a [dns] command as the command line gave them: [None]
    for a flag that was not given. [--proxied] may come without a value
    ([Some None]). *)
Record Flags := mkFlags {
  flag_type : option string;
  flag_name : option string;
  flag_content : option string;
  flag_ttl : option Z;
  flag_proxied : option (option string);
  flag_priority : option N }.

(** The package variables the flags are bound to, after parsing: the
    default given in [init] unless the flag was given; [--proxied] without
    a value takes its [NoOptDefVal]. *)
Definition dnsType (fl : Flags) : string := default EmptyString (flag_type fl).
Definition dnsName (fl : Flags) : string := default EmptyString (flag_name fl).
Definition dnsContent (fl : Flags) : string :=
  default EmptyString (flag_content fl).
Definition dnsTTL (fl : Flags) : Z := default 1%Z (flag_ttl fl).
Definition dnsProxied (fl : Flags) : string :=
  match flag_proxied fl with
  | None => EmptyString
  | Some None => "true"
  | Some (Some v) => v
  end.
Definition dnsPriority (fl : Flags) : N := default 0%N (flag_priority fl).

Definition given {A} (o : option A) : bool :=
  match o with
  | Some _ => true
  | None => false
  end.

(** [cmd.Flags().Changed(name)]: the flag was set on the command line. *)
Definition Changed (fl : Flags) (name : string) : bool :=
  if decide (name = "type") then given (flag_type fl)
  else if decide (name = "name") then given (flag_name fl)
  else if decide (name = "content") then given (flag_content fl)
  else if decide (name = "ttl") then given (flag_ttl fl)
  else if decide (name = "proxied") then given (flag_proxied fl)
  else if decide (name = "priority") then given (flag_priority fl)
  else false.

(** The package variables [cfg], [out] and [outputFormat], set before a
    command runs. *)
Record Env := mkEnv {
  cfg : config.Config;
  out : output.Writer;
  outputFormat : string }.

Definition recordHeaders : list string :=
  ["ID"; "Type"; "Name"; "Content"; "TTL"; "Proxied"].

Definition recordRow (r : client.DNSRecord) : list string :=
  [client.ID r; client.Type_ r; client.Name r; client.Content r;
   output.FormatTTL (client.TTL r); output.FormatBool (client.Proxied r)].

Definition proxiedError : error :=
  errorString "--proxied must be 'true' or 'false'".

Section WithExternals.
Variable ext : Externals.
Variable env : Env.

(** [resolveZone] is a helper to resolve a zone argument to a zone ID. *)
Definition resolveZone (c : client.Client) (nameOrID : string)
    : prog (result string) :=
  client.ResolveZoneID ext c nameOrID.

(** [writeDNSRecordTable] writes DNS records in table format. *)
Definition writeDNSRecordTable (records : list client.DNSRecord)
    : prog (option error) :=
  output.WriteTable (out env) recordHeaders (recordRow <$> records).

(** The output of [create] and [update] for the record that came
    back. *)
Definition writeRecord (verb : string) (record : client.DNSRecord)
    : prog (option error) :=
  if decide (outputFormat env = "json") then
    output.WriteJSON (out env) record
  else
    _ ← output.WriteSuccess (out env) (verb +:+ client.ID record);
    output.WriteTable (out env) recordHeaders [recordRow record].

(** [dnsListCmd.RunE]. *)
Definition dnsListCmd (fl : Flags) (args : list string)
    : prog (option error) :=
  match client.New ext (cfg env) with
  | Err err => Ret (Some err)
  | Ok c =>
      zone ← index args 0;
      r ← resolveZone c zone;
      match r with
      | Err err => Ret (Some err)
      | Ok zoneID =>
          r ← client.ListDNSRecords c zoneID (dnsType fl) (dnsName fl);
          match r with
          | Err err => Ret (Some err)
          | Ok records =>
              if decide (length records = 0) then
                _ ← output.WriteSuccess (out env) "No DNS records found";
                Ret None
              else writeDNSRecordTable records
          end
      end
  end.

(** [dnsCreateCmd.RunE]. *)
Definition dnsCreateCmd (fl : Flags) (args : list string)
    : prog (option error) :=
  if bool_decide (dnsType fl = EmptyString)
     || bool_decide (dnsName fl = EmptyString)
     || bool_decide (dnsContent fl = EmptyString) then
    Ret (Some (errorString "--type, --name, and --content are required"))
  else
    (* Parse proxied flag *)
    let parsed : result bool :=
      if decide (dnsProxied fl ≠ EmptyString) then
        if bool_decide (dnsProxied fl ≠ "true")
           && bool_decide (dnsProxied fl ≠ "false") then
          Err proxiedError
        else Ok (bool_decide (dnsProxied fl = "true"))
      else Ok false in
    match parsed with
    | Err err => Ret (Some err)
    | Ok proxied =>
        match client.New ext (cfg env) with
        | Err err => Ret (Some err)
        | Ok c =>
            zone ← index args 0;
            r ← resolveZone c zone;
            match r with
            | Err err => Ret (Some err)
            | Ok zoneID =>
                let params :=
                  {| client.Create_Type := dnsType fl;
                     client.Create_Name := dnsName fl;
                     client.Create_Content := dnsContent fl;
                     client.Create_TTL := dnsTTL fl;
                     client.Create_Proxied := proxied;
                     client.Create_Priority :=
                       if decide (0 < dnsPriority fl)%N
                       then Some (dnsPriority fl) else None;
                     client.Create_Comment := EmptyString |} in
                r ← client.CreateDNSRecord c zoneID params;
                match r with
                | Err err => Ret (Some err)
                | Ok record => writeRecord "Created DNS record: " record
                end
            end
        end
    end.

(** The parameters [dnsUpdateCmd] builds: the existing values, then
    the fields whose flag was explicitly set; an error when [--proxied]
    is set to something else than [true] or [false]. *)
Definition updateParams (fl : Flags) (existing : client.DNSRecord)
    : result client.UpdateDNSRecordParams :=
  (* Start with existing values *)
  let type := client.Type_ existing in
  let name := client.Name existing in
  let content := client.Content existing in
  (* Override only the fields that were explicitly set *)
  let type := if Changed fl "type" then dnsType fl else type in
  let name := if Changed fl "name" then dnsName fl else name in
  let content := if Changed fl "content" then dnsContent fl else content in
  let ttl := if Changed fl "ttl" then Some (dnsTTL fl) else None in
  let proxied : result (option bool) :=
    if Changed fl "proxied" then
      if bool_decide (dnsProxied fl ≠ "true")
         && bool_decide (dnsProxied fl ≠ "false") then
        Err proxiedError
      else Ok (Some (bool_decide (dnsProxied fl = "true")))
    else Ok None in
  match proxied with
  | Err err => Err err
  | Ok proxied =>
      let priority :=
        if Changed fl "priority" then Some (dnsPriority fl) else None in
      Ok {| client.Update_Type := type;
            client.Update_Name := name;
            client.Update_Content := content;
            client.Update_TTL := ttl;
            client.Update_Proxied := proxied;
            client.Update_Priority := priority;
            client.Update_Comment := None |}
  end.

(** [dnsUpdateCmd.RunE]. *)
Definition dnsUpdateCmd (fl : Flags) (args : list string)
    : prog (option error) :=
  match client.New ext (cfg env) with
  | Err err => Ret (Some err)
  | Ok c =>
      zone ← index args 0;
      r ← resolveZone c zone;
      match r with
      | Err err => Ret (Some err)
      | Ok zoneID =>
          (* Fetch existing record first ([args[1]], read again for the
             update call) *)
          recordID ← index args 1;
          r ← client.GetDNSRecord c zoneID recordID;
          match r with
          | Err err => Ret (Some err)
          | Ok existing =>
              match updateParams fl existing with
              | Err err => Ret (Some err)
              | Ok params =>
                  r ← client.UpdateDNSRecord c zoneID recordID params;
                  match r with
                  | Err err => Ret (Some err)
                  | Ok record =>
                      writeRecord "Updated DNS record: " record
                  end
              end
          end
      end
  end.

End WithExternals.

End cmd.

(** ** internal/config/config.go: the environment and the file *)

Module configload.

(** [AuthMethod] returns a description of the configured auth method. *)
Definition AuthMethod (c : config.Config) : string :=
  if decide (config.APIToken c ≠ EmptyString) then "API Token"
  else if bool_decide (config.APIKey c ≠ EmptyString)
          && bool_decide (config.APIEmail c ≠ EmptyString)
  then "API Key + Email"
  else "None".

(** The zero value of [Config]. *)
Definition zero : config.Config :=
  {| config.APIToken := EmptyString;
     config.APIKey := EmptyString;
     config.APIEmail := EmptyString;
     config.OutputFormat := EmptyString |}.

Section Process.
(** What the process finds around it: [os.Getenv]; the value of
    [DefaultConfigPath()] (empty when the home directory is unknown); and,
    for a path, what [yaml.Unmarshal] leaves in a fresh [Config] from the
    bytes [os.ReadFile] returns, [None] when the file cannot be read. *)
Variable Getenv : string → string.
Variable DefaultConfigPath : string.
Variable readConfig : string → option config.Config.

(** [getEnv] returns the first non-empty environment variable from the
    given names. *)
Fixpoint getEnv (names : list string) : string :=
  match names with
  | [] => EmptyString
  | name :: rest =>
      if decide (Getenv name ≠ EmptyString) then Getenv name else getEnv rest
  end.

(** [Load] loads configuration from file and environment variables. Its
    error is always [nil]. *)
Definition Load (configPath : string) : config.Config :=
  (* Try to load from config file *)
  let configPath :=
    if decide (configPath = EmptyString) then DefaultConfigPath
    else configPath in
  let cfg :=
    if decide (configPath ≠ EmptyString) then
      match readConfig configPath with
      | Some loaded => loaded
      | None => zero   (* config file is optional *)
      end
    else zero in
  (* Environment variables override config file *)
  let token := getEnv ["CLOUDFLARE_API_TOKEN"; "CF_API_TOKEN"] in
  let cfg :=
    if decide (token ≠ EmptyString) then
      {| config.APIToken := token;
         config.APIKey := config.APIKey cfg;
         config.APIEmail := config.APIEmail cfg;
         config.OutputFormat := config.OutputFormat cfg |}
    else cfg in
  let key := getEnv ["CLOUDFLARE_API_KEY"; "CF_API_KEY"] in
  let cfg :=
    if decide (key ≠ EmptyString) then
      {| config.APIToken := config.APIToken cfg;
         config.APIKey := key;
         config.APIEmail := config.APIEmail cfg;
         config.OutputFormat := config.OutputFormat cfg |}
    else cfg in
  let email := getEnv ["CLOUDFLARE_API_EMAIL"; "CF_API_EMAIL"] in
  let cfg :=
    if decide (email ≠ EmptyString) then
      {| config.APIToken := config.APIToken cfg;
         config.APIKey := config.APIKey cfg;
         config.APIEmail := email;
         config.OutputFormat := config.OutputFormat cfg |}
    else cfg in
  cfg.

End Process.

End configload.

(** ** cmd/root.go *)

Module root.

(** The format [PersistentPreRunE] gives the writer, from the loaded
    config and the flag [--output] ([None] when it was not given): flag >
    config > default. *)
Definition format (cfg : config.Config) (outputFlag : option string)
    : output.Format :=
  let format :=
    if decide (config.OutputFormat cfg = "json") then output.FormatJSON
    else output.FormatTable in
  (* Command-line flag overrides config *)
  match outputFlag with
  | Some outputFormat =>
      if decide (outputFormat = "json") then output.FormatJSON
      else output.FormatTable
  | None => format
  end.

Section Process.
Variable Getenv : string → string.
Variable DefaultConfigPath : string.
Variable readConfig : string → option config.Config.

(** The package variables as [PersistentPreRunE] leaves them, from the
    flags [--config] (empty by default) and [--output]: [cfg] is the loaded
    config, [out] the writer of the format, and [outputFormat] the value of
    the flag, [table] by default. *)
Definition PersistentPreRunE (cfgFile : string) (outputFlag : option string)
    : cmd.Env :=
  let cfg := configload.Load Getenv DefaultConfigPath readConfig cfgFile in
  {| cmd.cfg := cfg;
     cmd.out := output.NewWriter (format cfg outputFlag);
     cmd.outputFormat := default "table" outputFlag |}.

End Process.

End root.

(** ** cmd/zones.go *)

Module zones.

Definition zoneHeaders : list string := ["ID"; "Name"; "Status"].

Definition zoneRow (z : client.Zone) : list string :=
  [client.Zone_ID z; client.Zone_Name z; client.Zone_Status z].

Section WithExternals.
Variable ext : Externals.
Variable env : cmd.Env.

(** [zonesListCmd.RunE]. *)
Definition zonesListCmd (args : list string) : prog (option error) :=
  match client.New ext (cmd.cfg env) with
  | Err err => Ret (Some err)
  | Ok c =>
      r ← client.ListZones ext c;
      match r with
      | Err err => Ret (Some err)
      | Ok zones =>
          if decide (length zones = 0) then
            _ ← output.WriteSuccess (cmd.out env) "No zones found";
            Ret None
          else
            output.WriteTable (cmd.out env) zoneHeaders (zoneRow <$> zones)
      end
  end.

(** [zonesGetCmd.RunE]. *)
Definition zonesGetCmd (args : list string) : prog (option error) :=
  match client.New ext (cmd.cfg env) with
  | Err err => Ret (Some err)
  | Ok c =>
      nameOrID ← index args 0;
      r ← client.GetZone ext c nameOrID;
      match r with
      | Err err => Ret (Some err)
      | Ok zone =>
          if decide (cmd.outputFormat env = "json") then
            output.WriteJSON (cmd.out env) zone
          else
            output.WriteTable (cmd.out env) zoneHeaders [zoneRow zone]
      end
  end.

(** [mustResolveZone] resolves a zone and returns the empty string on
    error. *)
Definition mustResolveZone (c : client.Client) (nameOrID : string)
    : prog string :=
  r ← cmd.resolveZone ext c nameOrID;
  match r with
  | Err _ => Ret EmptyString
  | Ok zoneID => Ret zoneID
  end.

(** [writeZoneTable] writes zones in table format. *)
Definition writeZoneTable (zones : list client.Zone) : prog (option error) :=
  output.WriteTable (cmd.out env) zoneHeaders (zoneRow <$> zones).

End WithExternals.

End zones.

(** ** cmd/dns.go: get, delete and find *)

Module dns.

Section WithExternals.
Variable ext : Externals.
Variable env : cmd.Env.

(** [dnsGetCmd.RunE]. *)
Definition dnsGetCmd (args : list string) : prog (option error) :=
  match client.New ext (cmd.cfg env) with
  | Err err => Ret (Some err)
  | Ok c =>
      zone ← index args 0;
      r ← cmd.resolveZone ext c zone;
      match r with
      | Err err => Ret (Some err)
      | Ok zoneID =>
          recordID ← index args 1;
          r ← client.GetDNSRecord c zoneID recordID;
          match r with
          | Err err => Ret (Some err)
          | Ok record =>
              if decide (cmd.outputFormat env = "json") then
                output.WriteJSON (cmd.out env) record
              else
                output.WriteTable (cmd.out env) cmd.recordHeaders
                  [cmd.recordRow record]
          end
      end
  end.

(** [dnsDeleteCmd.RunE]. *)
Definition dnsDeleteCmd (args : list string) : prog (option error) :=
  match client.New ext (cmd.cfg env) with
  | Err err => Ret (Some err)
  | Ok c =>
      zone ← index args 0;
      r ← cmd.resolveZone ext c zone;
      match r with
      | Err err => Ret (Some err)
      | Ok zoneID =>
          recordID ← index args 1;
          err ← client.DeleteDNSRecord c zoneID recordID;
          match err with
          | Some err => Ret (Some err)
          | None =>
              _ ← output.WriteSuccess (cmd.out env)
                    ("Deleted DNS record: " +:+ recordID);
              Ret None
          end
      end
  end.

(** [dnsFindCmd.RunE]. *)
Definition dnsFindCmd (fl : cmd.Flags) (args : list string)
    : prog (option error) :=
  if bool_decide (cmd.dnsName fl = EmptyString)
     && bool_decide (cmd.dnsType fl = EmptyString) then
    Ret (Some (errorString "at least one of --name or --type is required"))
  else
    match client.New ext (cmd.cfg env) with
    | Err err => Ret (Some err)
    | Ok c =>
        zone ← index args 0;
        r ← cmd.resolveZone ext c zone;
        match r with
        | Err err => Ret (Some err)
        | Ok zoneID =>
            r ← client.FindDNSRecords c zoneID (cmd.dnsName fl)
                  (cmd.dnsType fl);
            match r with
            | Err err => Ret (Some err)
            | Ok records =>
                if decide (length records = 0) then
                  _ ← output.WriteSuccess (cmd.out env)
                        "No matching DNS records found";
                  Ret None
                else cmd.writeDNSRecordTable env records
            end
        end
    end.

End WithExternals.

End dns.

(** ** Observations of a run *)

Definition eventOf (en : entry) : event :=
  match en with
  | Entry e _ => e
  end.

Section Observations.
Context {W : Type} (world : ∀ e : event, W → resp e * W) {A : Type}.

(** What a run returns: [None] if it panicked. *)
Definition outcome (p : prog A) (w : W) : option A := (run world p w).1.1.

(** The log of a run, and its events alone. *)
Definition logOf (p : prog A) (w : W) : list entry := (run world p w).1.2.
Definition trace (p : prog A) (w : W) : list event := eventOf <$> logOf p w.
End Observations.

(** The entries of lines printed one after the other. *)
Definition printed (lines : list string) : list entry :=
  (λ line, Entry (Fprintln line) tt) <$> lines.

(** The provider calls among the events: the round trips of a run. *)
Definition callOf (e : event) : option cloudflare.call :=
  match e with
  | Call c => Some c
  | _ => None
  end.

Definition calls (events : list event) : list cloudflare.call :=
  omap callOf events.

(** ** What the renderer computes, stated directly *)

Module output_spec.

(** A row against the widths so far: each width that has a cell grows to
    the length of the cell where that is larger. *)
Fixpoint widen (widths : list nat) (row : list string) : list nat :=
  match widths, row with
  | wi :: widths', cell :: row' =>
      (wi `max` String.length cell) :: widen widths' row'
  | _, _ => widths
  end.

(** The widths [writeASCIITable] ends up with. *)
Definition columnWidths (headers : list string) (rows : list (list string))
    : list nat :=
  foldl widen (String.length <$> headers) rows.

(** One line of the table: the cells that have a width, each padded to
    it, joined by two spaces. *)
Definition renderLine (widths : list nat) (cells : list string) : string :=
  gostd.Join (zip_with gostd.SprintfPad widths cells) "  ".

(** The strings of column [i]: its header and the cells the rows have
    there. *)
Definition inColumn (headers : list string) (rows : list (list string))
    (i : nat) (cell : string) : Prop :=
  headers !! i = Some cell ∨ ∃ row, row ∈ rows ∧ row !! i = Some cell.

(** The mapping [writeTableAsJSON] builds for a row: the headers that
    have a cell, a later one overwriting an earlier one of the same
    name. *)
Definition rowItem (headers row : list string) : gmap string string :=
  foldl (λ item hc, <[hc.1 := hc.2]> item) ∅ (zip headers row).

(** The slice [writeTableAsJSON] hands to the encoder. *)
Definition tableData (headers : list string) (rows : list (list string))
    : option (list (gmap string string)) :=
  foldl (λ result row, append result (rowItem headers row)) None rows.

(** The keys of an object, in the order they are written. *)
Definition jsonKeys (j : json) : list string :=
  match j with
  | JObject members => members.*1
  | _ => []
  end.

Definition jsonMembers (j : json) : list (string * json) :=
  match j with
  | JObject members => members
  | _ => []
  end.

End output_spec.

(** ** Reading the log *)

(** The reply an entry holds if it is a [ListZones] call, and the record an
    entry holds if it is the reply to a call for one record. *)
Definition replyListZones (en : entry)
    : option (result (list cloudflare.Zone)) :=
  match en with
  | Entry e r =>
      match e as e0 return resp e0 → option (result (list cloudflare.Zone)) with
      | Call c =>
          match c as c0
                return cloudflare.reply c0
                       → option (result (list cloudflare.Zone)) with
          | cloudflare.ListZones _ => λ r, Some r
          | _ => λ _, None
          end
      | _ => λ _, None
      end r
  end.

Definition replyRecord (en : entry) : option (result cloudflare.DNSRecord) :=
  match en with
  | Entry e r =>
      match e as e0 return resp e0 → option (result cloudflare.DNSRecord) with
      | Call c =>
          match c as c0
                return cloudflare.reply c0
                       → option (result cloudflare.DNSRecord) with
          | cloudflare.GetDNSRecord _ _ => λ r, Some r
          | cloudflare.CreateDNSRecord _ _ => λ r, Some r
          | cloudflare.UpdateDNSRecord _ _ => λ r, Some r
          | _ => λ _, None
          end
      | _ => λ _, None
      end r
  end.

Definition replyRecords (en : entry)
    : option (result (list cloudflare.DNSRecord)) :=
  match en with
  | Entry e r =>
      match e as e0
            return resp e0 → option (result (list cloudflare.DNSRecord)) with
      | Call c =>
          match c as c0
                return cloudflare.reply c0
                       → option (result (list cloudflare.DNSRecord)) with
          | cloudflare.ListDNSRecords _ _ => λ r, Some r
          | _ => λ _, None
          end
      | _ => λ _, None
      end r
  end.

(** The two calls of the zone resolver. *)
Definition isZoneCall (e : event) : bool :=
  match e with
  | Call (cloudflare.ZoneDetails _) | Call (cloudflare.ListZones _) => true
  | _ => false
  end.

(** ** What the zone resolver is compared with *)

Module client_spec.

(** The sixteen characters of a zone identifier. *)
Definition lowerHexDigits : list ascii :=
  String.list_ascii_of_string "0123456789abcdef".

Definition chars (s : string) : list ascii := String.list_ascii_of_string s.

End client_spec.

(** ** What the commands are compared with *)

Module cmd_spec.

(** The provider's parameters [client.UpdateDNSRecord] sends for the
    parameters of the command. *)
Definition sentUpdate (recordID : string)
    (params : client.UpdateDNSRecordParams)
    : cloudflare.UpdateDNSRecordParams :=
  {| cloudflare.Update_ID := recordID;
     cloudflare.Update_Type := client.Update_Type params;
     cloudflare.Update_Name := client.Update_Name params;
     cloudflare.Update_Content := client.Update_Content params;
     cloudflare.Update_TTL := default 0%Z (client.Update_TTL params);
     cloudflare.Update_Proxied := client.Update_Proxied params;
     cloudflare.Update_Priority := client.Update_Priority params;
     cloudflare.Update_Comment := client.Update_Comment params |}.

(** The provider's parameters of the create request, from the flags. *)
Definition sentCreate (fl : cmd.Flags) : cloudflare.CreateDNSRecordParams :=
  {| cloudflare.Create_Type := cmd.dnsType fl;
     cloudflare.Create_Name := cmd.dnsName fl;
     cloudflare.Create_Content := cmd.dnsContent fl;
     cloudflare.Create_TTL := default 1%Z (cmd.flag_ttl fl);
     cloudflare.Create_Proxied :=
       Some (match cmd.flag_proxied fl with
             | None => false
             | Some v => bool_decide (default "true" v = "true")
             end);
     cloudflare.Create_Priority :=
       match cmd.flag_priority fl with
       | None => None
       | Some pr => if decide (pr = 0%N) then None else Some pr
       end;
     cloudflare.Create_Comment := EmptyString |}.

(** What [WriteSuccess] writes. *)
Definition statusEvent (w : output.Writer) (msg : string) : event :=
  if decide (output.format w = output.FormatJSON) then
    Encode (marshal
              ({[ "status" := "success"; "message" := msg ]}
               : gmap string string))
  else Fprintln msg.

End cmd_spec.

(** ** A provider to run the commands against *)

Module example.

Definition externals : Externals :=
  {| unicodeLower := id;
     NewWithAPIToken := λ _, None;
     NewWithKey := λ _ _, None |}.

Definition zoneID : string := "023e105f4ecef8ad9ca31a8372d0c353".

Definition zone : cloudflare.Zone :=
  {| cloudflare.Zone_ID := zoneID;
     cloudflare.Zone_Name := "example.com";
     cloudflare.Zone_Status := "active" |}.

Definition recordID : string := "372e67954025e0ba6aaa6d586b9e0b59".

Definition record : cloudflare.DNSRecord :=
  {| cloudflare.Rec_ID := recordID;
     cloudflare.Rec_Type := "MX";
     cloudflare.Rec_Name := "mail.example.com";
     cloudflare.Rec_Content := "mx1.example.com";
     cloudflare.Rec_TTL := 300%Z;
     cloudflare.Rec_Proxied := Some false;
     cloudflare.Rec_Priority := Some 10%N;
     cloudflare.Rec_Comment := "primary" |}.

Definition notFound : error := errorString "HTTP status 404: not found".
Definition forbidden : error := errorString "HTTP status 403: Forbidden".

(** A provider with the one zone and the one record; it keeps no state.
    A created or updated record comes back with the fields of the
    request. *)
Definition provider (e : event) (s : unit) : resp e * unit :=
  (match e return resp e with
   | Call c =>
       match c return cloudflare.reply c with
       | cloudflare.ZoneDetails id =>
           if decide (id = zoneID) then Ok zone else Err notFound
       | cloudflare.ListZones names =>
           if decide (names = ["example.com"]) then Ok [zone] else Ok []
       | cloudflare.ListDNSRecords id params =>
           if decide (cloudflare.List_Type params = "MX") then Ok [record]
           else Ok []
       | cloudflare.GetDNSRecord id rid =>
           if decide (rid = recordID) then Ok record else Err notFound
       | cloudflare.CreateDNSRecord id p =>
           Ok {| cloudflare.Rec_ID := "new";
                 cloudflare.Rec_Type := cloudflare.Create_Type p;
                 cloudflare.Rec_Name := cloudflare.Create_Name p;
                 cloudflare.Rec_Content := cloudflare.Create_Content p;
                 cloudflare.Rec_TTL := cloudflare.Create_TTL p;
                 cloudflare.Rec_Proxied := cloudflare.Create_Proxied p;
                 cloudflare.Rec_Priority := cloudflare.Create_Priority p;
                 cloudflare.Rec_Comment := cloudflare.Create_Comment p |}
       | cloudflare.UpdateDNSRecord id p =>
           Ok {| cloudflare.Rec_ID := cloudflare.Update_ID p;
                 cloudflare.Rec_Type := cloudflare.Update_Type p;
                 cloudflare.Rec_Name := cloudflare.Update_Name p;
                 cloudflare.Rec_Content := cloudflare.Update_Content p;
                 cloudflare.Rec_TTL := cloudflare.Update_TTL p;
                 cloudflare.Rec_Proxied := cloudflare.Update_Proxied p;
                 cloudflare.Rec_Priority := cloudflare.Update_Priority p;
                 cloudflare.Rec_Comment :=
                   default EmptyString (cloudflare.Update_Comment p) |}
       | cloudflare.DeleteDNSRecord id rid => None
       end
   | Fprintln _ => tt
   | Encode _ => None
   end, s).

(** A provider behind a token scoped to single zones: looking zones up
    by name is refused. *)
Definition scopedProvider (e : event) (s : unit) : resp e * unit :=
  match e return resp e * unit with
  | Call (cloudflare.ListZones names) => (Err forbidden, s)
  | e => provider e s
  end.

Definition env : cmd.Env :=
  {| cmd.cfg := {| config.APIToken := "token";
                   config.APIKey := EmptyString;
                   config.APIEmail := EmptyString;
                   config.OutputFormat := EmptyString |};
     cmd.out := output.NewWriter output.FormatTable;
     cmd.outputFormat := "table" |}.

Definition noFlags : cmd.Flags :=
  {| cmd.flag_type := None; cmd.flag_name := None; cmd.flag_content := None;
     cmd.flag_ttl := None; cmd.flag_proxied := None;
     cmd.flag_priority := None |}.

(** [update] with [--content] alone, and [create] for a mail exchanger
    with the priority 10 and with the priority 0. *)
Definition contentOnly : cmd.Flags :=
  {| cmd.flag_type := None; cmd.flag_name := None;
     cmd.flag_content := Some "mx2.example.com";
     cmd.flag_ttl := None; cmd.flag_proxied := None;
     cmd.flag_priority := None |}.

Definition contentUpdate : cloudflare.UpdateDNSRecordParams :=
  {| cloudflare.Update_ID := recordID;
     cloudflare.Update_Type := "MX";
     cloudflare.Update_Name := "mail.example.com";
     cloudflare.Update_Content := "mx2.example.com";
     cloudflare.Update_TTL := 0%Z;
     cloudflare.Update_Proxied := None;
     cloudflare.Update_Priority := None;
     cloudflare.Update_Comment := None |}.

Definition mx (priority : N) : cmd.Flags :=
  {| cmd.flag_type := Some "MX"; cmd.flag_name := Some "mail";
     cmd.flag_content := Some "mx1.example.com";
     cmd.flag_ttl := None; cmd.flag_proxied := None;
     cmd.flag_priority := Some priority |}.

End example.

(** ** What the other commands are compared with *)

Module more_spec.

(** A trace that is at most [bound] provider calls and then output
    only. *)
Definition callsThenOutput (bound : nat) (events : list event) : Prop :=
  ∃ (cs : list cloudflare.call) (outs : list event),
    events = (Call <$> cs) ++ outs ∧ calls outs = [] ∧ length cs ≤ bound.

(** The reply an entry holds if it is a [DeleteDNSRecord] call. *)
Definition replyDelete (en : entry) : option (option error) :=
  match en with
  | Entry e r =>
      match e as e0 return resp e0 → option (option error) with
      | Call c =>
          match c as c0 return cloudflare.reply c0 → option (option error) with
          | cloudflare.DeleteDNSRecord _ _ => λ r, Some r
          | _ => λ _, None
          end
      | _ => λ _, None
      end r
  end.

(** The frame the record commands share: the client, then the zone of
    the first argument, then the rest [K] of the command. *)
Definition withZone (ext : Externals) (env : cmd.Env)
    (K : client.Client → string → prog (option error)) (args : list string)
    : prog (option error) :=
  match client.New ext (cmd.cfg env) with
  | Err err => Ret (Some err)
  | Ok c =>
      zone ← index args 0;
      r ← cmd.resolveZone ext c zone;
      match r with
      | Err err => Ret (Some err)
      | Ok zoneID => K c zoneID
      end
  end.

(** The object a row of the record table is in structured mode: the six
    cells as strings under their headers, the keys sorted. *)
Definition recordObject (r : client.DNSRecord) : json :=
  JObject [("Content", JString (client.Content r));
           ("ID", JString (client.ID r));
           ("Name", JString (client.Name r));
           ("Proxied", JString (output.FormatBool (client.Proxied r)));
           ("TTL", JString (output.FormatTTL (client.TTL r)));
           ("Type", JString (client.Type_ r))].

Definition zoneObject (z : client.Zone) : json :=
  JObject [("ID", JString (client.Zone_ID z));
           ("Name", JString (client.Zone_Name z));
           ("Status", JString (client.Zone_Status z))].

(** The environment of the examples. *)
Definition Getenv (name : string) : string :=
  if decide (name = "CLOUDFLARE_API_TOKEN") then "secret" else EmptyString.

Definition fileConfig : config.Config :=
  {| config.APIToken := "from-file";
     config.APIKey := "key";
     config.APIEmail := "me@example.com";
     config.OutputFormat := "json" |}.

Definition readConfig (path : string) : option config.Config :=
  if decide (path = "/home/me/.cloudflare/config.yaml") then Some fileConfig
  else None.

(** The package variables after [--output json], and after no flag with
    the file asking for json. *)
Definition flagEnv : cmd.Env :=
  root.PersistentPreRunE Getenv "/home/me/.cloudflare/config.yaml" readConfig
    EmptyString (Some "json").

Definition fileEnv : cmd.Env :=
  root.PersistentPreRunE Getenv "/home/me/.cloudflare/config.yaml" readConfig
    EmptyString None.

(** [create] and [update] with [--proxied=yes]. *)
Definition proxiedYes : cmd.Flags :=
  {| cmd.flag_type := Some "A"; cmd.flag_name := Some "www";
     cmd.flag_content := Some "192.0.2.1";
     cmd.flag_ttl := None; cmd.flag_proxied := Some (Some "yes");
     cmd.flag_priority := None |}.

End more_spec.

(** * Properties *)

(** ** Running programs *)

Section RunFacts.
Context {W : Type} (world : ∀ e : event, W → resp e * W).

Lemma run_bind {A B} (p : prog A) (f : A → prog B) (w : W) :
  run world (bind p f) w =
    let '(a, log, w1) := run world p w in
    match a with
    | Some x => let '(b, log2, w2) := run world (f x) w1 in (b, log ++ log2, w2)
    | None => (None, log, w1)
    end.
Proof.
  revert w. induction p as [a| |e k IH]; intros w; simpl.
  - by destruct (run world (f a) w) as [[b l] w2].
  - done.
  - destruct (world e w) as [r w1]. rewrite IH.
    destruct (run world (k r) w1) as [[[x|] l] w2]; [|done].
    by destruct (run world (f x) w2) as [[b l2] w3].
Qed.

Lemma run_ret {A} (a : A) (w : W) : run world (Ret a) w = (Some a, [], w).
Proof. done. Qed.
End RunFacts.

Lemma setIndex_lt {A} (xs : list A) (i : nat) (x : A) :
  i < length xs → setIndex xs i x = Ret (<[i:=x]> xs).
Proof. intros Hi. unfold setIndex. by rewrite decide_True. Qed.

Lemma index_lookup {A} (xs : list A) (i : nat) (x : A) :
  xs !! i = Some x → index xs i = Ret x.
Proof. intros Hx. unfold index. by rewrite Hx. Qed.

Lemma snoc_app {A} (pre : list A) (x : A) (rest : list A) :
  pre ++ x :: rest = (pre ++ [x]) ++ rest.
Proof. by rewrite <- app_assoc. Qed.

Lemma snoc_length {A} (pre : list A) (x : A) :
  length (pre ++ [x]) = S (length pre).
Proof. rewrite length_app. simpl. lia. Qed.


(** ** Strings, runes and padding *)

Module gostd_facts.
Import gostd.

Local Arguments String.append !_ _.

Lemma length_append (s t : string) :
  String.length (s +:+ t) = String.length s + String.length t.
Proof. induction s as [|c s IH]; simpl; [done|]. by rewrite IH. Qed.

Lemma append_assoc (s t u : string) : (s +:+ t) +:+ u = s +:+ t +:+ u.
Proof. induction s as [|c s IH]; simpl; [done|]. by rewrite IH. Qed.

Lemma append_nil_r (s : string) : s +:+ EmptyString = s.
Proof. induction s as [|c s IH]; simpl; [done|]. by rewrite IH. Qed.

Lemma length_spaces n : String.length (spaces n) = n.
Proof. induction n as [|n IH]; simpl; [done|]. by rewrite IH. Qed.

(** *** Runes *)

Lemma first_spec b size lo hi :
  first b = Some (size, (lo, hi)) →
  (size = 2 ∨ size = 3 ∨ size = 4) ∧ (128 ≤ lo)%N.
Proof.
  unfold first. intros H.
  repeat match type of H with
         | (if ?c then _ else _) = _ => destruct c
         end; simplify_eq; split; auto; lia.
Qed.

Lemma byteIn_lt s i lo hi : byteIn s i lo hi = true → i < String.length s.
Proof.
  unfold byteIn. revert i. induction s as [|c s IH]; intros i; simpl.
  - by destruct i.
  - destruct i as [|i]; [lia|]. intros H. apply IH in H. lia.
Qed.

Lemma byteIn_spaces s n i lo hi :
  (128 ≤ lo)%N → byteIn (s +:+ spaces n) i lo hi = byteIn s i lo hi.
Proof.
  intros Hlo. unfold byteIn. revert i. induction s as [|c s IH]; intros i.
  - simpl. revert i. induction n as [|n IHn]; intros i; simpl.
    + by destruct i.
    + destruct i as [|i]; [|apply IHn]. unfold byteval. simpl.
      apply andb_false_iff. left. apply N.leb_gt. lia.
  - destruct i as [|i]; simpl; [done|]. apply IH.
Qed.

Lemma runeSize_bounds c rest :
  1 ≤ runeSize c rest ≤ S (String.length rest).
Proof.
  unfold runeSize. destruct (byteval c <? RuneSelf)%N; [lia|].
  destruct (first (byteval c)) as [[size [lo hi]]|] eqn:Hfirst; [|lia].
  apply first_spec in Hfirst as [Hsize _].
  destruct (String.length rest <? size - 1) eqn:Hlen; [lia|].
  apply Nat.ltb_ge in Hlen.
  repeat match goal with
         | |- context [if ?c then _ else _] => destruct c eqn:?
         end; try lia;
    repeat match goal with
           | H : (_ =? _) = true |- _ => apply Nat.eqb_eq in H
           | H : (_ =? _) = false |- _ => apply Nat.eqb_neq in H
           end; lia.
Qed.

Lemma runeSize_spaces c rest n :
  runeSize c (rest +:+ spaces n) = runeSize c rest.
Proof.
  unfold runeSize. destruct (byteval c <? RuneSelf)%N; [done|].
  destruct (first (byteval c)) as [[size [lo hi]]|] eqn:Hfirst; [|done].
  apply first_spec in Hfirst as [Hsize Hlo].
  rewrite !byteIn_spaces by (done || lia).
  rewrite length_append, length_spaces.
  destruct Hsize as [->|[->| ->]]; cbn [Nat.sub Nat.eqb];
    repeat match goal with
           | |- context [?a <? ?b] => destruct (Nat.ltb_spec a b)
           end;
    destruct (byteIn rest 0 lo hi) eqn:Hb0;
    destruct (byteIn rest 1 128 191) eqn:Hb1;
    destruct (byteIn rest 2 128 191) eqn:Hb2;
    try apply byteIn_lt in Hb0; try apply byteIn_lt in Hb1;
    try apply byteIn_lt in Hb2; cbn [negb]; try done; lia.
Qed.

Lemma runeCountFrom_le skip s : runeCountFrom skip s ≤ String.length s.
Proof.
  revert skip. induction s as [|c s IH]; intros skip; simpl; [done|].
  destruct skip as [|k].
  - specialize (IH (runeSize c s - 1)). lia.
  - specialize (IH k). lia.
Qed.

(** A string has at most as many runes as bytes. *)
Lemma RuneCountInString_le s : RuneCountInString s ≤ String.length s.
Proof. apply runeCountFrom_le. Qed.

Lemma runeCountFrom_spaces_only n : runeCountFrom 0 (spaces n) = n.
Proof. induction n as [|n IH]; simpl; [done|]. by rewrite IH. Qed.

Lemma runeCountFrom_spaces skip s n :
  skip ≤ String.length s →
  runeCountFrom skip (s +:+ spaces n) = runeCountFrom skip s + n.
Proof.
  revert skip. induction s as [|c s IH]; intros skip Hskip; simpl in *.
  - assert (skip = 0) as -> by lia. apply runeCountFrom_spaces_only.
  - destruct skip as [|k].
    + rewrite runeSize_spaces. rewrite IH; [done|].
      pose proof (runeSize_bounds c s). lia.
    + apply IH. lia.
Qed.

(** Padding keeps the string, adds only spaces, and reaches the width
    in runes whenever the string has no more bytes than the width. *)
Lemma SprintfPad_runes width s :
  String.length s ≤ width → RuneCountInString (SprintfPad width s) = width.
Proof.
  intros Hlen. unfold SprintfPad, RuneCountInString.
  rewrite runeCountFrom_spaces by lia.
  pose proof (runeCountFrom_le 0 s). lia.
Qed.

Lemma isASCII_runes s : isASCII s = true → RuneCountInString s = String.length s.
Proof.
  unfold RuneCountInString. induction s as [|c s IH]; simpl; [done|].
  intros [Hc Hs]%andb_true_iff. unfold runeSize. rewrite Hc. simpl.
  by rewrite IH.
Qed.

(** *** [Contains] *)

Lemma HasPrefix_spec s sub :
  HasPrefix s sub = true ↔ ∃ rest, s = sub +:+ rest.
Proof.
  unfold HasPrefix. revert s. induction sub as [|c sub IH]; intros s.
  - split; [intros _; by exists s|by destruct s].
  - destruct s as [|d s]; simpl; [split; [done|by intros [? ?]]|].
    destruct (ascii_dec c d) as [->|Hne].
    + rewrite IH. split; intros [rest Hrest]; exists rest; simpl in *;
        congruence.
    + split; [done|]. intros [rest Hrest]. simpl in Hrest. congruence.
Qed.

Lemma Contains_spec s sub :
  Contains s sub = true ↔ ∃ before after, s = before +:+ sub +:+ after.
Proof.
  induction s as [|c s IH]; cbn [Contains].
  - destruct (HasPrefix EmptyString sub) eqn:Hp.
    + split; [intros _|done]. apply HasPrefix_spec in Hp as [rest ->].
      by exists EmptyString, rest.
    + split; [done|]. intros ([|d before] & after & Heq); simpl in Heq.
      * assert (HasPrefix EmptyString sub = true) as Hq
          by (apply HasPrefix_spec; eauto). congruence.
      * done.
  - destruct (HasPrefix (String c s) sub) eqn:Hp.
    + split; [intros _|done]. apply HasPrefix_spec in Hp as [rest ->].
      by exists EmptyString, rest.
    + rewrite IH. split.
      * intros (before & after & ->). by exists (String c before), after.
      * intros ([|d before] & after & Heq); simpl in Heq.
        -- assert (HasPrefix (String c s) sub = true) as Hq
             by (apply HasPrefix_spec; eauto). congruence.
        -- injection Heq as _ ->. eauto.
Qed.

Lemma Contains_append_l s t sub :
  Contains s sub = true → Contains (s +:+ t) sub = true.
Proof.
  rewrite !Contains_spec. intros (before & after & ->).
  exists before, (after +:+ t). by rewrite !append_assoc.
Qed.

Lemma Contains_append_r s t sub :
  Contains t sub = true → Contains (s +:+ t) sub = true.
Proof.
  rewrite !Contains_spec. intros (before & after & ->).
  exists (s +:+ before), after. by rewrite !append_assoc.
Qed.

(** *** Lower case *)

Lemma lowerBytes_append s t :
  lowerBytes (s +:+ t) = lowerBytes s +:+ lowerBytes t.
Proof. induction s as [|c s IH]; simpl; [done|]. by rewrite IH. Qed.

Lemma lowerBytes_split s a b :
  lowerBytes s = a +:+ b →
  ∃ s1 s2, s = s1 +:+ s2 ∧ lowerBytes s1 = a ∧ lowerBytes s2 = b.
Proof.
  revert s. induction a as [|c a IH]; intros s Heq; simpl in Heq.
  - by exists EmptyString, s.
  - destruct s as [|d s]; simpl in Heq; [done|].
    injection Heq as Hc Hrest. apply IH in Hrest as (s1 & s2 & -> & <- & <-).
    exists (String d s1), s2. simpl. by rewrite Hc.
Qed.

(** For a text within ASCII, [Contains (ToLower text) marker] finds
    [marker] in [text] whatever the case of the letters of [text]. *)
Lemma Contains_ToLower_ascii unicodeLower text marker :
  isASCII text = true →
  Contains (ToLower unicodeLower text) marker = true ↔
  ∃ before found after,
    text = before +:+ found +:+ after ∧ lowerBytes found = marker.
Proof.
  intros Hascii. unfold ToLower. rewrite Hascii, Contains_spec. split.
  - intros (a & b & Heq).
    apply lowerBytes_split in Heq as (s1 & s2 & -> & _ & Heq).
    apply lowerBytes_split in Heq as (s3 & s4 & -> & Hm & _).
    by exists s1, s3, s4.
  - intros (before & found & after & -> & <-).
    exists (lowerBytes before), (lowerBytes after).
    by rewrite !lowerBytes_append.
Qed.
End gostd_facts.

(** ** The table renderer *)

Module output_facts.
Import output output_spec.

Lemma widen_length widths row : length (widen widths row) = length widths.
Proof.
  revert row. induction widths as [|wi widths IH]; intros [|cell row];
    simpl; auto.
Qed.

Lemma columnWidths_length headers rows :
  length (columnWidths headers rows) = length headers.
Proof.
  unfold columnWidths.
  assert (∀ ws, length (foldl widen ws rows) = length ws) as ->.
  { induction rows as [|row rows IH]; intros ws; simpl; [done|].
    by rewrite IH, widen_length. }
  by rewrite length_fmap.
Qed.

(** The first loop: the header lengths overwrite the zeroes. *)
Lemma header_widths_loop (headers : list string) (pre rest : list nat) :
  length headers ≤ length rest →
  rangeFrom (length pre) headers
    (λ i h widths, setIndex widths i (String.length h)) (pre ++ rest)
  = Ret (pre ++ (String.length <$> headers) ++ drop (length headers) rest).
Proof.
  revert pre rest. induction headers as [|h headers IH]; intros pre rest Hlen.
  - simpl. by rewrite drop_0.
  - destruct rest as [|r rest]; simpl in Hlen; [lia|].
    cbn [rangeFrom].
    rewrite setIndex_lt by (rewrite length_app; simpl; lia).
    cbn [bind].
    rewrite insert_app_r_alt by lia. rewrite Nat.sub_diag.
    cbn [insert list_insert].
    rewrite snoc_app, <- (snoc_length pre (String.length h)).
    rewrite IH by lia. by rewrite <- app_assoc.
Qed.

(** Past the last width the second pass changes nothing. *)
Lemma widen_loop_out (row : list string) (i : nat) (widths : list nat) :
  length widths ≤ i →
  rangeFrom i row
    (λ i cell widths,
       if decide (i < length widths) then
         wi ← index widths i;
         if decide (wi < String.length cell) then
           setIndex widths i (String.length cell)
         else Ret widths
       else Ret widths)
    widths
  = Ret widths.
Proof.
  revert i. induction row as [|cell row IH]; intros i Hi; [done|].
  cbn [rangeFrom]. rewrite decide_False by lia. cbn [bind]. apply IH. lia.
Qed.

(** The inner loop of the second pass is [widen]. *)
Lemma widen_loop (row : list string) (pre rest : list nat) :
  rangeFrom (length pre) row
    (λ i cell widths,
       if decide (i < length widths) then
         wi ← index widths i;
         if decide (wi < String.length cell) then
           setIndex widths i (String.length cell)
         else Ret widths
       else Ret widths)
    (pre ++ rest)
  = Ret (pre ++ widen rest row).
Proof.
  revert pre rest. induction row as [|cell row IH]; intros pre rest.
  - simpl. by destruct rest.
  - destruct rest as [|wi rest].
    + cbn [widen]. rewrite !app_nil_r. apply widen_loop_out. lia.
    + cbn [rangeFrom widen].
      rewrite decide_True by (rewrite length_app; simpl; lia).
      rewrite (index_lookup _ _ wi).
      2:{ rewrite lookup_app_r by lia. by rewrite Nat.sub_diag. }
      cbn [bind]. case_decide as Hlt.
      * rewrite setIndex_lt by (rewrite length_app; simpl; lia).
        cbn [bind].
        rewrite insert_app_r_alt by lia. rewrite Nat.sub_diag.
        cbn [insert list_insert].
        replace (wi `max` String.length cell) with (String.length cell) by lia.
        rewrite (snoc_app pre), <- (snoc_length pre (String.length cell)).
        rewrite IH. by rewrite <- app_assoc.
      * cbn [bind].
        replace (wi `max` String.length cell) with wi by lia.
        rewrite (snoc_app pre), <- (snoc_length pre wi).
        rewrite IH. by rewrite <- app_assoc.
Qed.

Lemma rows_widths_loop (rows : list (list string)) (i : nat) (widths : list nat) :
  rangeFrom i rows
    (λ _ row widths,
       forRange row
         (λ i cell widths,
            if decide (i < length widths) then
              wi ← index widths i;
              if decide (wi < String.length cell) then
                setIndex widths i (String.length cell)
              else Ret widths
            else Ret widths)
         widths)
    widths
  = Ret (foldl widen widths rows).
Proof.
  revert i widths. induction rows as [|row rows IH]; intros i widths.
  - done.
  - cbn [rangeFrom foldl]. unfold forRange at 1.
    pose proof (widen_loop row [] widths) as Hrow.
    cbn [length app] in Hrow. rewrite Hrow. cbn [bind]. apply IH.
Qed.

(** The loop that pads the headers: every header has a width. *)
Lemma header_parts_loop (headers : list string) (pre rest : list nat)
    (parts : list string) :
  length headers ≤ length rest →
  rangeFrom (length pre) headers
    (λ i h headerParts,
       wi ← index (pre ++ rest) i;
       Ret (headerParts ++ [gostd.SprintfPad wi h]))
    parts
  = Ret (parts ++ zip_with gostd.SprintfPad rest headers).
Proof.
  revert pre rest parts.
  induction headers as [|h headers IH]; intros pre rest parts Hlen.
  - simpl. by rewrite zip_with_nil_r, app_nil_r.
  - destruct rest as [|wi rest]; simpl in Hlen; [lia|].
    cbn [rangeFrom zip_with].
    rewrite (index_lookup _ _ wi).
    2:{ rewrite lookup_app_r by lia. by rewrite Nat.sub_diag. }
    cbn [bind].
    rewrite (snoc_app pre), <- (snoc_length pre wi).
    rewrite IH by lia. by rewrite <- app_assoc.
Qed.

(** The loop that pads the cells of a row: cells without a width are
    skipped. *)
Lemma row_parts_loop_out (row : list string) (i : nat) (widths : list nat)
    (parts : list string) :
  length widths ≤ i →
  rangeFrom i row
    (λ i cell rowParts,
       if decide (i < length widths) then
         wi ← index widths i;
         Ret (rowParts ++ [gostd.SprintfPad wi cell])
       else Ret rowParts)
    parts
  = Ret parts.
Proof.
  revert i. induction row as [|cell row IH]; intros i Hi; [done|].
  cbn [rangeFrom]. rewrite decide_False by lia. cbn [bind]. apply IH. lia.
Qed.

Lemma row_parts_loop (row : list string) (pre rest : list nat)
    (parts : list string) :
  rangeFrom (length pre) row
    (λ i cell rowParts,
       if decide (i < length (pre ++ rest)) then
         wi ← index (pre ++ rest) i;
         Ret (rowParts ++ [gostd.SprintfPad wi cell])
       else Ret rowParts)
    parts
  = Ret (parts ++ zip_with gostd.SprintfPad rest row).
Proof.
  revert pre rest parts.
  induction row as [|cell row IH]; intros pre rest parts.
  - simpl. by rewrite zip_with_nil_r, app_nil_r.
  - destruct rest as [|wi rest].
    + cbn [zip_with]. rewrite !app_nil_r.
      apply row_parts_loop_out. lia.
    + cbn [rangeFrom zip_with].
      rewrite decide_True by (rewrite length_app; simpl; lia).
      rewrite (index_lookup _ _ wi).
      2:{ rewrite lookup_app_r by lia. by rewrite Nat.sub_diag. }
      cbn [bind].
      rewrite (snoc_app pre), <- (snoc_length pre wi).
      rewrite IH. by rewrite <- app_assoc.
Qed.

Section Rendering.
Context {W : Type} (world : ∀ e : event, W → resp e * W).

(** The last loop: one line per row. *)
Lemma rows_print_loop (widths : list nat) (rows : list (list string))
    (i : nat) (u : unit) (s : W) :
  (run world
     (rangeFrom i rows
        (λ _ row _,
           rowParts ← forRange row
                        (λ i cell rowParts,
                           if decide (i < length widths) then
                             wi ← index widths i;
                             Ret (rowParts ++ [gostd.SprintfPad wi cell])
                           else Ret rowParts)
                        [];
           perform (Fprintln (gostd.Join rowParts "  ")))
        u) s).1
  = (Some tt, printed (renderLine widths <$> rows)).
Proof.
  revert i u s. induction rows as [|row rows IH]; intros i u s.
  - by destruct u.
  - cbn [rangeFrom]. unfold forRange at 1.
    pose proof (row_parts_loop row [] widths []) as Hrow.
    cbn [length app] in Hrow. rewrite Hrow. cbn [bind perform run].
    destruct (world (Fprintln _) s) as [[] s1].
    specialize (IH (S i) tt s1).
    destruct (run world _ s1) as [[a log] s2].
    cbn in IH. injection IH as -> ->. done.
Qed.

(** What [writeASCIITable] does: it never panics, returns [nil], and
    prints the header line and then one line per row, all of them
    against the same widths. *)
Lemma writeASCIITable_run (w : Writer) (headers : list string)
    (rows : list (list string)) (s : W) :
  (run world (writeASCIITable w headers rows) s).1
  = (Some None,
     printed (renderLine (columnWidths headers rows) headers
              :: (renderLine (columnWidths headers rows) <$> rows))).
Proof.
  unfold writeASCIITable, forRange.
  pose proof (header_widths_loop headers [] (replicate (length headers) 0))
    as H1.
  cbn [length app] in H1. rewrite H1 by (by rewrite length_replicate).
  cbn [bind]. clear H1.
  rewrite drop_ge by (by rewrite length_replicate). rewrite app_nil_r.
  rewrite rows_widths_loop. cbn [bind].
  fold (columnWidths headers rows).
  pose proof (header_parts_loop headers [] (columnWidths headers rows) [])
    as H2.
  cbn [length app] in H2.
  rewrite H2 by (by rewrite columnWidths_length).
  cbn [bind perform run]. clear H2.
  destruct (world (Fprintln _) s) as [[] s1].
  rewrite run_bind.
  pose proof (rows_print_loop (columnWidths headers rows) rows 0 tt s1)
    as H3.
  destruct (run world _ s1) as [[a log] s2].
  cbn in H3. injection H3 as -> ->.
  cbn [run fst]. by rewrite app_nil_r.
Qed.
End Rendering.


(** *** The widths are the column maxima *)

Lemma widen_lookup (widths : list nat) (row : list string) (i : nat) :
  widen widths row !! i
  = (λ wi, match row !! i with
           | Some cell => wi `max` String.length cell
           | None => wi
           end) <$> widths !! i.
Proof.
  revert row i. induction widths as [|wi widths IH]; intros [|cell row] i;
    try done.
  - cbn [widen]. rewrite lookup_nil. by destruct ((wi :: widths) !! i).
  - destruct i as [|i]; simpl; [done|]. apply IH.
Qed.

Lemma foldl_widen_spec (rows : list (list string)) (widths : list nat)
    (i w : nat) :
  foldl widen widths rows !! i = Some w →
  ∃ w0, widths !! i = Some w0 ∧ w0 ≤ w
    ∧ (∀ row cell, row ∈ rows → row !! i = Some cell → String.length cell ≤ w)
    ∧ (w = w0 ∨ ∃ row cell,
         row ∈ rows ∧ row !! i = Some cell ∧ String.length cell = w).
Proof.
  revert widths. induction rows as [|row rows IH]; intros widths Hw.
  - exists w. simpl in Hw. repeat split; auto.
    intros row cell Hin. by apply elem_of_nil in Hin.
  - simpl in Hw. apply IH in Hw as (w1 & Hw1 & Hle & Hub & Hmax).
    rewrite widen_lookup in Hw1.
    destruct (widths !! i) as [w0|] eqn:Hw0; [|done].
    simpl in Hw1. injection Hw1 as Hw1. exists w0. split; [done|].
    split; [destruct (row !! i); lia|]. split.
    + intros row' cell [->|Hin]%elem_of_cons Hcell.
      * rewrite Hcell in Hw1. lia.
      * eauto.
    + destruct Hmax as [->|(row' & cell & Hin & Hcell & Hlen)].
      * destruct (row !! i) as [cell|] eqn:Hcell; [|by left].
        destruct (decide (String.length cell ≤ w0)); [left; lia|].
        right. exists row, cell. split; [apply elem_of_cons; by left|].
        split; [done|lia].
      * right. exists row', cell. split; [apply elem_of_cons; by right|done].
Qed.

Lemma columnWidths_spec (headers : list string) (rows : list (list string))
    (i w : nat) :
  columnWidths headers rows !! i = Some w →
  (∀ cell, inColumn headers rows i cell → String.length cell ≤ w)
  ∧ (∃ cell, inColumn headers rows i cell ∧ String.length cell = w).
Proof.
  intros (w0 & Hw0 & Hle & Hub & Hmax)%foldl_widen_spec.
  rewrite list_lookup_fmap in Hw0.
  destruct (headers !! i) as [h|] eqn:Hh; [|done].
  simpl in Hw0. injection Hw0 as <-. split.
  - intros cell [Hcell|(row & Hin & Hcell)]; [|eauto].
    by simplify_eq.
  - destruct Hmax as [->|(row & cell & Hin & Hcell & Hlen)].
    + exists h. split; [by left|done].
    + exists cell. split; [right; eauto|done].
Qed.

(** *** Cells past the last header *)

Lemma widen_take (widths : list nat) (row : list string) :
  widen widths (take (length widths) row) = widen widths row.
Proof.
  revert row. induction widths as [|wi widths IH]; intros [|cell row];
    simpl; try done. by rewrite IH.
Qed.

Lemma foldl_widen_take (rows : list (list string)) (widths : list nat) :
  foldl widen widths (take (length widths) <$> rows) = foldl widen widths rows.
Proof.
  revert widths. induction rows as [|row rows IH]; intros widths; [done|].
  simpl. rewrite widen_take. rewrite <- (widen_length widths row) at 1.
  apply IH.
Qed.

Lemma columnWidths_take (headers : list string) (rows : list (list string)) :
  columnWidths headers (take (length headers) <$> rows)
  = columnWidths headers rows.
Proof.
  unfold columnWidths.
  rewrite <- (length_fmap String.length headers). apply foldl_widen_take.
Qed.

Lemma renderLine_take (widths : list nat) (cells : list string) :
  renderLine widths (take (length widths) cells) = renderLine widths cells.
Proof. unfold renderLine. by rewrite zip_with_take_r. Qed.

(** *** The structured mode *)

Lemma item_loop (headers : list string) (pre rest : list string)
    (item : gmap string string) :
  rangeFrom (length pre) headers
    (λ i header (item : gmap string string),
       if decide (i < length (pre ++ rest)) then
         cell ← index (pre ++ rest) i;
         Ret (<[header := cell]> item)
       else Ret item)
    item
  = Ret (foldl (λ item hc, <[hc.1 := hc.2]> item) item (zip headers rest)).
Proof.
  revert pre rest item.
  induction headers as [|h headers IH]; intros pre rest item; [done|].
  destruct rest as [|cell rest].
  - cbn [rangeFrom zip zip_with foldl]. rewrite app_nil_r.
    rewrite decide_False by lia. cbn [bind].
    assert (∀ i item, length pre ≤ i →
      rangeFrom i headers
        (λ i header (item : gmap string string),
           if decide (i < length pre) then
             cell ← index pre i;
             Ret (<[header := cell]> item)
           else Ret item) item = Ret item) as Hout.
    { clear. induction headers as [|h headers IH]; intros i item Hi; [done|].
      cbn [rangeFrom]. rewrite decide_False by lia. cbn [bind].
      apply IH. lia. }
    apply Hout. lia.
  - cbn [rangeFrom zip zip_with foldl].
    rewrite decide_True by (rewrite length_app; simpl; lia).
    rewrite (index_lookup _ _ cell).
    2:{ rewrite lookup_app_r by lia. by rewrite Nat.sub_diag. }
    cbn [bind].
    rewrite (snoc_app pre), <- (snoc_length pre cell).
    apply IH.
Qed.

Lemma result_loop (headers : list string) (rows : list (list string))
    (i : nat) (result : option (list (gmap string string))) :
  rangeFrom i rows
    (λ _ row (result : option (list (gmap string string))),
       item ← forRange headers
                (λ i header (item : gmap string string),
                   if decide (i < length row) then
                     cell ← index row i;
                     Ret (<[header := cell]> item)
                   else Ret item)
                ∅;
       Ret (append result item))
    result
  = Ret (foldl (λ result row, append result (rowItem headers row)) result rows).
Proof.
  revert i result. induction rows as [|row rows IH]; intros i result; [done|].
  cbn [rangeFrom foldl]. unfold forRange at 1.
  pose proof (item_loop headers [] row ∅) as Hitem.
  cbn [length app] in Hitem. rewrite Hitem. cbn [bind]. apply IH.
Qed.

(** [writeTableAsJSON] encodes one document: the mappings of the rows. *)
Lemma writeTableAsJSON_eq (w : Writer) (headers : list string)
    (rows : list (list string)) :
  writeTableAsJSON w headers rows
  = perform (Encode (marshal (tableData headers rows))).
Proof.
  pose proof (result_loop headers rows 0 None) as Hloop.
  unfold writeTableAsJSON. unfold forRange in *. by rewrite Hloop.
Qed.

Lemma foldl_append {A B} (f : A → B) (rows : list A) (acc : list B) :
  foldl (λ result row, append result (f row)) (Some acc) rows
  = Some (acc ++ (f <$> rows)).
Proof.
  revert acc. induction rows as [|row rows IH]; intros acc.
  - simpl. by rewrite app_nil_r.
  - cbn [foldl]. unfold append at 2. cbn [default]. rewrite IH.
    by rewrite <- app_assoc.
Qed.

Lemma tableData_cons (headers : list string) (row : list string)
    (rows : list (list string)) :
  tableData headers (row :: rows) = Some (rowItem headers <$> row :: rows).
Proof.
  unfold tableData. cbn [foldl]. unfold append at 2. cbn [default app].
  by rewrite foldl_append.
Qed.

Lemma foldl_insert_is_Some (l : list (string * string))
    (m : gmap string string) (k : string) :
  is_Some (foldl (λ item hc, <[hc.1 := hc.2]> item) m l !! k)
  ↔ is_Some (m !! k) ∨ k ∈ l.*1.
Proof.
  revert m. induction l as [|[h c] l IH]; intros m; simpl.
  - split; [by left|]. intros [?|Hin]; [done|]. by apply elem_of_nil in Hin.
  - rewrite IH, elem_of_cons. destruct (decide (h = k)) as [->|Hne].
    + rewrite lookup_insert_eq. split; [by right; left|eauto].
    + rewrite lookup_insert_ne by done. intuition congruence.
Qed.

Lemma foldl_insert_Some (l : list (string * string))
    (m : gmap string string) (k v : string) :
  foldl (λ item hc, <[hc.1 := hc.2]> item) m l !! k = Some v →
  m !! k = Some v ∨ (k, v) ∈ l.
Proof.
  revert m. induction l as [|[h c] l IH]; intros m; simpl; [by left|].
  intros [Hm|Hin]%IH.
  - destruct (decide (h = k)) as [->|Hne].
    + rewrite lookup_insert_eq in Hm. injection Hm as ->.
      right. apply elem_of_cons. by left.
    + rewrite lookup_insert_ne in Hm by done. by left.
  - right. apply elem_of_cons. by right.
Qed.

Lemma zip_fst_take {A B} (l : list A) (k : list B) :
  (zip l k).*1 = take (length k) l.
Proof.
  revert k. induction l as [|x l IH]; intros [|y k]; simpl; try done.
  by rewrite IH.
Qed.

(** The keys of the mapping of a row are the headers that have a cell. *)
Lemma rowItem_keys (headers row : list string) (k : string) :
  is_Some (rowItem headers row !! k) ↔ k ∈ take (length row) headers.
Proof.
  unfold rowItem. rewrite foldl_insert_is_Some, lookup_empty, zip_fst_take.
  split; [|by right]. intros [[? ?]|?]; done.
Qed.

(** The value under a key is the cell under a header of that name. *)
Lemma rowItem_values (headers row : list string) (k v : string) :
  rowItem headers row !! k = Some v →
  ∃ i, headers !! i = Some k ∧ row !! i = Some v.
Proof.
  unfold rowItem. intros [Hm|Hin]%foldl_insert_Some.
  - by rewrite lookup_empty in Hm.
  - apply elem_of_lookup_zip_with in Hin as (i & h & c & Heq & Hh & Hc).
    injection Heq as -> ->. eauto.
Qed.

(** The members of the object a mapping is encoded as. *)
Lemma marshal_map_members (m : gmap string string) (k : string) (j : json) :
  (k, j) ∈ jsonMembers (marshal m) ↔ ∃ v, m !! k = Some v ∧ j = JString v.
Proof.
  unfold marshal, marshal_map. cbn [jsonMembers].
  rewrite list_elem_of_fmap. split.
  - intros ([k' v] & Heq & Hin). rewrite merge_sort_Permutation in Hin.
    apply elem_of_map_to_list in Hin. injection Heq as -> ->. eauto.
  - intros (v & Hm & ->). exists (k, v). split; [done|].
    rewrite merge_sort_Permutation. by apply elem_of_map_to_list.
Qed.

Lemma marshal_map_keys (m : gmap string string) (k : string) :
  k ∈ jsonKeys (marshal m) ↔ is_Some (m !! k).
Proof.
  unfold jsonKeys.
  change (match marshal m with JObject members => members.*1 | _ => [] end)
    with ((jsonMembers (marshal m)).*1).
  rewrite list_elem_of_fmap. split.
  - intros ([k' j] & -> & Hin). apply marshal_map_members in Hin as (v & ? & _).
    eauto.
  - intros [v Hv]. exists (k, JString v). split; [done|].
    apply marshal_map_members. eauto.
Qed.

End output_facts.
(** ** The renderer: the properties of the specification *)

Module output_props.
Import output output_spec output_facts.

Section Renderer.
Context {W : Type} (world : ∀ e : event, W → resp e * W).

Lemma run_perform (e : event) (s : W) :
  run world (perform e) s
  = (Some (world e s).1, [Entry e (world e s).1], (world e s).2).
Proof. simpl. by destruct (world e s). Qed.

Lemma writeTableAsJSON_trace (w : Writer) (headers : list string)
    (rows : list (list string)) (s : W) :
  trace world (writeTableAsJSON w headers rows) s
  = [Encode (marshal (tableData headers rows))].
Proof.
  unfold trace, logOf. rewrite writeTableAsJSON_eq.
  by rewrite (run_perform (Encode _)).
Qed.

Lemma writeASCIITable_trace (w : Writer) (headers : list string)
    (rows : list (list string)) (s : W) :
  trace world (writeASCIITable w headers rows) s
  = Fprintln <$> (renderLine (columnWidths headers rows) headers
                  :: (renderLine (columnWidths headers rows) <$> rows)).
Proof.
  unfold trace, logOf. rewrite writeASCIITable_run. cbn [snd].
  unfold printed. rewrite <- list_fmap_compose. done.
Qed.

(** C7. In table mode, for every header list and row list: there is one
    width per header; the width of a column is the largest length
    among its header and its cells; each of these strings is printed
    whole, followed by spaces only, and is exactly that width wide; the
    cells of a line are joined by two spaces; the header line is made
    the same way as the row lines and is printed first. *)
Theorem table_width_invariant (w : Writer) (headers : list string)
    (rows : list (list string)) (s : W) :
  ∃ widths : list nat,
    length widths = length headers
    ∧ (∀ i wi, widths !! i = Some wi →
         (∃ cell, inColumn headers rows i cell ∧ String.length cell = wi)
         ∧ (∀ cell, inColumn headers rows i cell →
              String.length cell ≤ wi
              ∧ gostd.SprintfPad wi cell
                = cell +:+ gostd.spaces (wi - gostd.RuneCountInString cell)
              ∧ gostd.RuneCountInString (gostd.SprintfPad wi cell) = wi))
    ∧ outcome world (writeASCIITable w headers rows) s = Some None
    ∧ trace world (writeASCIITable w headers rows) s
      = Fprintln
          <$> (gostd.Join (zip_with gostd.SprintfPad widths headers) "  "
               :: ((λ row,
                      gostd.Join (zip_with gostd.SprintfPad widths row) "  ")
                     <$> rows)).
Proof.
  exists (columnWidths headers rows).
  split; [apply columnWidths_length|]. split.
  - intros i wi Hwi. apply columnWidths_spec in Hwi as [Hub Hmax].
    split; [done|]. intros cell Hcell. specialize (Hub cell Hcell).
    split; [done|]. split; [done|].
    by apply gostd_facts.SprintfPad_runes.
  - split.
    + unfold outcome. by rewrite writeASCIITable_run.
    + apply writeASCIITable_trace.
Qed.

(** C9. In table mode a row may have more cells than there are
    headers: the run does not panic, it is the run on the rows cut to
    the number of headers, every width is the length of a header or of a
    cell at a position below the number of headers, and a line holds
    the first cells of its row, as many as the row and the headers both
    have. *)
Theorem table_extra_cells_ignored (w : Writer) (headers : list string)
    (rows : list (list string)) (s : W) :
  outcome world (writeASCIITable w headers rows) s = Some None
  ∧ (run world (writeASCIITable w headers rows) s).1
    = (run world
         (writeASCIITable w headers (take (length headers) <$> rows)) s).1
  ∧ ∃ widths : list nat,
      length widths = length headers
      ∧ (∀ i wi, widths !! i = Some wi →
           i < length headers
           ∧ ∃ cell, inColumn headers rows i cell ∧ String.length cell = wi)
      ∧ trace world (writeASCIITable w headers rows) s
        = Fprintln
            <$> (gostd.Join (zip_with gostd.SprintfPad widths headers) "  "
                 :: ((λ row,
                        gostd.Join
                          (zip_with gostd.SprintfPad widths
                             (take (length headers) row)) "  ")
                       <$> rows))
      ∧ (∀ row, length (zip_with gostd.SprintfPad widths
                          (take (length headers) row))
                = length row `min` length headers).
Proof.
  split; [unfold outcome; by rewrite writeASCIITable_run|]. split.
  - rewrite !writeASCIITable_run, columnWidths_take. do 3 f_equal.
    rewrite <- list_fmap_compose. apply list_fmap_ext. intros _ row _.
    simpl. rewrite <- (columnWidths_length headers rows).
    by rewrite renderLine_take.
  - exists (columnWidths headers rows).
    split; [apply columnWidths_length|]. split; [|split].
    + intros i wi Hwi. split.
      * apply lookup_lt_Some in Hwi. by rewrite columnWidths_length in Hwi.
      * by apply columnWidths_spec in Hwi as [_ Hmax].
    + rewrite writeASCIITable_trace. do 2 f_equal.
      apply list_fmap_ext. intros _ row _.
      rewrite <- (columnWidths_length headers rows).
      symmetry. apply renderLine_take.
    + intros row. rewrite length_zip_with, length_take, columnWidths_length.
      lia.
Qed.

(** C2. With the headers ID and Type and the one row with the cell 1:
    the structured mode writes one array with the one object
    that maps ID to 1 and has no key Type; the table mode does not panic and prints the header
    line and the row line, in which the cell is padded to the width of
    its column and nothing stands in the second column. In general the
    structured mode writes one document, [null] without rows and
    otherwise an array with one object per row; the keys of the object
    of a row are exactly the headers that have a cell in the row, and
    each value is the cell under a header of that name. *)
Theorem short_row_rendering (s : W) :
  (trace world
     (WriteTable (NewWriter FormatJSON) ["ID"; "Type"] [["1"]]) s
   = [Encode (JArray [JObject [("ID", JString "1")]])]
   ∧ outcome world
       (WriteTable (NewWriter FormatTable) ["ID"; "Type"] [["1"]]) s
     = Some None
   ∧ trace world
       (WriteTable (NewWriter FormatTable) ["ID"; "Type"] [["1"]]) s
     = [Fprintln "ID  Type"; Fprintln "1 "])
  ∧ ∀ (headers : list string) (rows : list (list string)),
      ∃ docs : list json,
        trace world (WriteTable (NewWriter FormatJSON) headers rows) s
        = [Encode (match rows with [] => JNull | _ => JArray docs end)]
        ∧ length docs = length rows
        ∧ ∀ r row doc, rows !! r = Some row → docs !! r = Some doc →
            (∀ k, k ∈ jsonKeys doc ↔ k ∈ take (length row) headers)
            ∧ (∀ k j, (k, j) ∈ jsonMembers doc →
                 ∃ i cell, headers !! i = Some k ∧ row !! i = Some cell
                           ∧ j = JString cell).
Proof.
  split.
  - split; [|split].
    + unfold WriteTable. cbn [NewWriter format]. rewrite decide_True by done.
      rewrite writeTableAsJSON_trace. by vm_compute.
    + unfold WriteTable. cbn [NewWriter format].
      rewrite decide_False by done.
      unfold outcome. by rewrite writeASCIITable_run.
    + unfold WriteTable. cbn [NewWriter format].
      rewrite decide_False by done.
      rewrite writeASCIITable_trace. by vm_compute.
  - intros headers rows.
    exists ((λ row, marshal (rowItem headers row)) <$> rows).
    split; [|split].
    + unfold WriteTable. cbn [NewWriter format]. rewrite decide_True by done.
      rewrite writeTableAsJSON_trace. destruct rows as [|row rows]; [done|].
      rewrite tableData_cons. unfold marshal at 1, marshal_slice.
      by rewrite <- list_fmap_compose.
    + by rewrite length_fmap.
    + intros r row doc Hrow Hdoc. rewrite list_lookup_fmap, Hrow in Hdoc.
      injection Hdoc as <-. split.
      * intros k. by rewrite marshal_map_keys, rowItem_keys.
      * intros k j (cell & Hcell & ->)%marshal_map_members.
        apply rowItem_values in Hcell as (i & Hh & Hc). eauto.
Qed.

(** C10. In structured mode an empty row list is written as the
    document [null], the encoding of the slice that was never appended
    to, and not as an empty array. *)
Theorem empty_rows_encode_null (headers : list string) (s : W) :
  trace world (WriteTable (NewWriter FormatJSON) headers []) s
  = [Encode JNull]
  ∧ outcome world (WriteTable (NewWriter FormatJSON) headers []) s
    = Some (world (Encode JNull) s).1
  ∧ JNull ≠ JArray [].
Proof.
  unfold WriteTable. cbn [NewWriter format]. rewrite decide_True by done.
  split; [|split].
  - by rewrite writeTableAsJSON_trace.
  - unfold outcome. rewrite writeTableAsJSON_eq.
    by rewrite (run_perform (Encode _)).
  - done.
Qed.
(** *** The renderer on small tables *)

Example structured_two_rows (s : W) :
  trace world
    (WriteTable (NewWriter FormatJSON) ["ID"; "Type"]
       [["1"; "A"]; ["2"; "CNAME"]]) s
  = [Encode (JArray [JObject [("ID", JString "1"); ("Type", JString "A")];
                     JObject [("ID", JString "2");
                              ("Type", JString "CNAME")]])].
Proof.
  unfold WriteTable. cbn [NewWriter format]. rewrite decide_True by done.
  rewrite writeTableAsJSON_trace. by vm_compute.
Qed.

Example table_two_rows (s : W) :
  trace world
    (WriteTable (NewWriter FormatTable) ["ID"; "Type"]
       [["1"; "A"]; ["2"; "CNAME"]]) s
  = [Fprintln "ID  Type "; Fprintln "1   A    "; Fprintln "2   CNAME"].
Proof.
  unfold WriteTable. cbn [NewWriter format]. rewrite decide_False by done.
  rewrite writeASCIITable_trace. by vm_compute.
Qed.

(** A cell of one rune in two bytes (U+00E9) makes its column two wide, and
    is itself followed by one space only. *)
Example table_two_byte_rune (s : W) :
  trace world
    (WriteTable (NewWriter FormatTable) ["a"; "b"]
       [[String (ascii_of_N 0xC3) (String (ascii_of_N 0xA9) EmptyString);
         "c"]]) s
  = [Fprintln "a   b";
     Fprintln (String (ascii_of_N 0xC3) (String (ascii_of_N 0xA9) "   c"))].
Proof.
  unfold WriteTable. cbn [NewWriter format]. rewrite decide_False by done.
  rewrite writeASCIITable_trace. by vm_compute.
Qed.

End Renderer.

Example FormatTTL_auto : FormatTTL 1 = "Auto".
Proof. reflexivity. Qed.

Example FormatTTL_seconds : FormatTTL 300 = "300".
Proof. reflexivity. Qed.

End output_props.

(** ** The zone resolver *)

Module client_props.
Import client client_spec.

(** *** The shape of a zone identifier *)

Lemma isLowerHex_spec (c : ascii) :
  isLowerHex c = bool_decide (c ∈ lowerHexDigits).
Proof. destruct c as [[] [] [] [] [] [] [] []]; by vm_compute. Qed.

Lemma allLowerHex_spec (s : string) :
  allLowerHex s = true ↔ Forall (λ c, c ∈ lowerHexDigits) (chars s).
Proof.
  unfold chars. induction s as [|c s IH]; simpl.
  - split; [constructor|done].
  - rewrite Forall_cons, <- IH, isLowerHex_spec.
    destruct (bool_decide _) eqn:Hc; simpl.
    + apply bool_decide_eq_true in Hc. tauto.
    + apply bool_decide_eq_false in Hc. split; [done|tauto].
Qed.

Lemma looksLikeZoneID_spec (s : string) :
  looksLikeZoneID s = true
  ↔ String.length s = 32 ∧ Forall (λ c, c ∈ lowerHexDigits) (chars s).
Proof.
  unfold looksLikeZoneID. case_decide as Hlen.
  - split; [done|]. intros [? _]. done.
  - rewrite allLowerHex_spec. tauto.
Qed.

Example looksLikeZoneID_hex :
  looksLikeZoneID "023e105f4ecef8ad9ca31a8372d0c353" = true.
Proof. reflexivity. Qed.

Example looksLikeZoneID_name : looksLikeZoneID "example.com" = false.
Proof. reflexivity. Qed.

Example looksLikeZoneID_upper :
  looksLikeZoneID "023E105F4ECEF8AD9CA31A8372D0C353" = false.
Proof. reflexivity. Qed.

Example looksLikeZoneID_short :
  looksLikeZoneID "023e105f4ecef8ad9ca31a8372d0c35" = false.
Proof. reflexivity. Qed.

(** *** The text of the guidance *)

Lemma guidance_names_scoped_tokens (text : string) :
  gostd.Contains (zoneGuidance +:+ text)
    "API token is scoped to specific zones" = true.
Proof. apply gostd_facts.Contains_append_l. by vm_compute. Qed.

Lemma guidance_names_identifier (text : string) :
  gostd.Contains (zoneGuidance +:+ text) "Use the zone ID directly" = true.
Proof. apply gostd_facts.Contains_append_l. by vm_compute. Qed.

Lemma guidance_keeps_error (text : string) :
  gostd.Contains (zoneGuidance +:+ text) text = true.
Proof.
  apply gostd_facts.Contains_append_r, gostd_facts.Contains_spec.
  exists EmptyString, EmptyString. simpl.
  by rewrite gostd_facts.append_nil_r.
Qed.

Lemma guidance_not_alone (text : string) : zoneGuidance +:+ text ≠ text.
Proof.
  intros Heq. apply (f_equal String.length) in Heq.
  rewrite gostd_facts.length_append in Heq.
  assert (0 < String.length zoneGuidance) by (vm_compute; lia). lia.
Qed.

Section Resolver.
Context (ext : Externals).
Context {W : Type} (world : ∀ e : event, W → resp e * W).

(** *** How an error is classified *)

Lemma isPermissionError_markers (err : error) :
  isPermissionError ext (Some err) = true
  ↔ ∃ marker, marker ∈ permissionMarkers
      ∧ gostd.Contains
          (gostd.ToLower (unicodeLower ext) (Error err)) marker = true.
Proof.
  unfold isPermissionError, permissionMarkers.
  rewrite !orb_true_iff. split.
  - intros [[[H|H]|H]|H]; eexists; (split; [|exact H]);
      repeat (apply elem_of_cons; (by left) || right).
  - intros (marker & Hin & H).
    repeat (apply elem_of_cons in Hin as [->|Hin]; [tauto|]).
    by apply elem_of_nil in Hin.
Qed.

(** *** The runs of the resolver *)

Lemma zoneByName_run (c : Client) (nameOrID : string) (s : W) :
  run world (zoneByName ext c nameOrID) s
  = let r : result (list cloudflare.Zone) :=
      (world (Call (cloudflare.ListZones [nameOrID])) s).1 in
    (Some (match r with
           | Err err =>
               if isPermissionError ext (Some err)
               then Err (Errorf_w zoneGuidance err)
               else Err err
           | Ok [] => Err (Errorf_s "zone not found: " nameOrID)
           | Ok (z :: _) => Ok (toZone z)
           end),
     [Entry (Call (cloudflare.ListZones [nameOrID])) r],
     (world (Call (cloudflare.ListZones [nameOrID])) s).2).
Proof.
  unfold zoneByName. cbn [bind perform run].
  destruct (world (Call (cloudflare.ListZones [nameOrID])) s) as [r s1].
  cbn [fst snd]. cbn in r. destruct r as [[|z zones]|err].
  - by rewrite decide_True.
  - by rewrite decide_False.
  - by destruct (isPermissionError ext (Some err)).
Qed.

Lemma GetZone_run (c : Client) (nameOrID : string) (s : W) :
  run world (GetZone ext c nameOrID) s
  = if looksLikeZoneID nameOrID then
      let r : result cloudflare.Zone :=
        (world (Call (cloudflare.ZoneDetails nameOrID)) s).1 in
      let s1 := (world (Call (cloudflare.ZoneDetails nameOrID)) s).2 in
      match r with
      | Ok zone =>
          (Some (Ok (toZone zone)),
           [Entry (Call (cloudflare.ZoneDetails nameOrID)) r], s1)
      | Err _ =>
          let '(a, log, s2) := run world (zoneByName ext c nameOrID) s1 in
          (a, Entry (Call (cloudflare.ZoneDetails nameOrID)) r :: log, s2)
      end
    else run world (zoneByName ext c nameOrID) s.
Proof.
  unfold GetZone. destruct (looksLikeZoneID nameOrID); [|done].
  cbn [bind perform run].
  destruct (world (Call (cloudflare.ZoneDetails nameOrID)) s) as [r s1].
  cbn [fst snd]. cbn in r. by destruct r.
Qed.

(** The entries of a run of [GetZone] that hold a [ListZones] reply:
    only the name lookup, whose reply decides the result. *)
Lemma GetZone_name_lookup (c : Client) (nameOrID : string) (s : W)
    (en : entry) (r : result (list cloudflare.Zone)) :
  en ∈ logOf world (GetZone ext c nameOrID) s →
  replyListZones en = Some r →
  outcome world (GetZone ext c nameOrID) s
  = Some (match r with
          | Err err =>
              if isPermissionError ext (Some err)
              then Err (Errorf_w zoneGuidance err)
              else Err err
          | Ok [] => Err (Errorf_s "zone not found: " nameOrID)
          | Ok (z :: _) => Ok (toZone z)
          end).
Proof.
  unfold logOf, outcome. rewrite GetZone_run.
  destruct (looksLikeZoneID nameOrID).
  - cbn zeta.
    destruct (world (Call (cloudflare.ZoneDetails nameOrID)) s) as [r1 s1].
    cbn [fst snd]. cbn in r1. destruct r1 as [zone|e1].
    + cbn [fst snd]. intros ->%list_elem_of_singleton. done.
    + rewrite zoneByName_run. cbn [fst snd].
      intros [->|Hin]%elem_of_cons; [done|].
      apply list_elem_of_singleton in Hin as ->. cbn.
      by intros [= <-].
  - rewrite zoneByName_run. cbn [fst snd].
    intros ->%list_elem_of_singleton. cbn. by intros [= <-].
Qed.

(** C4. The identifier is tried first exactly for an input of 32
    characters, all of them among 0-9 and a-f; any other input goes
    to the name lookup at once; and an identifier that is found is
    returned with no name lookup. *)
Theorem zone_fast_path (c : Client) (nameOrID : string) (s : W) :
  (looksLikeZoneID nameOrID = true
   ↔ String.length nameOrID = 32
     ∧ Forall (λ ch, ch ∈ lowerHexDigits) (chars nameOrID))
  ∧ head (calls (trace world (GetZone ext c nameOrID) s))
    = Some (if looksLikeZoneID nameOrID
            then cloudflare.ZoneDetails nameOrID
            else cloudflare.ListZones [nameOrID])
  ∧ ∀ zone : cloudflare.Zone,
      looksLikeZoneID nameOrID = true →
      (world (Call (cloudflare.ZoneDetails nameOrID)) s).1 = Ok zone →
      outcome world (GetZone ext c nameOrID) s = Some (Ok (toZone zone))
      ∧ trace world (GetZone ext c nameOrID) s
        = [Call (cloudflare.ZoneDetails nameOrID)].
Proof.
  split; [apply looksLikeZoneID_spec|].
  unfold trace, logOf, outcome. rewrite GetZone_run. split.
  - destruct (looksLikeZoneID nameOrID).
    + cbn zeta.
      destruct (world (Call (cloudflare.ZoneDetails nameOrID)) s)
        as [r1 s1].
      cbn [fst snd]. cbn in r1. destruct r1 as [zone|e1]; [done|].
      by rewrite zoneByName_run.
    + by rewrite zoneByName_run.
  - intros zone -> Hzone. cbn zeta.
    destruct (world (Call (cloudflare.ZoneDetails nameOrID)) s) as [r1 s1].
    cbn [fst snd] in *. cbn in r1. by subst r1.
Qed.

(** C5. When the resolver gets the provider's answer to the lookup by
    name: without zones, the result is the error that the zone was not
    found, with the input in its text; with zones, the result is the
    first of them. *)
Theorem zone_name_lookup (c : Client) (nameOrID : string) (s : W)
    (zones : list cloudflare.Zone) :
  Entry (Call (cloudflare.ListZones [nameOrID])) (Ok zones)
    ∈ logOf world (GetZone ext c nameOrID) s →
  match zones with
  | [] =>
      ∃ err, outcome world (GetZone ext c nameOrID) s = Some (Err err)
             ∧ Error err = "zone not found: " +:+ nameOrID
  | zone :: _ =>
      outcome world (GetZone ext c nameOrID) s = Some (Ok (toZone zone))
  end.
Proof.
  intros Hin.
  pose proof (GetZone_name_lookup c nameOrID s _ (Ok zones) Hin eq_refl)
    as Hout.
  destruct zones as [|zone zones]; [|done]. eauto.
Qed.

(** C3. When the lookup by name fails: an error whose text holds one of
    the markers permission, unauthorized, forbidden or 403, in any
    case of its letters, is a permission error, and the resolver
    returns an error that wraps it and whose text is the guidance (the
    token is scoped to specific zones; use the zone ID directly)
    followed by the provider's text; any other error is returned as it
    came. *)
Theorem zone_permission_guidance (c : Client) (nameOrID : string) (s : W)
    (err : error) :
  Entry (Call (cloudflare.ListZones [nameOrID])) (Err err)
    ∈ logOf world (GetZone ext c nameOrID) s →
  (isPermissionError ext (Some err) = true
   ↔ ∃ marker, marker ∈ permissionMarkers
       ∧ gostd.Contains
           (gostd.ToLower (unicodeLower ext) (Error err)) marker = true)
  ∧ (gostd.isASCII (Error err) = true →
     (isPermissionError ext (Some err) = true
      ↔ ∃ marker before found after,
          marker ∈ permissionMarkers
          ∧ Error err = before +:+ found +:+ after
          ∧ gostd.lowerBytes found = marker))
  ∧ if isPermissionError ext (Some err) then
      ∃ e, outcome world (GetZone ext c nameOrID) s = Some (Err e)
           ∧ e = wrapError (zoneGuidance +:+ Error err) err
           ∧ gostd.Contains (Error e)
               "API token is scoped to specific zones" = true
           ∧ gostd.Contains (Error e) "Use the zone ID directly" = true
           ∧ gostd.Contains (Error e) (Error err) = true
           ∧ Error e ≠ Error err
    else outcome world (GetZone ext c nameOrID) s = Some (Err err).
Proof.
  intros Hin.
  pose proof (GetZone_name_lookup c nameOrID s _ (Err err) Hin eq_refl)
    as Hout.
  split; [apply isPermissionError_markers|]. split.
  - intros Hascii. rewrite isPermissionError_markers.
    split.
    + intros (marker & Hm & Hc).
      apply gostd_facts.Contains_ToLower_ascii in Hc
        as (before & found & after & ? & ?); [|done].
      by exists marker, before, found, after.
    + intros (marker & before & found & after & Hm & Heq & Hlow).
      exists marker. split; [done|].
      apply gostd_facts.Contains_ToLower_ascii; [done|].
      by exists before, found, after.
  - cbn beta iota in Hout.
    destruct (isPermissionError ext (Some err)); [|exact Hout].
    eexists. split; [exact Hout|]. split; [done|].
    cbn [Errorf_w Error].
    auto using guidance_names_scoped_tokens, guidance_names_identifier,
      guidance_keeps_error, guidance_not_alone.
Qed.
End Resolver.

(** The identifier of the example zone is fetched directly, and its
    name is never looked up. *)
Lemma zone_fast_path_witness :
  looksLikeZoneID example.zoneID = true
  ∧ outcome example.provider
      (GetZone example.externals mkClient example.zoneID) tt
    = Some (Ok (toZone example.zone))
  ∧ trace example.provider
      (GetZone example.externals mkClient example.zoneID) tt
    = [Call (cloudflare.ZoneDetails example.zoneID)].
Proof.
  split; [reflexivity|].
  exact (proj2 (proj2 (zone_fast_path example.externals example.provider
                         mkClient example.zoneID tt))
           example.zone eq_refl eq_refl).
Defined.

(** The provider finds the zone by its name: the first zone it returns
    is the result. *)
Lemma zone_name_lookup_witness :
  Entry (Call (cloudflare.ListZones ["example.com"])) (Ok [example.zone])
    ∈ logOf example.provider
        (GetZone example.externals mkClient "example.com") tt
  ∧ outcome example.provider
      (GetZone example.externals mkClient "example.com") tt
    = Some (Ok (toZone example.zone)).
Proof.
  assert (Entry (Call (cloudflare.ListZones ["example.com"]))
            (Ok [example.zone])
          ∈ logOf example.provider
              (GetZone example.externals mkClient "example.com") tt) as Hin.
  { vm_compute. apply list_elem_of_here. }
  split; [exact Hin|].
  exact (zone_name_lookup example.externals example.provider mkClient
           "example.com" tt [example.zone] Hin).
Defined.

(** Behind a scoped token the lookup by name is refused with a 403, and
    the resolver answers with the guidance. *)
Lemma zone_permission_guidance_witness :
  Entry (Call (cloudflare.ListZones ["example.com"])) (Err example.forbidden)
    ∈ logOf example.scopedProvider
        (GetZone example.externals mkClient "example.com") tt
  ∧ isPermissionError example.externals (Some example.forbidden) = true
  ∧ outcome example.scopedProvider
      (GetZone example.externals mkClient "example.com") tt
    = Some (Err (wrapError (zoneGuidance +:+ Error example.forbidden)
                   example.forbidden)).
Proof.
  assert (Entry (Call (cloudflare.ListZones ["example.com"]))
            (Err example.forbidden)
          ∈ logOf example.scopedProvider
              (GetZone example.externals mkClient "example.com") tt) as Hin.
  { vm_compute. apply list_elem_of_here. }
  split; [exact Hin|]. split; [reflexivity|].
  pose proof (zone_permission_guidance example.externals
                example.scopedProvider mkClient "example.com" tt
                example.forbidden Hin) as (_ & _ & H).
  change (isPermissionError example.externals (Some example.forbidden))
    with true in H.
  destruct H as (e & Hout & -> & _). exact Hout.
Defined.

End client_props.

(** ** The record commands *)

Module cmd_props.
Import cmd.

(** A command that stops before it calls the provider, and one that stops
    once the zone is resolved. *)
Local Ltac stops_at_once :=
  exists [], []; by repeat split; [constructor|left].
Local Ltac stops_after_zone :=
  exists []; cbn [index lookup list_lookup bind run fst snd];
  by repeat split; [|left].

Section Commands.
Context (ext : Externals) (env : Env).
Context {W : Type} (world : ∀ e : event, W → resp e * W).

(** *** The stages of a command *)

Lemma GetZone_zone_calls (c : client.Client) (nameOrID : string) (s : W) :
  Forall (λ en, isZoneCall (eventOf en) = true)
    (logOf world (client.GetZone ext c nameOrID) s)
  ∧ is_Some (outcome world (client.GetZone ext c nameOrID) s).
Proof.
  unfold logOf, outcome. rewrite client_props.GetZone_run.
  destruct (client.looksLikeZoneID nameOrID).
  - cbn zeta.
    destruct (world (Call (cloudflare.ZoneDetails nameOrID)) s) as [r1 s1].
    cbn [fst snd]. cbn in r1. destruct r1 as [zone|e1].
    + split; [by repeat constructor|by eexists].
    + rewrite client_props.zoneByName_run.
      split; [by repeat constructor|by eexists].
  - rewrite client_props.zoneByName_run.
    split; [by repeat constructor|by eexists].
Qed.

(** Resolving the zone: only zone calls, and a zone ID or an error. *)
Lemma resolveZone_run (c : client.Client) (nameOrID : string) (s : W) :
  ∃ (r : result string) (zlog : list entry) (s1 : W),
    run world (resolveZone ext c nameOrID) s = (Some r, zlog, s1)
    ∧ Forall (λ en, isZoneCall (eventOf en) = true) zlog.
Proof.
  unfold resolveZone, client.ResolveZoneID. rewrite run_bind.
  pose proof (GetZone_zone_calls c nameOrID s) as [Hlog [r Hout]].
  unfold logOf, outcome in *.
  destruct (run world (client.GetZone ext c nameOrID) s) as [[a zlog] s1].
  cbn [fst snd] in *. subst a.
  destruct r as [zone|err]; cbn [run];
    rewrite app_nil_r; eauto.
Qed.

(** The renderer calls nothing. *)
Lemma WriteSuccess_calls (msg : string) (s : W) :
  calls (trace world (output.WriteSuccess (out env) msg) s) = []
  ∧ outcome world (output.WriteSuccess (out env) msg) s = Some tt.
Proof.
  unfold output.WriteSuccess, trace, logOf, outcome. case_decide.
  - unfold output.WriteJSON. cbn [bind perform run].
    by destruct (world (Encode _) s).
  - cbn [perform run]. by destruct (world (Fprintln msg) s) as [[] ?].
Qed.

Lemma WriteTable_calls (headers : list string) (rows : list (list string))
    (s : W) :
  calls (trace world (output.WriteTable (out env) headers rows) s) = []
  ∧ is_Some (outcome world (output.WriteTable (out env) headers rows) s).
Proof.
  unfold output.WriteTable. case_decide.
  - rewrite output_props.writeTableAsJSON_trace. split; [done|].
    unfold outcome. rewrite output_facts.writeTableAsJSON_eq.
    rewrite (output_props.run_perform world (Encode _)). by eexists.
  - rewrite output_props.writeASCIITable_trace. split.
    + unfold calls. generalize (output_spec.renderLine
        (output_spec.columnWidths headers rows) headers
        :: (output_spec.renderLine
              (output_spec.columnWidths headers rows) <$> rows)).
      intros lines. by induction lines.
    + unfold outcome. rewrite output_facts.writeASCIITable_run.
      by eexists.
Qed.

Lemma trace_bind {A B} (p : prog A) (f : A → prog B) (s : W) :
  trace world (bind p f) s
  = trace world p s
    ++ match run world p s with
       | (Some x, _, s1) => trace world (f x) s1
       | (None, _, _) => []
       end.
Proof.
  unfold trace, logOf. rewrite run_bind.
  destruct (run world p s) as [[[x|] log] s1]; cbn [fst snd].
  - destruct (run world (f x) s1) as [[b log2] s2]. cbn [fst snd].
    by rewrite fmap_app.
  - by rewrite app_nil_r.
Qed.

Lemma outcome_bind {A B} (p : prog A) (f : A → prog B) (s : W) :
  outcome world (bind p f) s
  = match run world p s with
    | (Some x, _, s1) => outcome world (f x) s1
    | (None, _, _) => None
    end.
Proof.
  unfold outcome. rewrite run_bind.
  destruct (run world p s) as [[[x|] log] s1]; cbn [fst snd]; [|done].
  by destruct (run world (f x) s1) as [[b log2] s2].
Qed.

Lemma writeRecord_calls (verb : string) (record : client.DNSRecord) (s : W) :
  calls (trace world (writeRecord env verb record) s) = [].
Proof.
  unfold writeRecord. case_decide.
  - unfold output.WriteJSON, trace, logOf. cbn [perform run].
    by destruct (world (Encode _) s).
  - rewrite trace_bind. unfold calls. rewrite omap_app.
    pose proof (WriteSuccess_calls (verb +:+ client.ID record) s)
      as [Hc Ho].
    unfold calls in Hc. rewrite Hc. unfold outcome in Ho.
    destruct (run world (output.WriteSuccess _ _) s) as [[a log] s1].
    cbn [fst snd] in Ho. subst a.
    apply WriteTable_calls.
Qed.

(** *** The log of [update] *)

Lemma dnsUpdateCmd_log (fl : Flags) (args : list string) (s : W) :
  ∃ zlog rest : list entry,
    logOf world (dnsUpdateCmd ext env fl args) s = zlog ++ rest
    ∧ Forall (λ en, isZoneCall (eventOf en) = true) zlog
    ∧ (rest = []
       ∨ ∃ (zid rid : string) (gr : result cloudflare.DNSRecord),
           args !! 1 = Some rid
           ∧ (rest = [Entry (Call (cloudflare.GetDNSRecord zid rid)) gr]
              ∨ ∃ existing params
                  (ur : result cloudflare.DNSRecord) (olog : list entry),
                  gr = Ok existing
                  ∧ updateParams fl (client.toDNSRecord existing)
                    = Ok params
                  ∧ rest
                    = Entry (Call (cloudflare.GetDNSRecord zid rid)) gr
                      :: Entry (Call (cloudflare.UpdateDNSRecord zid
                                        (cmd_spec.sentUpdate rid params))) ur
                      :: olog
                  ∧ calls (eventOf <$> olog) = [])).
Proof.
  unfold dnsUpdateCmd, logOf.
  destruct (client.New ext (cfg env)) as [c|err].
  2:{ stops_at_once. }
  destruct args as [|zone args].
  { stops_at_once. }
  cbn [index lookup list_lookup bind]. rewrite run_bind.
  destruct (resolveZone_run c zone s) as (r & zlog & s1 & -> & Hz).
  exists zlog. destruct r as [zid|err].
  2:{ stops_after_zone. }
  destruct args as [|rid args].
  { stops_after_zone. }
  cbn [index lookup list_lookup bind].
  unfold client.GetDNSRecord. cbn [bind perform run].
  destruct (world (Call (cloudflare.GetDNSRecord zid rid)) s1) as [gr s2].
  cbn in gr. destruct gr as [existing|gerr].
  2:{ eexists. cbn [run fst snd]. split; [done|]. split; [done|].
      right. exists zid, rid, (Err gerr). split; [done|]. by left. }
  cbn [bind].
  destruct (updateParams fl (client.toDNSRecord existing))
    as [params|perr] eqn:Hparams.
  2:{ eexists. cbn [run fst snd]. split; [done|]. split; [done|].
      right. exists zid, rid, (Ok existing). split; [done|]. by left. }
  unfold client.UpdateDNSRecord. cbn [bind perform run].
  destruct (world (Call (cloudflare.UpdateDNSRecord zid _)) s2) as [ur s3].
  cbn in ur.
  assert (∃ olog, calls (eventOf <$> olog) = []
            ∧ (run world
                 (bind match ur with
                       | Ok r => Ret (Ok (client.toDNSRecord r))
                       | Err err =>
                           Ret (Err (Errorf_w
                                  "failed to update DNS record: " err))
                       end
                    (λ r, match r with
                          | Ok record =>
                              writeRecord env "Updated DNS record: " record
                          | Err err => Ret (Some err)
                          end)) s3).1.2 = olog) as (olog & Holog & Hrun).
  { destruct ur as [rec|uerr]; cbn [bind].
    - eexists. split; [|done].
      apply (writeRecord_calls "Updated DNS record: "
               (client.toDNSRecord rec) s3).
    - by exists []. }
  destruct (run world _ s3) as [[a olog'] s4]. cbn [fst snd] in *.
  subst olog'. eexists. split; [done|]. split; [done|].
  right. exists zid, rid, (Ok existing). split; [done|]. right.
  by exists existing, params, ur, olog.
Qed.

Lemma updateParams_spec (fl : Flags) (existing : client.DNSRecord)
    (params : client.UpdateDNSRecordParams) :
  updateParams fl existing = Ok params →
  params
  = {| client.Update_Type := default (client.Type_ existing) (flag_type fl);
       client.Update_Name := default (client.Name existing) (flag_name fl);
       client.Update_Content :=
         default (client.Content existing) (flag_content fl);
       client.Update_TTL := flag_ttl fl;
       client.Update_Proxied :=
         (λ v, bool_decide (default "true" v = "true")) <$> flag_proxied fl;
       client.Update_Priority := flag_priority fl;
       client.Update_Comment := None |}
  ∧ ∀ v, flag_proxied fl = Some (Some v) → v = "true" ∨ v = "false".
Proof.
  destruct fl as [[t|] [n|] [c|] [ttl|] [[v|]|] [pr|]];
    unfold updateParams, Changed, dnsType, dnsName, dnsContent, dnsTTL,
      dnsProxied, dnsPriority;
    cbn [flag_type flag_name flag_content flag_ttl flag_proxied
         flag_priority given default];
    repeat (rewrite decide_True by done || rewrite decide_False by done);
    cbn [fmap option_fmap option_map default];
    try (destruct (bool_decide (v ≠ "true")) eqn:Ht;
         destruct (bool_decide (v ≠ "false")) eqn:Hf; cbn [andb];
         try apply bool_decide_eq_false in Ht;
         try apply bool_decide_eq_false in Hf;
         try apply dec_stable in Ht; try apply dec_stable in Hf);
    intros [= <-]; (split; [done|]); intros v' [=]; subst; auto.
Qed.

Lemma not_a_call (events : list event) (e : event) (c : cloudflare.call) :
  calls events = [] → e ∈ events → e ≠ Call c.
Proof.
  intros Hcalls Hin ->.
  assert (c ∈ calls events) as Hc.
  { unfold calls. apply list_elem_of_omap. by exists (Call c). }
  rewrite Hcalls in Hc. by apply elem_of_nil in Hc.
Qed.

(** C1. Whenever [update] sends an update to the provider, the call
    just before it fetched the record under the same zone and
    identifier, and every field of the update comes from that record
    and the flags: type, name and content are the flag's value when the
    flag was given (also when it was given empty) and the fetched value
    otherwise; TTL, proxied and priority carry the flag's value when the
    flag was given and are left out of the update otherwise (the TTL
    as the zero of its type); the comment is never part of it. With only
    the content given, the update carries the fetched type and name and
    leaves proxied and priority out, so that they stay as fetched. *)
Theorem update_merge (fl : Flags) (args : list string) (s : W)
    (i : nat) (zid : string) (p : cloudflare.UpdateDNSRecordParams)
    (r : result cloudflare.DNSRecord) :
  logOf world (dnsUpdateCmd ext env fl args) s !! i
  = Some (Entry (Call (cloudflare.UpdateDNSRecord zid p)) r) →
  ∃ (j : nat) (rid : string) (existing : cloudflare.DNSRecord),
    i = S j
    ∧ args !! 1 = Some rid
    ∧ logOf world (dnsUpdateCmd ext env fl args) s !! j
      = Some (Entry (Call (cloudflare.GetDNSRecord zid rid)) (Ok existing))
    ∧ p = {| cloudflare.Update_ID := rid;
             cloudflare.Update_Type :=
               default (cloudflare.Rec_Type existing) (flag_type fl);
             cloudflare.Update_Name :=
               default (cloudflare.Rec_Name existing) (flag_name fl);
             cloudflare.Update_Content :=
               default (cloudflare.Rec_Content existing) (flag_content fl);
             cloudflare.Update_TTL := default 0%Z (flag_ttl fl);
             cloudflare.Update_Proxied :=
               (λ v, bool_decide (default "true" v = "true"))
                 <$> flag_proxied fl;
             cloudflare.Update_Priority := flag_priority fl;
             cloudflare.Update_Comment := None |}
    ∧ (∀ v, flag_proxied fl = Some (Some v) → v = "true" ∨ v = "false")
    ∧ (flag_type fl = None → flag_name fl = None →
       flag_proxied fl = None → flag_priority fl = None →
       cloudflare.Update_Type p = cloudflare.Rec_Type existing
       ∧ cloudflare.Update_Name p = cloudflare.Rec_Name existing
       ∧ cloudflare.Update_Proxied p = None
       ∧ cloudflare.Update_Priority p = None).
Proof.
  destruct (dnsUpdateCmd_log fl args s)
    as (zlog & rest & -> & Hz & Hrest).
  intros [Hi|[Hlen Hi]]%lookup_app_Some.
  { eapply Forall_lookup_1 in Hz; [|exact Hi]. done. }
  destruct Hrest as [->|(zid' & rid & gr & Hrid & Hrest)]; [done|].
  destruct Hrest
    as [->|(existing & params & ur & olog & -> & Hparams & -> & Holog)].
  { destruct (i - length zlog) as [|k]; [|done].
    apply (f_equal (fmap eventOf)) in Hi. done. }
  destruct (i - length zlog) as [|[|k]] eqn:Hk.
  { apply (f_equal (fmap eventOf)) in Hi. done. }
  2:{ cbn in Hi. apply list_elem_of_lookup_2 in Hi.
      apply (list_elem_of_fmap_2 eventOf) in Hi.
      by eapply not_a_call in Hi. }
  apply (f_equal (fmap eventOf)) in Hi. cbn in Hi.
  injection Hi as -> <-.
  apply updateParams_spec in Hparams as [-> Hproxied].
  exists (length zlog), rid, existing.
  split; [lia|]. split; [done|]. split.
  { rewrite lookup_app_r by lia. by rewrite Nat.sub_diag. }
  split; [done|]. split; [done|].
  by intros -> -> -> ->.
Qed.

(** *** The log of [list] *)

Lemma dnsListCmd_log (fl : Flags) (args : list string) (s : W) :
  ∃ zlog rest : list entry,
    logOf world (dnsListCmd ext env fl args) s = zlog ++ rest
    ∧ Forall (λ en, isZoneCall (eventOf en) = true) zlog
    ∧ (rest = []
       ∨ ∃ (zid : string) (params : cloudflare.ListDNSRecordsParams)
           (lr : result (list cloudflare.DNSRecord)) (olog : list entry),
           rest = Entry (Call (cloudflare.ListDNSRecords zid params)) lr
                  :: olog
           ∧ calls (eventOf <$> olog) = []
           ∧ (lr = Ok [] →
              outcome world (dnsListCmd ext env fl args) s = Some None
              ∧ eventOf <$> olog = [cmd_spec.statusEvent (out env)
                                      "No DNS records found"])).
Proof.
  unfold dnsListCmd, logOf, outcome.
  destruct (client.New ext (cfg env)) as [c|err].
  2:{ stops_at_once. }
  destruct args as [|zone args].
  { stops_at_once. }
  cbn [index lookup list_lookup bind]. rewrite run_bind.
  destruct (resolveZone_run c zone s) as (r & zlog & s1 & -> & Hz).
  exists zlog. destruct r as [zid|err].
  2:{ stops_after_zone. }
  unfold client.ListDNSRecords. cbn [bind perform run].
  destruct (world (Call (cloudflare.ListDNSRecords zid _)) s1) as [lr s2].
  cbn in lr. destruct lr as [[|rec records]|lerr].
  - cbn [bind fmap list_fmap length]. rewrite decide_True by done.
    rewrite run_bind.
    pose proof (WriteSuccess_calls "No DNS records found" s2)
      as [Hc Ho].
    unfold trace, logOf, outcome in Hc, Ho.
    assert (eventOf
              <$> (run world
                     (output.WriteSuccess (out env) "No DNS records found")
                     s2).1.2
            = [cmd_spec.statusEvent (out env) "No DNS records found"])
      as Hev.
    { unfold output.WriteSuccess, cmd_spec.statusEvent. case_decide.
      - unfold output.WriteJSON. cbn [bind perform run].
        by destruct (world (Encode _) s2).
      - cbn [perform run]. by destruct (world (Fprintln _) s2). }
    destruct (run world (output.WriteSuccess _ _) s2) as [[a olog] s3].
    cbn [fst snd] in *. subst a. cbn [run fst snd].
    eexists. split; [done|]. split; [done|]. right.
    eexists _, _, (Ok []), _. split; [done|].
    rewrite !app_nil_r. by repeat split.
  - cbn [bind]. rewrite decide_False by done.
    pose proof (WriteTable_calls recordHeaders
                  (recordRow <$> (client.toDNSRecord
                                    <$> rec :: records)) s2) as [Hc _].
    unfold writeDNSRecordTable, trace, logOf in *.
    destruct (run world (output.WriteTable _ _ _) s2) as [[a olog] s3].
    cbn [fst snd] in *.
    eexists. split; [done|]. split; [done|]. right.
    eexists _, _, (Ok (rec :: records)), _. split; [done|].
    split; [done|]. done.
  - cbn [bind run fst snd].
    eexists. split; [done|]. split; [done|]. right.
    eexists _, _, (Err lerr), []. split; [done|]. split; [done|]. done.
Qed.

(** C8. When the provider answers the list call of [list] with no
    record, the command returns no error, and the one thing it does
    after the call is to write the status message: as a line in table
    mode, as a status document in structured mode. *)
Theorem empty_list_is_success (fl : Flags) (args : list string) (s : W)
    (zid : string) (params : cloudflare.ListDNSRecordsParams) :
  Entry (Call (cloudflare.ListDNSRecords zid params)) (Ok [])
    ∈ logOf world (dnsListCmd ext env fl args) s →
  outcome world (dnsListCmd ext env fl args) s = Some None
  ∧ ∃ before : list event,
      Forall (λ e, isZoneCall e = true) before
      ∧ trace world (dnsListCmd ext env fl args) s
        = before
          ++ [Call (cloudflare.ListDNSRecords zid params);
              if decide (output.format (out env) = output.FormatJSON)
              then Encode (JObject
                             [("message", JString "No DNS records found");
                              ("status", JString "success")])
              else Fprintln "No DNS records found"].
Proof.
  unfold trace.
  destruct (dnsListCmd_log fl args s) as (zlog & rest & -> & Hz & Hrest).
  intros [Hin|Hin]%elem_of_app.
  { eapply Forall_forall in Hz; [|exact Hin]. done. }
  destruct Hrest as [->|(zid' & params' & lr & olog & -> & Hc & Hempty)].
  { by apply elem_of_nil in Hin. }
  apply elem_of_cons in Hin as [Heq|Hin].
  2:{ apply (list_elem_of_fmap_2 eventOf) in Hin.
      by eapply not_a_call in Hin. }
  pose proof (f_equal replyRecords Heq) as Hlr. cbn in Hlr.
  injection Hlr as <-.
  apply (f_equal eventOf) in Heq. cbn in Heq. injection Heq as <- <-.
  destruct (Hempty eq_refl) as [Hout Holog].
  split; [done|]. exists (eventOf <$> zlog). split.
  - by apply Forall_fmap.
  - rewrite fmap_app. cbn [fmap list_fmap]. f_equal.
    change (list_fmap entry event eventOf olog) with (eventOf <$> olog).
    rewrite Holog. unfold cmd_spec.statusEvent.
    case_decide; [|done]. by vm_compute.
Qed.

(** *** The log of [create] *)

Lemma dnsCreateCmd_invalid (fl : Flags) (args : list string) (s : W) :
  dnsType fl = EmptyString ∨ dnsName fl = EmptyString
  ∨ dnsContent fl = EmptyString →
  run world (dnsCreateCmd ext env fl args) s
  = (Some (Some (errorString "--type, --name, and --content are required")),
     [], s).
Proof.
  intros Hmissing. unfold dnsCreateCmd.
  assert (bool_decide (dnsType fl = EmptyString)
          || bool_decide (dnsName fl = EmptyString)
          || bool_decide (dnsContent fl = EmptyString) = true) as ->; [|done].
  rewrite !orb_true_iff, !bool_decide_eq_true. tauto.
Qed.

Lemma dnsCreateCmd_log (fl : Flags) (args : list string) (s : W) :
  ∃ zlog rest : list entry,
    logOf world (dnsCreateCmd ext env fl args) s = zlog ++ rest
    ∧ Forall (λ en, isZoneCall (eventOf en) = true) zlog
    ∧ (rest = []
       ∨ ∃ (zid : string) (cr : result cloudflare.DNSRecord)
           (olog : list entry),
           rest = Entry (Call (cloudflare.CreateDNSRecord zid
                                 (cmd_spec.sentCreate fl))) cr
                  :: olog
           ∧ calls (eventOf <$> olog) = []
           ∧ dnsType fl ≠ EmptyString ∧ dnsName fl ≠ EmptyString
           ∧ dnsContent fl ≠ EmptyString
           ∧ ∀ v, flag_proxied fl = Some (Some v) →
                  v = EmptyString ∨ v = "true" ∨ v = "false").
Proof.
  unfold dnsCreateCmd, logOf.
  destruct (bool_decide (dnsType fl = EmptyString)) eqn:Ht.
  { stops_at_once. }
  destruct (bool_decide (dnsName fl = EmptyString)) eqn:Hn.
  { stops_at_once. }
  destruct (bool_decide (dnsContent fl = EmptyString)) eqn:Hc.
  { stops_at_once. }
  apply bool_decide_eq_false in Ht, Hn, Hc. cbn [orb].
  assert ((∃ proxied : bool,
            (if decide (dnsProxied fl ≠ EmptyString) then
               if bool_decide (dnsProxied fl ≠ "true")
                  && bool_decide (dnsProxied fl ≠ "false")
               then Err proxiedError
               else Ok (bool_decide (dnsProxied fl = "true"))
             else Ok false) = Ok proxied
            ∧ proxied = bool_decide (dnsProxied fl = "true")
            ∧ (dnsProxied fl = EmptyString ∨ dnsProxied fl = "true"
               ∨ dnsProxied fl = "false"))
          ∨ (if decide (dnsProxied fl ≠ EmptyString) then
               if bool_decide (dnsProxied fl ≠ "true")
                  && bool_decide (dnsProxied fl ≠ "false")
               then Err proxiedError
               else Ok (bool_decide (dnsProxied fl = "true"))
             else Ok false) = Err proxiedError) as Hparse.
  { case_decide as Hp.
    - destruct (bool_decide (dnsProxied fl ≠ "true")) eqn:H1;
        destruct (bool_decide (dnsProxied fl ≠ "false")) eqn:H2;
        cbn [andb]; [by right|..]; left; eexists; (split; [done|]);
        (split; [done|]);
        try apply bool_decide_eq_false in H1;
        try apply bool_decide_eq_false in H2;
        try apply dec_stable in H1; try apply dec_stable in H2; auto.
    - left. exists false. rewrite Hp.
      split; [done|]. split; [done|]. by left. }
  destruct Hparse as [(proxied & -> & Hproxied & Hvalid)| ->].
  2:{ stops_at_once. }
  destruct (client.New ext (cfg env)) as [c|err].
  2:{ stops_at_once. }
  destruct args as [|zone args].
  { stops_at_once. }
  cbn [index lookup list_lookup bind]. rewrite run_bind.
  destruct (resolveZone_run c zone s) as (r & zlog & s1 & -> & Hz).
  exists zlog. destruct r as [zid|err].
  2:{ stops_after_zone. }
  unfold client.CreateDNSRecord. cbn [bind perform run].
  cbn [client.Create_Type client.Create_Name client.Create_Content
       client.Create_TTL client.Create_Proxied client.Create_Priority
       client.Create_Comment].
  replace {| cloudflare.Create_Type := dnsType fl;
             cloudflare.Create_Name := dnsName fl;
             cloudflare.Create_Content := dnsContent fl;
             cloudflare.Create_TTL := dnsTTL fl;
             cloudflare.Create_Proxied := Some proxied;
             cloudflare.Create_Priority :=
               if decide (0 < dnsPriority fl)%N
               then Some (dnsPriority fl) else None;
             cloudflare.Create_Comment := EmptyString |}
    with (cmd_spec.sentCreate fl).
  2:{ unfold cmd_spec.sentCreate. f_equal.
      - rewrite Hproxied. unfold dnsProxied.
        by destruct (flag_proxied fl) as [[v|]|].
      - unfold dnsPriority.
        destruct (flag_priority fl) as [pr|]; cbn [from_option id];
          [|by rewrite decide_False by lia].
        destruct (decide (pr = 0%N)) as [->|Hpr].
        + by rewrite decide_False by lia.
        + by rewrite decide_True by lia. }
  destruct (world (Call (cloudflare.CreateDNSRecord zid _)) s1) as [cr s2].
  cbn in cr.
  assert (∃ olog, calls (eventOf <$> olog) = []
            ∧ (run world
                 (bind match cr with
                       | Ok r => Ret (Ok (client.toDNSRecord r))
                       | Err err =>
                           Ret (Err (Errorf_w
                                  "failed to create DNS record: " err))
                       end
                    (λ r, match r with
                          | Ok record =>
                              writeRecord env "Created DNS record: " record
                          | Err err => Ret (Some err)
                          end)) s2).1.2 = olog) as (olog & Holog & Hrun).
  { destruct cr as [rec|cerr]; cbn [bind].
    - eexists. split; [|done].
      apply (writeRecord_calls "Created DNS record: "
               (client.toDNSRecord rec) s2).
    - by exists []. }
  destruct (run world _ s2) as [[a olog'] s3]. cbn [fst snd] in *.
  subst olog'. eexists. split; [done|]. split; [done|].
  right. exists zid, cr, olog. split; [done|]. split; [done|].
  split; [done|]. split; [done|]. split; [done|].
  intros v Hv. unfold dnsProxied in Hvalid. by rewrite Hv in Hvalid.
Qed.

(** C6, as the code has it. When type, name or content is missing (not
    given, or given empty), [create] returns the validation error and
    does nothing else: no call, no output. Whenever it sends a create
    request: type, name and content are the flags' values; the TTL is
    the flag's value and 1 when the flag was not given; proxied is false
    when the flag was not given (and true only for the flag without a
    value or with the value true); the priority is left out when the
    flag was not given or was given as 0, and is the flag's value when
    that is above 0. *)
Theorem create_request (fl : Flags) (args : list string) (s : W) :
  (dnsType fl = EmptyString ∨ dnsName fl = EmptyString
   ∨ dnsContent fl = EmptyString →
   outcome world (dnsCreateCmd ext env fl args) s
   = Some (Some (errorString "--type, --name, and --content are required"))
   ∧ logOf world (dnsCreateCmd ext env fl args) s = [])
  ∧ ∀ (i : nat) (zid : string) (p : cloudflare.CreateDNSRecordParams)
      (r : result cloudflare.DNSRecord),
      logOf world (dnsCreateCmd ext env fl args) s !! i
      = Some (Entry (Call (cloudflare.CreateDNSRecord zid p)) r) →
      flag_type fl = Some (cloudflare.Create_Type p)
      ∧ flag_name fl = Some (cloudflare.Create_Name p)
      ∧ flag_content fl = Some (cloudflare.Create_Content p)
      ∧ cloudflare.Create_TTL p = default 1%Z (flag_ttl fl)
      ∧ cloudflare.Create_Proxied p
        = Some (match flag_proxied fl with
                | None => false
                | Some v => bool_decide (default "true" v = "true")
                end)
      ∧ cloudflare.Create_Priority p
        = match flag_priority fl with
          | None => None
          | Some pr => if decide (pr = 0%N) then None else Some pr
          end.
Proof.
  split.
  { intros Hmissing. unfold outcome, logOf.
    by rewrite dnsCreateCmd_invalid. }
  intros i zid p r.
  destruct (dnsCreateCmd_log fl args s) as (zlog & rest & -> & Hz & Hrest).
  intros [Hi|[Hlen Hi]]%lookup_app_Some.
  { eapply Forall_lookup_1 in Hz; [|exact Hi]. done. }
  destruct Hrest
    as [->|(zid' & cr & olog & -> & Holog & Ht & Hn & Hc & _)]; [done|].
  destruct (i - length zlog) as [|k].
  2:{ cbn in Hi. apply list_elem_of_lookup_2 in Hi.
      apply (list_elem_of_fmap_2 eventOf) in Hi.
      by eapply not_a_call in Hi. }
  apply (f_equal (fmap eventOf)) in Hi. cbn in Hi.
  injection Hi as -> <-.
  unfold dnsType, dnsName, dnsContent in *.
  unfold cmd_spec.sentCreate, dnsType, dnsName, dnsContent.
  cbn [cloudflare.Create_Type cloudflare.Create_Name
       cloudflare.Create_Content cloudflare.Create_TTL
       cloudflare.Create_Proxied cloudflare.Create_Priority].
  destruct (flag_type fl), (flag_name fl), (flag_content fl); done.
Qed.
End Commands.


(** [update --content mx2.example.com] on the example record: the third
    event is the update, the fetch is the event before it, and the update
    carries the fetched type and name and neither proxied nor
    priority. *)
Lemma update_merge_witness :
  (∃ r, logOf example.provider
          (dnsUpdateCmd example.externals example.env example.contentOnly
             ["example.com"; example.recordID]) tt !! 2
        = Some (Entry (Call (cloudflare.UpdateDNSRecord example.zoneID
                               example.contentUpdate)) r))
  ∧ ∃ existing,
      logOf example.provider
        (dnsUpdateCmd example.externals example.env example.contentOnly
           ["example.com"; example.recordID]) tt !! 1
      = Some (Entry (Call (cloudflare.GetDNSRecord example.zoneID
                             example.recordID)) (Ok existing))
      ∧ cloudflare.Update_Type example.contentUpdate
        = cloudflare.Rec_Type existing
      ∧ cloudflare.Update_Name example.contentUpdate
        = cloudflare.Rec_Name existing
      ∧ cloudflare.Update_Proxied example.contentUpdate = None
      ∧ cloudflare.Update_Priority example.contentUpdate = None.
Proof.
  assert (∃ r, logOf example.provider
                 (dnsUpdateCmd example.externals example.env
                    example.contentOnly
                    ["example.com"; example.recordID]) tt !! 2
               = Some (Entry (Call (cloudflare.UpdateDNSRecord
                                      example.zoneID
                                      example.contentUpdate)) r))
    as [r Hr].
  { eexists. vm_compute. reflexivity. }
  split; [by exists r|].
  destruct (update_merge example.externals example.env example.provider
              example.contentOnly ["example.com"; example.recordID] tt
              2 example.zoneID example.contentUpdate r Hr)
    as (j & rid & existing & Hj & Hrid & Hget & _ & _ & Honly).
  injection Hj as <-. injection Hrid as <-.
  exists existing. split; [exact Hget|].
  apply Honly; reflexivity.
Defined.

(** [list] without filters on the example zone: the provider has no
    record to return, and the command succeeds. *)
Lemma empty_list_is_success_witness :
  Entry (Call (cloudflare.ListDNSRecords example.zoneID
                 {| cloudflare.List_Type := EmptyString;
                    cloudflare.List_Name := EmptyString |})) (Ok [])
    ∈ logOf example.provider
        (dnsListCmd example.externals example.env example.noFlags
           ["example.com"]) tt
  ∧ outcome example.provider
      (dnsListCmd example.externals example.env example.noFlags
         ["example.com"]) tt
    = Some None.
Proof.
  assert (Entry (Call (cloudflare.ListDNSRecords example.zoneID
                         {| cloudflare.List_Type := EmptyString;
                            cloudflare.List_Name := EmptyString |})) (Ok [])
          ∈ logOf example.provider
              (dnsListCmd example.externals example.env example.noFlags
                 ["example.com"]) tt) as Hin.
  { apply list_elem_of_lookup. exists 1. vm_compute. reflexivity. }
  split; [exact Hin|].
  exact (proj1 (empty_list_is_success example.externals example.env
                  example.provider example.noFlags ["example.com"] tt
                  _ _ Hin)).
Defined.

(** [create] without flags fails the validation; [create] for a mail
    exchanger with the priority 10 sends the priority 10 and the TTL 1. *)
Lemma create_request_witness :
  logOf example.provider
    (dnsCreateCmd example.externals example.env example.noFlags
       ["example.com"]) tt = []
  ∧ ∃ p r,
      logOf example.provider
        (dnsCreateCmd example.externals example.env (example.mx 10)
           ["example.com"]) tt !! 1
      = Some (Entry (Call (cloudflare.CreateDNSRecord example.zoneID p)) r)
      ∧ cloudflare.Create_TTL p = 1%Z
      ∧ cloudflare.Create_Proxied p = Some false
      ∧ cloudflare.Create_Priority p = Some 10%N.
Proof.
  split.
  - apply (create_request example.externals example.env example.provider
             example.noFlags ["example.com"] tt). by left.
  - assert (∃ p r,
              logOf example.provider
                (dnsCreateCmd example.externals example.env (example.mx 10)
                   ["example.com"]) tt !! 1
              = Some (Entry (Call (cloudflare.CreateDNSRecord
                                     example.zoneID p)) r))
      as (p & r & Hp).
    { do 2 eexists. vm_compute. reflexivity. }
    exists p, r. split; [exact Hp|].
    destruct (proj2 (create_request example.externals example.env
                       example.provider (example.mx 10) ["example.com"] tt)
                1 example.zoneID p r Hp)
      as (_ & _ & _ & Httl & Hproxied & Hpriority).
    done.
Defined.

(** [create] for a mail exchanger with the priority given as 0: the
    flag was given, and the request carries no priority. *)
Lemma create_priority_zero_omitted :
  ∃ p r,
    logOf example.provider
      (dnsCreateCmd example.externals example.env (example.mx 0)
         ["example.com"]) tt !! 1
    = Some (Entry (Call (cloudflare.CreateDNSRecord example.zoneID p)) r)
    ∧ flag_priority (example.mx 0) = Some 0%N
    ∧ cloudflare.Create_Priority p = None
    ∧ cloudflare.Create_Priority p ≠ flag_priority (example.mx 0).
Proof. do 2 eexists. vm_compute. by repeat split. Qed.

End cmd_props.

(** ** Credentials, configuration and the choice of the format *)

Module config_props.
Import configload.

(** X1. [getEnv] returns the value of the first of the names whose
    variable is not empty, and the empty string exactly when all of them
    are empty. *)
Theorem getEnv_first_nonempty (Getenv : string → string)
    (names : list string) :
  (getEnv Getenv names = EmptyString
   ↔ Forall (λ name, Getenv name = EmptyString) names)
  ∧ (getEnv Getenv names ≠ EmptyString →
     ∃ i name,
       names !! i = Some name
       ∧ Getenv name = getEnv Getenv names
       ∧ ∀ j earlier, j < i → names !! j = Some earlier →
                      Getenv earlier = EmptyString).
Proof.
  induction names as [|name names [IHempty IHfirst]]; cbn [getEnv].
  - split; [split; [constructor|done]|done].
  - case_decide as Hname.
    + split.
      * split; [done|]. by intros [? _]%Forall_cons.
      * intros _. exists 0, name. split; [done|]. split; [done|].
        intros j earlier Hj. lia.
    + split.
      * rewrite Forall_cons, IHempty. tauto.
      * intros (i & found & Hi & Hfound & Hearlier)%IHfirst.
        exists (S i), found. split; [done|]. split; [done|].
        intros [|j] earlier Hj Hlookup.
        -- by injection Hlookup as <-.
        -- apply (Hearlier j); [lia|done].
Qed.

Lemma getEnv_two (Getenv : string → string) (a b : string) :
  getEnv Getenv [a; b]
  = if decide (Getenv a ≠ EmptyString) then Getenv a else Getenv b.
Proof.
  cbn [getEnv]. case_decide; [done|]. case_decide as Hb; [done|]. done.
Qed.

Section Process.
Context (ext : Externals).
Context (Getenv : string → string) (DefaultConfigPath : string).
Context (readConfig : string → option config.Config).

(** X2. When CLOUDFLARE_API_TOKEN is set, [Load] returns that token
    whatever CF_API_TOKEN and the file hold; the config has credentials,
    its method is the token, and [client.New] builds the client from the
    token alone: it fails exactly when the token constructor does. *)
Theorem Load_token_from_environment (configPath : string) :
  Getenv "CLOUDFLARE_API_TOKEN" ≠ EmptyString →
  let cfg := Load Getenv DefaultConfigPath readConfig configPath in
  config.APIToken cfg = Getenv "CLOUDFLARE_API_TOKEN"
  ∧ config.HasCredentials cfg = true
  ∧ AuthMethod cfg = "API Token"
  ∧ client.New ext cfg
    = match NewWithAPIToken ext (Getenv "CLOUDFLARE_API_TOKEN") with
      | Some err => Err (Errorf_w "failed to create API client: " err)
      | None => Ok client.mkClient
      end.
Proof.
  intros Htoken cfg.
  assert (config.APIToken cfg = Getenv "CLOUDFLARE_API_TOKEN") as Hcfg.
  { unfold cfg, Load. rewrite !getEnv_two.
    rewrite (decide_True _ _ Htoken). rewrite (decide_True _ _ Htoken).
    by repeat case_decide. }
  split; [done|].
  assert (config.HasCredentials cfg = true) as Hhas.
  { unfold config.HasCredentials. rewrite Hcfg.
    by rewrite bool_decide_eq_true_2. }
  split; [done|]. split.
  - unfold AuthMethod. rewrite Hcfg. by rewrite decide_True.
  - unfold client.New. rewrite Hhas. cbn [negb]. rewrite Hcfg.
    by rewrite decide_True.
Qed.

(** X3. The environment only adds to the file: with none of the six
    variables set (or all set empty) [Load] returns what the file holds, and
    the zero config when the file cannot be read or there is no path; and
    the output format always comes from the file. *)
Theorem Load_without_environment (configPath : string) :
  let path :=
    if decide (configPath = EmptyString) then DefaultConfigPath
    else configPath in
  let fromFile :=
    if decide (path = EmptyString) then zero
    else default zero (readConfig path) in
  config.OutputFormat (Load Getenv DefaultConfigPath readConfig configPath)
  = config.OutputFormat fromFile
  ∧ (Forall (λ name, Getenv name = EmptyString)
       ["CLOUDFLARE_API_TOKEN"; "CF_API_TOKEN"; "CLOUDFLARE_API_KEY";
        "CF_API_KEY"; "CLOUDFLARE_API_EMAIL"; "CF_API_EMAIL"] →
     Load Getenv DefaultConfigPath readConfig configPath = fromFile).
Proof.
  intros path fromFile.
  assert ((if decide (path ≠ EmptyString)
           then match readConfig path with
                | Some loaded => loaded
                | None => zero
                end
           else zero) = fromFile) as Hfile.
  { unfold fromFile. destruct (decide (path = EmptyString)) as [->|Hp].
    - by rewrite decide_False by (intros H; by apply H).
    - rewrite decide_True by done. by destruct (readConfig path). }
  unfold Load. fold path. rewrite Hfile. split.
  - by repeat case_decide.
  - intros Hempty. rewrite !getEnv_two.
    repeat (apply Forall_cons in Hempty as [-> Hempty]).
    by rewrite !decide_False by (intros H; by apply H).
Qed.
End Process.

(** X4. [AuthMethod] and [client.New] agree: the method is None exactly
    when the config has no credentials, which is exactly when [New] fails
    for want of credentials; and a token wins over a key and an email in
    both. *)
Theorem AuthMethod_agrees_with_New (ext : Externals) (cfg : config.Config) :
  (AuthMethod cfg = "None" ↔ config.HasCredentials cfg = false)
  ∧ (config.HasCredentials cfg = false
     ↔ client.New ext cfg
       = Err (errorString
                "no credentials configured. Set CLOUDFLARE_API_TOKEN or CLOUDFLARE_API_KEY + CLOUDFLARE_API_EMAIL"))
  ∧ (AuthMethod cfg = "API Token" ↔ config.APIToken cfg ≠ EmptyString)
  ∧ (config.APIToken cfg ≠ EmptyString →
     client.New ext cfg
     = match NewWithAPIToken ext (config.APIToken cfg) with
       | Some err => Err (Errorf_w "failed to create API client: " err)
       | None => Ok client.mkClient
       end).
Proof.
  unfold AuthMethod, client.New, config.HasCredentials.
  destruct cfg as [token key email fmt]. cbn [config.APIToken config.APIKey
    config.APIEmail].
  destruct (decide (token ≠ EmptyString)) as [Ht|Ht].
  - rewrite (bool_decide_eq_true_2 _ Ht). cbn [orb negb].
    split; [done|]. split.
    + split; [done|]. unfold Errorf_w.
      by destruct (NewWithAPIToken ext token).
    + split; [done|]. by intros _.
  - rewrite (bool_decide_eq_false_2 _ Ht). cbn [orb].
    destruct (bool_decide (key ≠ EmptyString) && bool_decide (email ≠ EmptyString))
      eqn:Hke; cbn [negb].
    + split; [done|]. split; [|done].
      split; [done|]. unfold Errorf_w.
      by destruct (NewWithKey ext key email).
    + done.
Qed.

(** The example process: the token of the environment wins over the
    token of the file. *)
Lemma Load_token_from_environment_witness :
  more_spec.Getenv "CLOUDFLARE_API_TOKEN" ≠ EmptyString
  ∧ config.APIToken
      (Load more_spec.Getenv "/home/me/.cloudflare/config.yaml"
         more_spec.readConfig EmptyString)
    = "secret".
Proof.
  assert (more_spec.Getenv "CLOUDFLARE_API_TOKEN" ≠ EmptyString) as Hset
    by (vm_compute; discriminate).
  split; [exact Hset|].
  exact (proj1 (Load_token_from_environment example.externals
                  more_spec.Getenv "/home/me/.cloudflare/config.yaml"
                  more_spec.readConfig EmptyString Hset)).
Defined.

(** X5. The format of the writer: the flag [--output] decides when it is
    given, and then only the value json gives the structured mode, any
    other value the table; without the flag the config decides the same
    way. The format is never anything but one of the two. *)
Theorem format_precedence (cfg : config.Config) (outputFlag : option string) :
  (root.format cfg outputFlag = output.FormatJSON
   ↔ outputFlag = Some "json"
     ∨ (outputFlag = None ∧ config.OutputFormat cfg = "json"))
  ∧ (root.format cfg outputFlag = output.FormatTable
     ∨ root.format cfg outputFlag = output.FormatJSON)
  ∧ (∀ value, outputFlag = Some value → value ≠ "json" →
              root.format cfg outputFlag = output.FormatTable).
Proof.
  unfold root.format. destruct outputFlag as [value|].
  - destruct (decide (value = "json")) as [->|Hv].
    + split; [split; [by left|done]|]. split; [by right|].
      by intros ? [= <-].
    + split; [|split; [by left|done]].
      split; [done|]. intros [[= ->]|[? _]]; done.
  - case_decide as Hcfg.
    + split; [split; [by right|done]|]. split; [by right|done].
    + split; [|split; [by left|done]].
      split; [done|]. intros [?|[_ ?]]; done.
Qed.

(** *** The TTL column *)

Lemma Itoa_parses (n : Z) :
  DecimalString.NilZero.int_of_string (Itoa n) = Some (Z.to_int n).
Proof.
  unfold Itoa. apply DecimalString.NilZero.isi.
  - destruct n; cbn; [done| |done]. intros [= H].
    by apply DecimalPos.Unsigned.to_uint_nonnil in H.
  - destruct n; cbn; [done|done|]. intros [= H].
    by apply DecimalPos.Unsigned.to_uint_nonnil in H.
Qed.

Lemma Itoa_inj (a b : Z) : Itoa a = Itoa b → a = b.
Proof.
  intros Heq. apply DecimalZ.to_int_inj.
  pose proof (Itoa_parses a) as Ha. rewrite Heq, Itoa_parses in Ha.
  by injection Ha.
Qed.

(** X6. The TTL column is unambiguous: two TTLs are shown the same only
    when they are the same, and Auto is shown for the TTL 1 only. *)
Theorem FormatTTL_unambiguous (a b : Z) :
  (output.FormatTTL a = output.FormatTTL b → a = b)
  ∧ (output.FormatTTL a = "Auto" ↔ a = 1%Z).
Proof.
  assert (∀ n, Itoa n ≠ "Auto") as Hauto.
  { intros n Heq. pose proof (Itoa_parses n) as Hn. by rewrite Heq in Hn. }
  unfold output.FormatTTL. split.
  - repeat case_decide; subst; try done.
    + intros Heq. symmetry in Heq. by apply Hauto in Heq.
    + intros Heq. by apply Hauto in Heq.
    + apply Itoa_inj.
  - case_decide; [done|]. split; [intros Heq; by apply Hauto in Heq|done].
Qed.

End config_props.

(** ** The other commands *)

Module more_props.
Import more_spec.

Lemma callsThenOutput_output (bound : nat) (events : list event) :
  calls events = [] → callsThenOutput bound events.
Proof.
  intros Hc. exists [], events. split; [done|]. split; [done|]. simpl; lia.
Qed.

Lemma callsThenOutput_call (bound : nat) (c : cloudflare.call)
    (events : list event) :
  callsThenOutput bound events → callsThenOutput (S bound) (Call c :: events).
Proof.
  intros (cs & outs & -> & Hc & Hlen).
  exists (c :: cs), outs. split; [done|]. split; [done|]. simpl; lia.
Qed.

Lemma callsThenOutput_calls (n bound : nat) (cs : list cloudflare.call)
    (events : list event) :
  length cs ≤ n → callsThenOutput bound events →
  callsThenOutput (n + bound) ((Call <$> cs) ++ events).
Proof.
  intros Hn (cs' & outs & -> & Hc & Hlen).
  exists (cs ++ cs'), outs. rewrite fmap_app, <- app_assoc.
  split; [done|]. split; [done|]. rewrite length_app. lia.
Qed.

Lemma callsThenOutput_mono (n m : nat) (events : list event) :
  n ≤ m → callsThenOutput n events → callsThenOutput m events.
Proof.
  intros Hnm (cs & outs & -> & Hc & Hlen). exists cs, outs.
  split; [done|]. split; [done|]. lia.
Qed.

Section Commands.
Context (ext : Externals) (env : cmd.Env).
Context {W : Type} (world : ∀ e : event, W → resp e * W).

Lemma trace_Vis {A} (e : event) (k : resp e → prog A) (s : W) :
  trace world (Vis e k) s
  = e :: trace world (k (world e s).1) (world e s).2.
Proof.
  unfold trace, logOf. cbn [run]. destruct (world e s) as [r s1].
  cbn [fst snd]. by destruct (run world (k r) s1) as [[a log] s2].
Qed.

Lemma outcome_Vis {A} (e : event) (k : resp e → prog A) (s : W) :
  outcome world (Vis e k) s = outcome world (k (world e s).1) (world e s).2.
Proof.
  unfold outcome. cbn [run]. destruct (world e s) as [r s1].
  cbn [fst snd]. by destruct (run world (k r) s1) as [[a log] s2].
Qed.

(** *** The zone resolver, once more *)

Lemma GetZone_calls (c : client.Client) (nameOrID : string) (s : W) :
  ∃ (r : result client.Zone) (cs : list cloudflare.call)
    (log : list entry) (s1 : W),
    run world (client.GetZone ext c nameOrID) s = (Some r, log, s1)
    ∧ eventOf <$> log = Call <$> cs
    ∧ length cs ≤ 2
    ∧ Forall (λ e, isZoneCall e = true) (eventOf <$> log).
Proof.
  rewrite client_props.GetZone_run.
  destruct (client.looksLikeZoneID nameOrID).
  - cbn zeta.
    destruct (world (Call (cloudflare.ZoneDetails nameOrID)) s) as [r1 s1].
    cbn [fst snd]. cbn in r1. destruct r1 as [zone|e1].
    + eexists _, [_], _, _. split; [done|]. split; [done|].
      split; [simpl; lia|by repeat constructor].
    + rewrite client_props.zoneByName_run.
      eexists _, [_; _], _, _. split; [done|]. split; [done|].
      split; [simpl; lia|by repeat constructor].
  - rewrite client_props.zoneByName_run.
    eexists _, [_], _, _. split; [done|]. split; [done|].
    split; [simpl; lia|by repeat constructor].
Qed.

Lemma resolveZone_calls (c : client.Client) (nameOrID : string) (s : W) :
  ∃ (r : result string) (cs : list cloudflare.call)
    (log : list entry) (s1 : W),
    run world (cmd.resolveZone ext c nameOrID) s = (Some r, log, s1)
    ∧ eventOf <$> log = Call <$> cs
    ∧ length cs ≤ 2
    ∧ Forall (λ e, isZoneCall e = true) (eventOf <$> log).
Proof.
  unfold cmd.resolveZone, client.ResolveZoneID. rewrite run_bind.
  destruct (GetZone_calls c nameOrID s)
    as (r & cs & log & s1 & -> & Hcs & Hlen & Hz).
  destruct r as [zone|err]; cbn [run]; rewrite app_nil_r; eauto 10.
Qed.

(** The frame of the record commands: either the command ends without a
    zone, with an error or in a panic for want of an argument, having
    made zone calls only; or it goes on as [K] with the client and the
    zone. What comes before [K] does not depend on [K]. *)
Lemma withZone_run (args : list string) (s : W) :
  ∃ (cs : list cloudflare.call) (zlog : list entry) (s1 : W),
    eventOf <$> zlog = Call <$> cs
    ∧ length cs ≤ 2
    ∧ Forall (λ e, isZoneCall e = true) (eventOf <$> zlog)
    ∧ ((∃ a : option (option error),
          a ≠ Some None
          ∧ ∀ K, run world (withZone ext env K args) s = (a, zlog, s1))
       ∨ (∃ (c : client.Client) (zoneID : string),
            ∀ K, run world (withZone ext env K args) s
                 = let '(a, log, s2) := run world (K c zoneID) s1 in
                   (a, zlog ++ log, s2))).
Proof.
  unfold withZone.
  destruct (client.New ext (cmd.cfg env)) as [c|err].
  2:{ exists [], [], s. split; [done|]. split; [simpl; lia|].
      split; [constructor|]. left. by exists (Some (Some err)). }
  destruct args as [|zone args].
  { exists [], [], s. split; [done|]. split; [simpl; lia|].
    split; [constructor|]. left. by exists None. }
  cbn [index lookup list_lookup bind].
  destruct (resolveZone_calls c zone s)
    as (r & cs & zlog & s1 & Hrun & Hcs & Hlen & Hz).
  exists cs, zlog, s1. split; [done|]. split; [done|]. split; [done|].
  destruct r as [zoneID|err].
  - right. exists c, zoneID. intros K. by rewrite run_bind, Hrun.
  - left. exists (Some (Some err)). split; [done|]. intros K.
    rewrite run_bind, Hrun. cbn [run]. by rewrite app_nil_r.
Qed.

(** A command in the frame is bounded calls, then output, when its rest
    is. *)
Lemma withZone_callsThenOutput (bound : nat)
    (K : client.Client → string → prog (option error)) (args : list string)
    (s : W) :
  (∀ c zoneID s1, callsThenOutput bound (trace world (K c zoneID) s1)) →
  callsThenOutput (2 + bound) (trace world (withZone ext env K args) s).
Proof.
  intros HK.
  destruct (withZone_run args s)
    as (cs & zlog & s1 & Hcs & Hlen & _
        & [(a & _ & Hrun)|(c & zoneID & Hrun)]);
    unfold trace, logOf; rewrite (Hrun K).
  - cbn [fst snd]. rewrite Hcs. rewrite <- (app_nil_r (Call <$> cs)).
    apply callsThenOutput_calls; [done|]. by apply callsThenOutput_output.
  - specialize (HK c zoneID s1). unfold trace, logOf in HK.
    destruct (run world (K c zoneID) s1) as [[a log] s2]. cbn [fst snd] in *.
    rewrite fmap_app, Hcs. by apply callsThenOutput_calls.
Qed.

(** *** Every command in the frame *)

Lemma dnsListCmd_frame (fl : cmd.Flags) (args : list string) :
  cmd.dnsListCmd ext env fl args
  = withZone ext env
      (λ c zoneID,
         r ← client.ListDNSRecords c zoneID (cmd.dnsType fl) (cmd.dnsName fl);
         match r with
         | Err err => Ret (Some err)
         | Ok records =>
             if decide (length records = 0) then
               _ ← output.WriteSuccess (cmd.out env) "No DNS records found";
               Ret None
             else cmd.writeDNSRecordTable env records
         end) args.
Proof. reflexivity. Qed.

Lemma dnsFindCmd_frame (fl : cmd.Flags) (args : list string) :
  dns.dnsFindCmd ext env fl args
  = if bool_decide (cmd.dnsName fl = EmptyString)
       && bool_decide (cmd.dnsType fl = EmptyString) then
      Ret (Some (errorString "at least one of --name or --type is required"))
    else
      withZone ext env
        (λ c zoneID,
           r ← client.ListDNSRecords c zoneID (cmd.dnsType fl)
                 (cmd.dnsName fl);
           match r with
           | Err err => Ret (Some err)
           | Ok records =>
               if decide (length records = 0) then
                 _ ← output.WriteSuccess (cmd.out env)
                       "No matching DNS records found";
                 Ret None
               else cmd.writeDNSRecordTable env records
           end) args.
Proof. reflexivity. Qed.

Lemma dnsGetCmd_frame (args : list string) :
  dns.dnsGetCmd ext env args
  = withZone ext env
      (λ c zoneID,
         recordID ← index args 1;
         r ← client.GetDNSRecord c zoneID recordID;
         match r with
         | Err err => Ret (Some err)
         | Ok record =>
             if decide (cmd.outputFormat env = "json") then
               output.WriteJSON (cmd.out env) record
             else
               output.WriteTable (cmd.out env) cmd.recordHeaders
                 [cmd.recordRow record]
         end) args.
Proof. reflexivity. Qed.

Lemma dnsDeleteCmd_frame (args : list string) :
  dns.dnsDeleteCmd ext env args
  = withZone ext env
      (λ c zoneID,
         recordID ← index args 1;
         err ← client.DeleteDNSRecord c zoneID recordID;
         match err with
         | Some err => Ret (Some err)
         | None =>
             _ ← output.WriteSuccess (cmd.out env)
                   ("Deleted DNS record: " +:+ recordID);
             Ret None
         end) args.
Proof. reflexivity. Qed.

Lemma dnsUpdateCmd_frame (fl : cmd.Flags) (args : list string) :
  cmd.dnsUpdateCmd ext env fl args
  = withZone ext env
      (λ c zoneID,
         recordID ← index args 1;
         r ← client.GetDNSRecord c zoneID recordID;
         match r with
         | Err err => Ret (Some err)
         | Ok existing =>
             match cmd.updateParams fl existing with
             | Err err => Ret (Some err)
             | Ok params =>
                 r ← client.UpdateDNSRecord c zoneID recordID params;
                 match r with
                 | Err err => Ret (Some err)
                 | Ok record =>
                     cmd.writeRecord env "Updated DNS record: " record
                 end
             end
         end) args.
Proof. reflexivity. Qed.

(** *** Output makes no call *)

Lemma status_no_call (msg : string) (s : W) :
  calls (trace world
           (_ ← output.WriteSuccess (cmd.out env) msg;
            Ret (None : option error)) s) = []
  ∧ outcome world
      (_ ← output.WriteSuccess (cmd.out env) msg;
       Ret (None : option error)) s
    = Some None
  ∧ trace world
      (_ ← output.WriteSuccess (cmd.out env) msg;
       Ret (None : option error)) s
    = [cmd_spec.statusEvent (cmd.out env) msg].
Proof.
  unfold trace, logOf, outcome, output.WriteSuccess, cmd_spec.statusEvent.
  case_decide.
  - unfold output.WriteJSON. cbn [bind perform run].
    by destruct (world (Encode _) s).
  - cbn [bind perform run]. by destruct (world (Fprintln msg) s) as [[] ?].
Qed.

Lemma WriteJSON_no_call `{Marshaler A} (data : A) (s : W) :
  calls (trace world (output.WriteJSON (cmd.out env) data) s) = [].
Proof.
  unfold output.WriteJSON, trace, logOf. cbn [perform run].
  by destruct (world (Encode _) s).
Qed.

Lemma records_output_no_call (msg : string) (records : list client.DNSRecord)
    (s : W) :
  calls (trace world
           (if decide (length records = 0) then
              _ ← output.WriteSuccess (cmd.out env) msg;
              Ret (None : option error)
            else cmd.writeDNSRecordTable env records) s) = [].
Proof.
  case_decide.
  - apply status_no_call.
  - apply (cmd_props.WriteTable_calls env world).
Qed.

(** *** Calls, then output *)

Lemma list_rest_bounded (msg : string) (c : client.Client)
    (zoneID recordType name : string) (s : W) :
  callsThenOutput 1
    (trace world
       (r ← client.ListDNSRecords c zoneID recordType name;
        match r with
        | Err err => Ret (Some err)
        | Ok records =>
            if decide (length records = 0) then
              _ ← output.WriteSuccess (cmd.out env) msg; Ret None
            else cmd.writeDNSRecordTable env records
        end) s).
Proof.
  unfold client.ListDNSRecords. cbn [bind perform]. rewrite trace_Vis.
  apply callsThenOutput_call, callsThenOutput_output.
  destruct (world (Call _) s) as [r s1]. cbn [fst snd]. cbn in r.
  destruct r as [records|err]; cbn [bind]; [|done].
  apply records_output_no_call.
Qed.

Lemma get_rest_bounded (args : list string) (c : client.Client)
    (zoneID : string) (s : W) :
  callsThenOutput 1
    (trace world
       (recordID ← index args 1;
        r ← client.GetDNSRecord c zoneID recordID;
        match r with
        | Err err => Ret (Some err)
        | Ok record =>
            if decide (cmd.outputFormat env = "json") then
              output.WriteJSON (cmd.out env) record
            else
              output.WriteTable (cmd.out env) cmd.recordHeaders
                [cmd.recordRow record]
        end) s).
Proof.
  unfold index. destruct (args !! 1) as [recordID|]; cbn [bind];
    [|by apply callsThenOutput_output].
  unfold client.GetDNSRecord. cbn [bind perform]. rewrite trace_Vis.
  apply callsThenOutput_call, callsThenOutput_output.
  destruct (world (Call _) s) as [r s1]. cbn [fst snd]. cbn in r.
  destruct r as [record|err]; cbn [bind]; [|done].
  case_decide.
  - apply WriteJSON_no_call.
  - apply (cmd_props.WriteTable_calls env world).
Qed.

Lemma delete_rest_bounded (args : list string) (c : client.Client)
    (zoneID : string) (s : W) :
  callsThenOutput 1
    (trace world
       (recordID ← index args 1;
        err ← client.DeleteDNSRecord c zoneID recordID;
        match err with
        | Some err => Ret (Some err)
        | None =>
            _ ← output.WriteSuccess (cmd.out env)
                  ("Deleted DNS record: " +:+ recordID);
            Ret None
        end) s).
Proof.
  unfold index. destruct (args !! 1) as [recordID|]; cbn [bind];
    [|by apply callsThenOutput_output].
  unfold client.DeleteDNSRecord. cbn [bind perform]. rewrite trace_Vis.
  apply callsThenOutput_call, callsThenOutput_output.
  destruct (world (Call _) s) as [r s1]. cbn [fst snd]. cbn in r.
  destruct r as [err|]; cbn [bind]; [done|].
  apply status_no_call.
Qed.

Lemma update_rest_bounded (fl : cmd.Flags) (args : list string)
    (c : client.Client) (zoneID : string) (s : W) :
  callsThenOutput 2
    (trace world
       (recordID ← index args 1;
        r ← client.GetDNSRecord c zoneID recordID;
        match r with
        | Err err => Ret (Some err)
        | Ok existing =>
            match cmd.updateParams fl existing with
            | Err err => Ret (Some err)
            | Ok params =>
                r ← client.UpdateDNSRecord c zoneID recordID params;
                match r with
                | Err err => Ret (Some err)
                | Ok record =>
                    cmd.writeRecord env "Updated DNS record: " record
                end
            end
        end) s).
Proof.
  unfold index. destruct (args !! 1) as [recordID|]; cbn [bind];
    [|by apply callsThenOutput_output].
  unfold client.GetDNSRecord. cbn [bind perform]. rewrite trace_Vis.
  apply callsThenOutput_call.
  destruct (world (Call _) s) as [r s1]. cbn [fst snd]. cbn in r.
  destruct r as [existing|err]; cbn [bind];
    [|by apply callsThenOutput_output].
  destruct (cmd.updateParams fl (client.toDNSRecord existing)) as [params|err];
    [|by apply callsThenOutput_output].
  unfold client.UpdateDNSRecord. cbn [bind perform]. rewrite trace_Vis.
  apply callsThenOutput_call, callsThenOutput_output.
  destruct (world (Call _) s1) as [r s2]. cbn [fst snd]. cbn in r.
  destruct r as [record|err]; cbn [bind]; [|done].
  apply (cmd_props.writeRecord_calls env world).
Qed.

Lemma create_bounded (fl : cmd.Flags) (args : list string) (s : W) :
  callsThenOutput 3 (trace world (cmd.dnsCreateCmd ext env fl args) s).
Proof.
  unfold cmd.dnsCreateCmd.
  destruct (_ || _ || _); [by apply callsThenOutput_output|].
  cbn zeta.
  destruct (if decide (cmd.dnsProxied fl ≠ EmptyString) then _ else _)
    as [proxied|err]; [|by apply callsThenOutput_output].
  apply (withZone_callsThenOutput 1
           (λ c zoneID,
              r ← client.CreateDNSRecord c zoneID _;
              match r with
              | Err err => Ret (Some err)
              | Ok record => cmd.writeRecord env "Created DNS record: " record
              end)).
  intros c zoneID s1.
  unfold client.CreateDNSRecord. cbn [bind perform]. rewrite trace_Vis.
  apply callsThenOutput_call, callsThenOutput_output.
  destruct (world (Call _) s1) as [r s2]. cbn [fst snd]. cbn in r.
  destruct r as [record|err]; cbn [bind]; [|done].
  apply (cmd_props.writeRecord_calls env world).
Qed.

Lemma zonesList_bounded (args : list string) (s : W) :
  callsThenOutput 1 (trace world (zones.zonesListCmd ext env args) s).
Proof.
  unfold zones.zonesListCmd.
  destruct (client.New ext (cmd.cfg env)) as [c|err];
    [|by apply callsThenOutput_output].
  unfold client.ListZones. cbn [bind perform]. rewrite trace_Vis.
  apply callsThenOutput_call, callsThenOutput_output.
  destruct (world (Call _) s) as [r s1]. cbn [fst snd]. cbn in r.
  destruct r as [zs|err]; cbn [bind].
  - case_decide.
    + apply status_no_call.
    + apply (cmd_props.WriteTable_calls env world).
  - by destruct (client.isPermissionError ext (Some err)).
Qed.

Lemma zonesGet_bounded (args : list string) (s : W) :
  callsThenOutput 2 (trace world (zones.zonesGetCmd ext env args) s).
Proof.
  unfold zones.zonesGetCmd.
  destruct (client.New ext (cmd.cfg env)) as [c|err];
    [|by apply callsThenOutput_output].
  unfold index. destruct (args !! 0) as [nameOrID|]; cbn [bind];
    [|by apply callsThenOutput_output].
  unfold trace, logOf. rewrite run_bind.
  destruct (GetZone_calls c nameOrID s)
    as (r & cs & log & s1 & -> & Hcs & Hlen & _).
  assert (calls (trace world
            match r with
            | Ok zone =>
                if decide (cmd.outputFormat env = "json") then
                  output.WriteJSON (cmd.out env) zone
                else
                  output.WriteTable (cmd.out env) zones.zoneHeaders
                    [zones.zoneRow zone]
            | Err err => Ret (Some err)
            end s1) = []) as Hout.
  { destruct r as [zone|err]; [|done]. case_decide.
    - apply WriteJSON_no_call.
    - apply (cmd_props.WriteTable_calls env world). }
  unfold trace, logOf in Hout.
  destruct (run world _ s1) as [[a olog] s2]. cbn [fst snd] in *.
  rewrite fmap_app, Hcs.
  replace 2 with (2 + 0) by lia.
  apply callsThenOutput_calls; [done|]. by apply callsThenOutput_output.
Qed.

(** X7. No command retries or goes back to the provider once it writes:
    the trace of every command is a bounded number of provider calls
    followed by output only. The bound is three for list, get, create,
    delete and find (two for the zone, one for the records), four for
    update, one for zones list and two for zones get. *)
Theorem commands_call_then_write (fl : cmd.Flags) (args : list string)
    (s : W) :
  callsThenOutput 3 (trace world (cmd.dnsListCmd ext env fl args) s)
  ∧ callsThenOutput 3 (trace world (dns.dnsGetCmd ext env args) s)
  ∧ callsThenOutput 3 (trace world (cmd.dnsCreateCmd ext env fl args) s)
  ∧ callsThenOutput 4 (trace world (cmd.dnsUpdateCmd ext env fl args) s)
  ∧ callsThenOutput 3 (trace world (dns.dnsDeleteCmd ext env args) s)
  ∧ callsThenOutput 3 (trace world (dns.dnsFindCmd ext env fl args) s)
  ∧ callsThenOutput 1 (trace world (zones.zonesListCmd ext env args) s)
  ∧ callsThenOutput 2 (trace world (zones.zonesGetCmd ext env args) s).
Proof.
  split; [|split; [|split; [|split; [|split; [|split; [|split]]]]]].
  - rewrite dnsListCmd_frame. apply (withZone_callsThenOutput 1).
    intros c zoneID s1. apply list_rest_bounded.
  - rewrite dnsGetCmd_frame. apply (withZone_callsThenOutput 1).
    intros c zoneID s1. apply get_rest_bounded.
  - apply create_bounded.
  - rewrite dnsUpdateCmd_frame. apply (withZone_callsThenOutput 2).
    intros c zoneID s1. apply update_rest_bounded.
  - rewrite dnsDeleteCmd_frame. apply (withZone_callsThenOutput 1).
    intros c zoneID s1. apply delete_rest_bounded.
  - rewrite dnsFindCmd_frame.
    destruct (_ && _); [by apply callsThenOutput_output|].
    apply (withZone_callsThenOutput 1).
    intros c zoneID s1. apply list_rest_bounded.
  - apply zonesList_bounded.
  - apply zonesGet_bounded.
Qed.

(** *** The errors of the zone resolver *)

(** X8. An error of [GetZone] always comes from the lookup by name, which
    is the last call of the run: it is the provider's error of that call,
    as it came or under the guidance, or the error that the zone was not
    found. The error of a failed fetch by identifier is never returned. *)
Theorem GetZone_error_is_from_name_lookup (c : client.Client)
    (nameOrID : string) (s : W) (e : error) :
  outcome world (client.GetZone ext c nameOrID) s = Some (Err e) →
  ∃ r : result (list cloudflare.Zone),
    last (logOf world (client.GetZone ext c nameOrID) s)
    = Some (Entry (Call (cloudflare.ListZones [nameOrID])) r)
    ∧ match r with
      | Ok zones => zones = [] ∧ e = Errorf_s "zone not found: " nameOrID
      | Err e' => e = e' ∨ e = Errorf_w client.zoneGuidance e'
      end.
Proof.
  unfold outcome, logOf. rewrite client_props.GetZone_run.
  assert (∀ s1 (pre : list entry),
    (let '(a, log, _) := run world (client.zoneByName ext c nameOrID) s1 in
     (a, pre ++ log)) .1 = Some (Err e) →
    ∃ r : result (list cloudflare.Zone),
      last (let '(a, log, _) := run world (client.zoneByName ext c nameOrID) s1
            in (a, pre ++ log)).2
      = Some (Entry (Call (cloudflare.ListZones [nameOrID])) r)
      ∧ match r with
        | Ok zones => zones = [] ∧ e = Errorf_s "zone not found: " nameOrID
        | Err e' => e = e' ∨ e = Errorf_w client.zoneGuidance e'
        end) as Hname.
  { intros s1 pre. rewrite client_props.zoneByName_run. cbn zeta.
    destruct (world (Call (cloudflare.ListZones [nameOrID])) s1) as [r s2].
    cbn [fst snd]. cbn in r. intros Hout. exists r.
    split; [by rewrite last_snoc|].
    destruct r as [[|z zones]|e']; [by injection Hout as <-|done|].
    destruct (client.isPermissionError ext (Some e'));
      injection Hout as <-; auto. }
  destruct (client.looksLikeZoneID nameOrID).
  - cbn zeta.
    destruct (world (Call (cloudflare.ZoneDetails nameOrID)) s) as [r1 s1].
    cbn [fst snd]. cbn in r1. destruct r1 as [zone|e1]; [done|].
    specialize (Hname s1 [Entry (Call (cloudflare.ZoneDetails nameOrID))
                            (Err e1)]).
    destruct (run world (client.zoneByName ext c nameOrID) s1)
      as [[a log] s2].
    exact Hname.
  - specialize (Hname s []).
    destruct (run world (client.zoneByName ext c nameOrID) s) as [[a log] s2].
    exact Hname.
Qed.

(** *** delete *)

(** X9. When [delete] reaches the provider's delete call: the record is
    the second argument, only zone calls came before (the record is not
    fetched first), and on success the command returns no error and its
    one output is the status message that names the requested identifier;
    on failure it returns the provider's error under its own prefix and
    writes nothing. *)
Theorem delete_names_requested_record (args : list string) (s : W)
    (zid rid : string) (r : option error) :
  Entry (Call (cloudflare.DeleteDNSRecord zid rid)) r
    ∈ logOf world (dns.dnsDeleteCmd ext env args) s →
  args !! 1 = Some rid
  ∧ ∃ before : list event,
      Forall (λ e, isZoneCall e = true) before
      ∧ match r with
        | None =>
            outcome world (dns.dnsDeleteCmd ext env args) s = Some None
            ∧ trace world (dns.dnsDeleteCmd ext env args) s
              = before
                ++ [Call (cloudflare.DeleteDNSRecord zid rid);
                    cmd_spec.statusEvent (cmd.out env)
                      ("Deleted DNS record: " +:+ rid)]
        | Some err =>
            outcome world (dns.dnsDeleteCmd ext env args) s
            = Some (Some (Errorf_w "failed to delete DNS record: " err))
            ∧ trace world (dns.dnsDeleteCmd ext env args) s
              = before ++ [Call (cloudflare.DeleteDNSRecord zid rid)]
        end.
Proof.
  rewrite dnsDeleteCmd_frame. unfold logOf, outcome, trace, logOf.
  destruct (withZone_run args s)
    as (cs & zlog & s1 & Hcs & Hlen & Hz
        & [(a & _ & Hrun)|(c & zoneID & Hrun)]);
    rewrite Hrun; clear Hrun.
  { cbn [fst snd]. intros Hin.
    apply (list_elem_of_fmap_2 eventOf) in Hin.
    eapply Forall_forall in Hz; [|exact Hin]. done. }
  unfold index. destruct (args !! 1) as [recordID|] eqn:Hrid; cbn [bind run].
  2:{ cbn [fst snd]. rewrite app_nil_r. intros Hin.
      apply (list_elem_of_fmap_2 eventOf) in Hin.
      eapply Forall_forall in Hz; [|exact Hin]. done. }
  unfold client.DeleteDNSRecord. cbn [bind perform run].
  destruct (world (Call (cloudflare.DeleteDNSRecord zoneID recordID)) s1)
    as [r' s2].
  cbn in r'. destruct r' as [err|]; cbn [bind].
  - cbn [run fst snd].
    intros [Hin|Hin]%elem_of_app.
    { apply (list_elem_of_fmap_2 eventOf) in Hin.
      eapply Forall_forall in Hz; [|exact Hin]. done. }
    apply list_elem_of_singleton in Hin.
    pose proof (f_equal replyDelete Hin) as Hr. cbn in Hr. injection Hr as ->.
    apply (f_equal eventOf) in Hin. cbn in Hin. injection Hin as -> ->.
    split; [done|]. exists (eventOf <$> zlog). split; [done|].
    split; [done|]. by rewrite fmap_app.
  - pose proof (status_no_call ("Deleted DNS record: " +:+ recordID) s2)
      as (Hc & Ho & Ht).
    unfold trace, logOf, outcome in Hc, Ho, Ht.
    destruct (run world _ s2) as [[a olog] s3]. cbn [fst snd] in *.
    intros [Hin|Hin]%elem_of_app.
    { apply (list_elem_of_fmap_2 eventOf) in Hin.
      eapply Forall_forall in Hz; [|exact Hin]. done. }
    apply elem_of_cons in Hin as [Hin|Hin].
    2:{ apply (list_elem_of_fmap_2 eventOf) in Hin.
        by eapply cmd_props.not_a_call in Hin. }
    pose proof (f_equal replyDelete Hin) as Hr. cbn in Hr. injection Hr as ->.
    apply (f_equal eventOf) in Hin. cbn in Hin. injection Hin as -> ->.
    split; [done|]. exists (eventOf <$> zlog). split; [done|].
    split; [done|]. rewrite fmap_app. cbn [fmap list_fmap]. f_equal.
    f_equal. exact Ht.
Qed.

(** *** find *)

(** X10. [find] without a name and without a type returns the validation
    error and does nothing else. With one of them it is [list]: the same
    provider calls and the same result, and the same output but for the
    text of the status message when no record matches. *)
Theorem find_is_filtered_list (fl : cmd.Flags) (args : list string) (s : W) :
  (cmd.dnsName fl = EmptyString → cmd.dnsType fl = EmptyString →
   run world (dns.dnsFindCmd ext env fl args) s
   = (Some (Some (errorString
                    "at least one of --name or --type is required")),
      [], s))
  ∧ (cmd.dnsName fl ≠ EmptyString ∨ cmd.dnsType fl ≠ EmptyString →
     calls (trace world (dns.dnsFindCmd ext env fl args) s)
     = calls (trace world (cmd.dnsListCmd ext env fl args) s)
     ∧ outcome world (dns.dnsFindCmd ext env fl args) s
       = outcome world (cmd.dnsListCmd ext env fl args) s
     ∧ (trace world (dns.dnsFindCmd ext env fl args) s
        = trace world (cmd.dnsListCmd ext env fl args) s
        ∨ ∃ before,
            trace world (dns.dnsFindCmd ext env fl args) s
            = before ++ [cmd_spec.statusEvent (cmd.out env)
                           "No matching DNS records found"]
            ∧ trace world (cmd.dnsListCmd ext env fl args) s
              = before ++ [cmd_spec.statusEvent (cmd.out env)
                             "No DNS records found"])).
Proof.
  rewrite dnsFindCmd_frame, dnsListCmd_frame. split.
  { intros -> ->. done. }
  intros Hfilter.
  assert (bool_decide (cmd.dnsName fl = EmptyString)
          && bool_decide (cmd.dnsType fl = EmptyString) = false) as ->.
  { apply andb_false_iff. rewrite !bool_decide_eq_false. tauto. }
  unfold outcome, trace, logOf.
  destruct (withZone_run args s)
    as (cs & zlog & s1 & Hcs & Hlen & Hz
        & [(a & _ & Hrun)|(c & zoneID & Hrun)]);
    rewrite !Hrun; clear Hrun.
  { split; [done|]. split; [done|]. by left. }
  unfold client.ListDNSRecords. cbn [bind perform run].
  destruct (world (Call (cloudflare.ListDNSRecords zoneID _)) s1) as [r s2].
  cbn in r. destruct r as [[|rec records]|err]; cbn [bind].
  - cbn [fmap list_fmap length].
    destruct (decide (0 = 0)) as [_|Hne]; [|done].
    pose proof (status_no_call "No matching DNS records found" s2)
      as (Hc1 & Ho1 & Ht1).
    pose proof (status_no_call "No DNS records found" s2) as (Hc2 & Ho2 & Ht2).
    unfold trace, logOf, outcome in Hc1, Ho1, Ht1, Hc2, Ho2, Ht2.
    destruct (run world
                (_ ← output.WriteSuccess (cmd.out env)
                       "No matching DNS records found"; Ret None) s2)
      as [[a1 log1] s3].
    destruct (run world
                (_ ← output.WriteSuccess (cmd.out env) "No DNS records found";
                 Ret None) s2)
      as [[a2 log2] s4].
    cbn [fst snd] in *. subst a1 a2. split.
    { rewrite !fmap_app. cbn [fmap list_fmap eventOf].
      change (list_fmap entry event eventOf log1) with (eventOf <$> log1).
      change (list_fmap entry event eventOf log2) with (eventOf <$> log2).
      rewrite Ht1, Ht2. unfold calls. rewrite !omap_app. f_equal.
      unfold cmd_spec.statusEvent.
      by destruct (decide (output.format (cmd.out env) = output.FormatJSON)). }
    split; [done|]. right.
    exists ((eventOf <$> zlog)
            ++ [Call (cloudflare.ListDNSRecords zoneID
                        {| cloudflare.List_Type :=
                             if decide (cmd.dnsType fl ≠ EmptyString)
                             then cmd.dnsType fl else EmptyString;
                           cloudflare.List_Name :=
                             if decide (cmd.dnsName fl ≠ EmptyString)
                             then cmd.dnsName fl else EmptyString |})]).
    rewrite !fmap_app. cbn [fmap list_fmap eventOf].
    rewrite <- !app_assoc. cbn [app].
    change (list_fmap entry event eventOf log1) with (eventOf <$> log1).
    change (list_fmap entry event eventOf log2) with (eventOf <$> log2).
    by rewrite Ht1, Ht2.
  - cbn [fmap list_fmap length].
    destruct (decide (S (length (client.toDNSRecord <$> records)) = 0))
      as [Heq|_]; [done|].
    split; [done|]. split; [done|]. by left.
  - split; [done|]. split; [done|]. by left.
Qed.

(** *** The tables of records and zones in structured mode *)

Lemma recordRow_object (r : client.DNSRecord) :
  marshal (output_spec.rowItem cmd.recordHeaders (cmd.recordRow r))
  = recordObject r.
Proof. by vm_compute. Qed.

Lemma zoneRow_object (z : client.Zone) :
  marshal (output_spec.rowItem zones.zoneHeaders (zones.zoneRow z))
  = zoneObject z.
Proof. by vm_compute. Qed.

Lemma WriteTable_structured {A} (headers : list string) (row : A → list string)
    (object : A → json) (items : list A) (s : W) :
  output.format (cmd.out env) = output.FormatJSON →
  (∀ x, marshal (output_spec.rowItem headers (row x)) = object x) →
  trace world (output.WriteTable (cmd.out env) headers (row <$> items)) s
  = [Encode (match items with
             | [] => JNull
             | _ => JArray (object <$> items)
             end)].
Proof.
  intros Hjson Hobject. unfold output.WriteTable.
  rewrite decide_True by done.
  rewrite output_props.writeTableAsJSON_trace.
  destruct items as [|x items]; [done|].
  change (row <$> x :: items) with (row x :: (row <$> items)).
  rewrite output_facts.tableData_cons.
  change (row x :: (row <$> items)) with (row <$> x :: items).
  unfold marshal at 1, marshal_slice. do 2 f_equal.
  rewrite <- !list_fmap_compose. f_equal.
  apply list_fmap_ext. intros _ y _. cbn. apply Hobject.
Qed.

(** X11. In structured mode the table of records is one document: an
    array with one object per record, in the order of the records, each
    with the six keys of the headers and the cells as strings (the TTL as
    it is shown, never the priority or the comment); and [null] for no
    record. The table of zones is the same with its three keys. No key is
    ever left out, since every row has a cell for every header. *)
Theorem tables_structured (records : list client.DNSRecord)
    (zs : list client.Zone) (s : W) :
  output.format (cmd.out env) = output.FormatJSON →
  trace world (cmd.writeDNSRecordTable env records) s
  = [Encode (match records with
             | [] => JNull
             | _ => JArray (recordObject <$> records)
             end)]
  ∧ trace world (zones.writeZoneTable env zs) s
    = [Encode (match zs with
               | [] => JNull
               | _ => JArray (zoneObject <$> zs)
               end)].
Proof.
  intros Hjson. split.
  - apply WriteTable_structured; [done|]. apply recordRow_object.
  - apply WriteTable_structured; [done|]. apply zoneRow_object.
Qed.

(** *** get *)

Lemma get_output (args : list string) (s : W) (zid rid : string)
    (rec : cloudflare.DNSRecord) :
  Entry (Call (cloudflare.GetDNSRecord zid rid)) (Ok rec)
    ∈ logOf world (dns.dnsGetCmd ext env args) s →
  ∃ before after : list event,
    trace world (dns.dnsGetCmd ext env args) s
    = before ++ Call (cloudflare.GetDNSRecord zid rid) :: after
    ∧ Forall (λ e, isZoneCall e = true) before
    ∧ (cmd.outputFormat env = "json" →
       after = [Encode (marshal (client.toDNSRecord rec))])
    ∧ (cmd.outputFormat env ≠ "json" →
       output.format (cmd.out env) = output.FormatJSON →
       after = [Encode (JArray [recordObject (client.toDNSRecord rec)])])
    ∧ (cmd.outputFormat env ≠ "json" →
       output.format (cmd.out env) ≠ output.FormatJSON →
       ∃ header row, after = [Fprintln header; Fprintln row]).
Proof.
  rewrite dnsGetCmd_frame. unfold logOf, trace, logOf.
  destruct (withZone_run args s)
    as (cs & zlog & s1 & Hcs & Hlen & Hz
        & [(a & _ & Hrun)|(c & zoneID & Hrun)]);
    rewrite Hrun; clear Hrun.
  { cbn [fst snd]. intros Hin.
    apply (list_elem_of_fmap_2 eventOf) in Hin.
    eapply Forall_forall in Hz; [|exact Hin]. done. }
  unfold index. destruct (args !! 1) as [recordID|] eqn:Hrid; cbn [bind run].
  2:{ cbn [fst snd]. rewrite app_nil_r. intros Hin.
      apply (list_elem_of_fmap_2 eventOf) in Hin.
      eapply Forall_forall in Hz; [|exact Hin]. done. }
  unfold client.GetDNSRecord. cbn [bind perform run].
  destruct (world (Call (cloudflare.GetDNSRecord zoneID recordID)) s1)
    as [r' s2].
  cbn in r'.
  assert (∀ (olog : list entry) (en : entry),
            calls (eventOf <$> olog) = [] →
            en ∈ zlog ++ Entry (Call (cloudflare.GetDNSRecord zoneID recordID))
                           r' :: olog →
            en = Entry (Call (cloudflare.GetDNSRecord zid rid)) (Ok rec) →
            zoneID = zid ∧ recordID = rid ∧ r' = Ok rec) as Hfind.
  { intros olog en Hc Hin ->. apply elem_of_app in Hin as [Hin|Hin].
    { apply (list_elem_of_fmap_2 eventOf) in Hin.
      eapply Forall_forall in Hz; [|exact Hin]. done. }
    apply elem_of_cons in Hin as [Hin|Hin].
    2:{ apply (list_elem_of_fmap_2 eventOf) in Hin.
        by eapply cmd_props.not_a_call in Hin. }
    pose proof (f_equal replyRecord Hin) as Hr. cbn in Hr. injection Hr as <-.
    apply (f_equal eventOf) in Hin. cbn in Hin. by injection Hin as <- <-. }
  destruct r' as [record|err]; cbn [bind].
  2:{ cbn [run fst snd]. intros Hin.
      by destruct (Hfind [] _ eq_refl Hin eq_refl) as (_ & _ & ?). }
  pose proof (get_rest_bounded [zid; recordID] c zoneID s1) as _.
  assert (calls (trace world
                   (if decide (cmd.outputFormat env = "json") then
                      output.WriteJSON (cmd.out env)
                        (client.toDNSRecord record)
                    else
                      output.WriteTable (cmd.out env) cmd.recordHeaders
                        [cmd.recordRow (client.toDNSRecord record)]) s2) = [])
    as Hc.
  { case_decide; [apply WriteJSON_no_call|].
    apply (cmd_props.WriteTable_calls env world). }
  assert ((cmd.outputFormat env = "json" →
           trace world
             (if decide (cmd.outputFormat env = "json") then
                output.WriteJSON (cmd.out env) (client.toDNSRecord record)
              else
                output.WriteTable (cmd.out env) cmd.recordHeaders
                  [cmd.recordRow (client.toDNSRecord record)]) s2
           = [Encode (marshal (client.toDNSRecord record))])
          ∧ (cmd.outputFormat env ≠ "json" →
             output.format (cmd.out env) = output.FormatJSON →
             trace world
               (if decide (cmd.outputFormat env = "json") then
                  output.WriteJSON (cmd.out env) (client.toDNSRecord record)
                else
                  output.WriteTable (cmd.out env) cmd.recordHeaders
                    [cmd.recordRow (client.toDNSRecord record)]) s2
             = [Encode (JArray [recordObject (client.toDNSRecord record)])])
          ∧ (cmd.outputFormat env ≠ "json" →
             output.format (cmd.out env) ≠ output.FormatJSON →
             ∃ header row,
               trace world
                 (if decide (cmd.outputFormat env = "json") then
                    output.WriteJSON (cmd.out env) (client.toDNSRecord record)
                  else
                    output.WriteTable (cmd.out env) cmd.recordHeaders
                      [cmd.recordRow (client.toDNSRecord record)]) s2
               = [Fprintln header; Fprintln row])) as Hshape.
  { split; [|split].
    - intros Hflag. rewrite decide_True by done.
      unfold output.WriteJSON, trace, logOf. cbn [perform run].
      by destruct (world (Encode _) s2).
    - intros Hflag Hjson. rewrite decide_False by done.
      apply (WriteTable_structured cmd.recordHeaders cmd.recordRow recordObject
               [client.toDNSRecord record] s2 Hjson recordRow_object).
    - intros Hflag Htable. rewrite decide_False by done.
      unfold output.WriteTable. rewrite decide_False by done.
      rewrite output_props.writeASCIITable_trace. by eexists _, _. }
  unfold trace, logOf in Hc, Hshape.
  destruct (run world _ s2) as [[a olog] s3]. cbn [fst snd] in *.
  intros Hin.
  destruct (Hfind olog _ Hc Hin eq_refl) as (-> & -> & [= ->]).
  exists (eventOf <$> zlog), (eventOf <$> olog).
  split; [by rewrite fmap_app|]. split; [done|]. exact Hshape.
Qed.

(** *** zones list *)

(** X13. [zones list] makes the one call that lists all zones. When it
    fails, the command writes nothing and returns the error, under the
    hint at the Zone:Read permission if it is a permission error; without
    zones it writes the status message and succeeds; with zones it writes,
    in table mode, one line more than there are zones, and in structured
    mode one array of their objects. *)
Theorem zones_list_outcomes (c : client.Client) (args : list string) (s : W) :
  client.New ext (cmd.cfg env) = Ok c →
  match (world (Call (cloudflare.ListZones [])) s).1
        return Prop with
  | Err err =>
      trace world (zones.zonesListCmd ext env args) s
      = [Call (cloudflare.ListZones [])]
      ∧ outcome world (zones.zonesListCmd ext env args) s
        = Some (Some (if client.isPermissionError ext (Some err)
                      then Errorf_w
                             "permission denied: your API token may not have 'Zone:Read' permission for all zones. "
                             err
                      else err))
  | Ok [] =>
      trace world (zones.zonesListCmd ext env args) s
      = [Call (cloudflare.ListZones []);
         cmd_spec.statusEvent (cmd.out env) "No zones found"]
      ∧ outcome world (zones.zonesListCmd ext env args) s = Some None
  | Ok zs =>
      if decide (output.format (cmd.out env) = output.FormatJSON) then
        trace world (zones.zonesListCmd ext env args) s
        = [Call (cloudflare.ListZones []);
           Encode (JArray (zoneObject <$> (client.toZone <$> zs)))]
      else
        outcome world (zones.zonesListCmd ext env args) s = Some None
        ∧ ∃ lines,
            trace world (zones.zonesListCmd ext env args) s
            = Call (cloudflare.ListZones []) :: (Fprintln <$> lines)
            ∧ length lines = S (length zs)
  end.
Proof.
  intros Hnew. unfold zones.zonesListCmd. rewrite Hnew.
  unfold client.ListZones. cbn [bind perform].
  rewrite !trace_Vis, !outcome_Vis.
  destruct (world (Call (cloudflare.ListZones [])) s) as [r s1].
  cbn [fst snd]. cbn in r. destruct r as [[|z zs]|err]; cbn [bind].
  - cbn [fmap list_fmap length]. destruct (decide (0 = 0)) as [_|?]; [|done].
    pose proof (status_no_call "No zones found" s1) as (_ & Ho & Ht).
    by rewrite Ho, Ht.
  - cbn [fmap list_fmap length].
    destruct (decide (S (length (client.toZone <$> zs)) = 0)) as [?|_];
      [done|].
    case_decide as Hjson.
    + f_equal.
      apply (WriteTable_structured zones.zoneHeaders zones.zoneRow zoneObject
               (client.toZone z :: (client.toZone <$> zs)) s1 Hjson
               zoneRow_object).
    + unfold output.WriteTable. rewrite decide_False by done. split.
      * unfold outcome. by rewrite output_facts.writeASCIITable_run.
      * eexists. split.
        -- f_equal. apply output_props.writeASCIITable_trace.
        -- cbn [length]. rewrite !length_fmap. cbn [length].
           by rewrite ?length_fmap.
  - by destruct (client.isPermissionError ext (Some err)).
Qed.

(** *** The value of --proxied *)

Lemma updateParams_invalid_proxied (fl : cmd.Flags) (existing : client.DNSRecord)
    (v : string) :
  cmd.flag_proxied fl = Some (Some v) → v ≠ "true" → v ≠ "false" →
  cmd.updateParams fl existing = Err cmd.proxiedError.
Proof.
  intros Hv Htrue Hfalse. unfold cmd.updateParams.
  assert (cmd.Changed fl "proxied" = true) as ->.
  { unfold cmd.Changed. repeat (rewrite decide_False by done).
    rewrite decide_True by done. by rewrite Hv. }
  assert (cmd.dnsProxied fl = v) as -> by (unfold cmd.dnsProxied; by rewrite Hv).
  rewrite !bool_decide_eq_true_2 by done. done.
Qed.

(** X14. A value of [--proxied] other than true and false: [create]
    (with type, name and content given) rejects it before it does anything,
    unless it is the empty string, which it takes for not given; [update]
    rejects it too, the empty string included, but only once it has
    resolved the zone and fetched the record: it never sends the update,
    and after a successful fetch it returns the validation error. *)
Theorem proxied_validation (fl : cmd.Flags) (args : list string) (s : W)
    (v : string) :
  cmd.flag_proxied fl = Some (Some v) → v ≠ "true" → v ≠ "false" →
  (v ≠ EmptyString → cmd.dnsType fl ≠ EmptyString →
   cmd.dnsName fl ≠ EmptyString → cmd.dnsContent fl ≠ EmptyString →
   run world (cmd.dnsCreateCmd ext env fl args) s
   = (Some (Some cmd.proxiedError), [], s))
  ∧ (∀ zid p, Call (cloudflare.UpdateDNSRecord zid p)
              ∉ trace world (cmd.dnsUpdateCmd ext env fl args) s)
  ∧ (∀ zid rid rec,
       Entry (Call (cloudflare.GetDNSRecord zid rid)) (Ok rec)
         ∈ logOf world (cmd.dnsUpdateCmd ext env fl args) s →
       outcome world (cmd.dnsUpdateCmd ext env fl args) s
       = Some (Some cmd.proxiedError)
       ∧ last (logOf world (cmd.dnsUpdateCmd ext env fl args) s)
         = Some (Entry (Call (cloudflare.GetDNSRecord zid rid)) (Ok rec))).
Proof.
  intros Hv Htrue Hfalse.
  assert (cmd.dnsProxied fl = v) as Hp
    by (unfold cmd.dnsProxied; by rewrite Hv).
  split.
  { intros Hempty Ht Hn Hc. unfold cmd.dnsCreateCmd.
    rewrite !(bool_decide_eq_false_2 (_ = EmptyString)) by done.
    cbn [orb]. rewrite Hp. rewrite decide_True by done.
    rewrite !bool_decide_eq_true_2 by done. done. }
  rewrite dnsUpdateCmd_frame. unfold logOf, outcome, trace, logOf.
  destruct (withZone_run args s)
    as (cs & zlog & s1 & Hcs & Hlen & Hz
        & [(a & _ & Hrun)|(c & zoneID & Hrun)]);
    rewrite Hrun; clear Hrun.
  { cbn [fst snd]. split.
    - intros zid p Hin. eapply Forall_forall in Hz; [|exact Hin]. done.
    - intros zid rid rec Hin. apply (list_elem_of_fmap_2 eventOf) in Hin.
      eapply Forall_forall in Hz; [|exact Hin]. done. }
  unfold index. destruct (args !! 1) as [recordID|]; cbn [bind run].
  2:{ cbn [fst snd]. rewrite app_nil_r. split.
      - intros zid p Hin. eapply Forall_forall in Hz; [|exact Hin]. done.
      - intros zid rid rec Hin. apply (list_elem_of_fmap_2 eventOf) in Hin.
        eapply Forall_forall in Hz; [|exact Hin]. done. }
  unfold client.GetDNSRecord. cbn [bind perform run].
  destruct (world (Call (cloudflare.GetDNSRecord zoneID recordID)) s1)
    as [r s2].
  cbn in r.
  assert ((run world
             (bind match r with
                   | Ok r0 => Ret (Ok (client.toDNSRecord r0))
                   | Err err =>
                       Ret (Err (Errorf_w "failed to get DNS record: " err))
                   end
                (λ r0, match r0 with
                       | Ok existing =>
                           match cmd.updateParams fl existing with
                           | Ok params =>
                               r1 ← client.UpdateDNSRecord c zoneID recordID
                                      params;
                               match r1 with
                               | Ok record =>
                                   cmd.writeRecord env "Updated DNS record: "
                                     record
                               | Err err => Ret (Some err)
                               end
                           | Err err => Ret (Some err)
                           end
                       | Err err => Ret (Some err)
                       end)) s2)
          = (Some (Some match r with
                        | Ok _ => cmd.proxiedError
                        | Err err =>
                            Errorf_w "failed to get DNS record: " err
                        end), [], s2)) as ->.
  { destruct r as [existing|err]; cbn [bind]; [|done].
    by rewrite (updateParams_invalid_proxied fl _ v). }
  cbn [fst snd]. split.
  - intros zid p. rewrite fmap_app. intros [Hin|Hin]%elem_of_app.
    + eapply Forall_forall in Hz; [|exact Hin]. done.
    + by apply list_elem_of_singleton in Hin.
  - intros zid rid rec [Hin|Hin]%elem_of_app.
    { apply (list_elem_of_fmap_2 eventOf) in Hin.
      eapply Forall_forall in Hz; [|exact Hin]. done. }
    apply list_elem_of_singleton in Hin.
    pose proof (f_equal replyRecord Hin) as Hr. cbn in Hr. injection Hr as <-.
    apply (f_equal eventOf) in Hin. cbn in Hin. injection Hin as <- <-.
    split; [done|]. by rewrite last_snoc.
Qed.
(** *** zones get *)

Lemma zonesGet_output (c : client.Client) (args : list string)
    (nameOrID : string) (zone : client.Zone) (s : W) :
  client.New ext (cmd.cfg env) = Ok c →
  args !! 0 = Some nameOrID →
  outcome world (client.GetZone ext c nameOrID) s = Some (Ok zone) →
  ∃ after : list event,
    trace world (zones.zonesGetCmd ext env args) s
    = trace world (client.GetZone ext c nameOrID) s ++ after
    ∧ (cmd.outputFormat env = "json" → after = [Encode (zoneObject zone)])
    ∧ (cmd.outputFormat env ≠ "json" →
       output.format (cmd.out env) = output.FormatJSON →
       after = [Encode (JArray [zoneObject zone])])
    ∧ (cmd.outputFormat env ≠ "json" →
       output.format (cmd.out env) ≠ output.FormatJSON →
       ∃ header row, after = [Fprintln header; Fprintln row]).
Proof.
  intros Hnew Harg Hzone. unfold zones.zonesGetCmd. rewrite Hnew.
  unfold index. rewrite Harg. cbn [bind].
  rewrite cmd_props.trace_bind. unfold outcome in Hzone.
  destruct (run world (client.GetZone ext c nameOrID) s) as [[a log] s1].
  cbn [fst snd] in Hzone. subst a.
  eexists. split; [reflexivity|]. split; [|split].
  - intros Hflag. rewrite decide_True by done.
    unfold output.WriteJSON, trace, logOf. cbn [perform run].
    by destruct (world (Encode _) s1).
  - intros Hflag Hjson. rewrite decide_False by done.
    apply (WriteTable_structured zones.zoneHeaders zones.zoneRow zoneObject
             [zone] s1 Hjson zoneRow_object).
  - intros Hflag Htable. rewrite decide_False by done.
    unfold output.WriteTable. rewrite decide_False by done.
    rewrite output_props.writeASCIITable_trace. by eexists _, _.
Qed.

End Commands.

(** X12. The document [dns get] writes for a fetched record depends on
    where json was asked for. With [--output json] it is the record itself,
    an object with the eight fields of [DNSRecord] and their own types.
    With json from the config file and no flag, the command takes the table
    branch and the writer turns the table into json: an array with one
    object of the six columns, all strings. In table mode it is a header
    line and one row. Only zone calls come before the fetch. *)
Theorem get_document_shapes (ext : Externals) (Getenv : string → string)
    (DefaultConfigPath : string) (readConfig : string → option config.Config)
    {W : Type} (world : ∀ e : event, W → resp e * W)
    (cfgFile : string) (outputFlag : option string)
    (args : list string) (s : W) (zid rid : string)
    (rec : cloudflare.DNSRecord) :
  let env :=
    root.PersistentPreRunE Getenv DefaultConfigPath readConfig cfgFile
      outputFlag in
  Entry (Call (cloudflare.GetDNSRecord zid rid)) (Ok rec)
    ∈ logOf world (dns.dnsGetCmd ext env args) s →
  ∃ before after : list event,
    trace world (dns.dnsGetCmd ext env args) s
    = before ++ Call (cloudflare.GetDNSRecord zid rid) :: after
    ∧ Forall (λ e, isZoneCall e = true) before
    ∧ (outputFlag = Some "json" →
       after = [Encode (marshal (client.toDNSRecord rec))])
    ∧ (outputFlag = None → config.OutputFormat (cmd.cfg env) = "json" →
       after = [Encode (JArray [recordObject (client.toDNSRecord rec)])])
    ∧ (root.format (cmd.cfg env) outputFlag = output.FormatTable →
       ∃ header row, after = [Fprintln header; Fprintln row]).
Proof.
  intros env Hin.
  destruct (get_output ext env world args s zid rid rec Hin)
    as (before & after & Ht & Hz & Hobj & Harr & Htab).
  exists before, after. split; [done|]. split; [done|]. split; [|split].
  - intros ->. by apply Hobj.
  - intros -> Hcfg. apply Harr; [done|].
    unfold env, root.PersistentPreRunE, root.format in *.
    cbn [cmd.out cmd.cfg output.NewWriter output.format] in *.
    by rewrite decide_True.
  - intros Hfmt. apply Htab.
    + destruct outputFlag as [v|]; [|done]. cbn. intros ->.
      unfold root.format in Hfmt. by rewrite decide_True in Hfmt.
    + change (root.format (cmd.cfg env) outputFlag ≠ output.FormatJSON).
      by rewrite Hfmt.
Qed.

(** X15. [zones get] writes, once the zone is found, after the calls of
    [GetZone] and nothing else: with [--output json] the zone as an object of
    its three fields; with json from the config file and no flag the same
    object inside an array of one; in table mode a header line and one
    row. *)
Theorem zones_get_document_shapes (ext : Externals)
    (Getenv : string → string) (DefaultConfigPath : string)
    (readConfig : string → option config.Config)
    {W : Type} (world : ∀ e : event, W → resp e * W)
    (cfgFile : string) (outputFlag : option string)
    (c : client.Client) (args : list string) (nameOrID : string)
    (zone : client.Zone) (s : W) :
  let env :=
    root.PersistentPreRunE Getenv DefaultConfigPath readConfig cfgFile
      outputFlag in
  client.New ext (cmd.cfg env) = Ok c →
  args !! 0 = Some nameOrID →
  outcome world (client.GetZone ext c nameOrID) s = Some (Ok zone) →
  ∃ after : list event,
    trace world (zones.zonesGetCmd ext env args) s
    = trace world (client.GetZone ext c nameOrID) s ++ after
    ∧ (outputFlag = Some "json" → after = [Encode (zoneObject zone)])
    ∧ (outputFlag = None → config.OutputFormat (cmd.cfg env) = "json" →
       after = [Encode (JArray [zoneObject zone])])
    ∧ (root.format (cmd.cfg env) outputFlag = output.FormatTable →
       ∃ header row, after = [Fprintln header; Fprintln row]).
Proof.
  intros env Hnew Harg Hzone.
  destruct (zonesGet_output ext env world c args nameOrID zone s Hnew Harg
              Hzone) as (after & Ht & Hobj & Harr & Htab).
  exists after. split; [done|]. split; [|split].
  - intros ->. by apply Hobj.
  - intros -> Hcfg. apply Harr; [done|].
    unfold env, root.PersistentPreRunE, root.format in *.
    cbn [cmd.out cmd.cfg output.NewWriter output.format] in *.
    by rewrite decide_True.
  - intros Hfmt. apply Htab.
    + destruct outputFlag as [v|]; [|done]. cbn. intros ->.
      unfold root.format in Hfmt. by rewrite decide_True in Hfmt.
    + change (root.format (cmd.cfg env) outputFlag ≠ output.FormatJSON).
      by rewrite Hfmt.
Qed.

(** *** The theorems on the example provider *)

(** [zones get example.com] with [--output json]. *)
Lemma zones_get_document_shapes_witness :
  client.New example.externals (cmd.cfg flagEnv) = Ok client.mkClient
  ∧ ["example.com"] !! 0 = Some "example.com"
  ∧ outcome example.provider
      (client.GetZone example.externals client.mkClient "example.com") tt
    = Some (Ok (client.toZone example.zone))
  ∧ ∃ after : list event,
      trace example.provider
        (zones.zonesGetCmd example.externals flagEnv ["example.com"]) tt
      = trace example.provider
          (client.GetZone example.externals client.mkClient "example.com") tt
        ++ after
      ∧ after = [Encode (zoneObject (client.toZone example.zone))].
Proof.
  split; [reflexivity|]. split; [reflexivity|]. split; [reflexivity|].
  destruct (zones_get_document_shapes example.externals Getenv
              "/home/me/.cloudflare/config.yaml" readConfig example.provider
              EmptyString (Some "json") client.mkClient ["example.com"]
              "example.com" (client.toZone example.zone) tt
              eq_refl eq_refl eq_refl)
    as (after & Ht & Hobj & _).
  exists after. split; [exact Ht|]. exact (Hobj eq_refl).
Defined.

(** A token scoped to one zone, and an identifier it does not cover: the
    error is the one of the lookup by name, under the guidance. *)
Lemma GetZone_error_is_from_name_lookup_witness :
  outcome example.scopedProvider
    (client.GetZone example.externals client.mkClient
       "ffffffffffffffffffffffffffffffff") tt
  = Some (Err (Errorf_w client.zoneGuidance example.forbidden))
  ∧ ∃ r : result (list cloudflare.Zone),
      last (logOf example.scopedProvider
              (client.GetZone example.externals client.mkClient
                 "ffffffffffffffffffffffffffffffff") tt)
      = Some (Entry (Call (cloudflare.ListZones
                             ["ffffffffffffffffffffffffffffffff"])) r)
      ∧ match r with
        | Ok zones =>
            zones = []
            ∧ Errorf_w client.zoneGuidance example.forbidden
              = Errorf_s "zone not found: " "ffffffffffffffffffffffffffffffff"
        | Err e' =>
            Errorf_w client.zoneGuidance example.forbidden = e'
            ∨ Errorf_w client.zoneGuidance example.forbidden
              = Errorf_w client.zoneGuidance e'
        end.
Proof.
  assert (outcome example.scopedProvider
            (client.GetZone example.externals client.mkClient
               "ffffffffffffffffffffffffffffffff") tt
          = Some (Err (Errorf_w client.zoneGuidance example.forbidden)))
    as Herr by (vm_compute; reflexivity).
  split; [exact Herr|].
  exact (GetZone_error_is_from_name_lookup example.externals
           example.scopedProvider client.mkClient
           "ffffffffffffffffffffffffffffffff" tt _ Herr).
Defined.

(** [delete example.com <id>] on the example provider. *)
Lemma delete_names_requested_record_witness :
  Entry (Call (cloudflare.DeleteDNSRecord example.zoneID example.recordID))
    None
    ∈ logOf example.provider
        (dns.dnsDeleteCmd example.externals example.env
           ["example.com"; example.recordID]) tt
  ∧ outcome example.provider
      (dns.dnsDeleteCmd example.externals example.env
         ["example.com"; example.recordID]) tt
    = Some None.
Proof.
  assert (Entry (Call (cloudflare.DeleteDNSRecord example.zoneID
                         example.recordID)) None
          ∈ logOf example.provider
              (dns.dnsDeleteCmd example.externals example.env
                 ["example.com"; example.recordID]) tt) as Hin.
  { vm_compute. apply list_elem_of_further, list_elem_of_here. }
  split; [exact Hin|].
  destruct (delete_names_requested_record example.externals example.env
              example.provider ["example.com"; example.recordID] tt
              example.zoneID example.recordID None Hin)
    as (_ & before & _ & Ho & _).
  exact Ho.
Defined.

(** The table of the example record after [--output json]. *)
Lemma tables_structured_witness :
  output.format (cmd.out flagEnv) = output.FormatJSON
  ∧ trace example.provider
      (cmd.writeDNSRecordTable flagEnv [client.toDNSRecord example.record]) tt
    = [Encode (JArray [recordObject (client.toDNSRecord example.record)])].
Proof.
  assert (output.format (cmd.out flagEnv) = output.FormatJSON) as Hjson
    by reflexivity.
  split; [exact Hjson|].
  exact (proj1 (tables_structured flagEnv example.provider
                  [client.toDNSRecord example.record] [] tt Hjson)).
Defined.

(** [get] on the example provider with json asked for by the file. *)
Lemma get_document_shapes_witness :
  Entry (Call (cloudflare.GetDNSRecord example.zoneID example.recordID))
    (Ok example.record)
    ∈ logOf example.provider
        (dns.dnsGetCmd example.externals fileEnv
           ["example.com"; example.recordID]) tt
  ∧ ∃ before after : list event,
      trace example.provider
        (dns.dnsGetCmd example.externals fileEnv
           ["example.com"; example.recordID]) tt
      = before
        ++ Call (cloudflare.GetDNSRecord example.zoneID example.recordID)
           :: after
      ∧ after
        = [Encode (JArray [recordObject (client.toDNSRecord example.record)])].
Proof.
  assert (Entry (Call (cloudflare.GetDNSRecord example.zoneID
                         example.recordID)) (Ok example.record)
          ∈ logOf example.provider
              (dns.dnsGetCmd example.externals fileEnv
                 ["example.com"; example.recordID]) tt) as Hin.
  { vm_compute. apply list_elem_of_further, list_elem_of_here. }
  split; [exact Hin|].
  destruct (get_document_shapes example.externals Getenv
              "/home/me/.cloudflare/config.yaml" readConfig example.provider
              EmptyString None ["example.com"; example.recordID] tt
              example.zoneID example.recordID example.record Hin)
    as (before & after & Ht & _ & _ & Harr & _).
  exists before, after. split; [exact Ht|].
  exact (Harr eq_refl eq_refl).
Defined.

(** [zones list] on the example provider, which lists no zone without a
    name. *)
Lemma zones_list_outcomes_witness :
  client.New example.externals (cmd.cfg example.env) = Ok client.mkClient
  ∧ trace example.provider
      (zones.zonesListCmd example.externals example.env []) tt
    = [Call (cloudflare.ListZones []); Fprintln "No zones found"]
  ∧ outcome example.provider
      (zones.zonesListCmd example.externals example.env []) tt
    = Some None.
Proof.
  split; [reflexivity|].
  exact (zones_list_outcomes example.externals example.env example.provider
           client.mkClient [] tt eq_refl).
Defined.

(** [create --proxied=yes] on the example provider. *)
Lemma proxied_validation_witness :
  cmd.flag_proxied proxiedYes = Some (Some "yes")
  ∧ "yes" ≠ "true" ∧ "yes" ≠ "false"
  ∧ run example.provider
      (cmd.dnsCreateCmd example.externals example.env proxiedYes
         ["example.com"]) tt
    = (Some (Some cmd.proxiedError), [], tt).
Proof.
  assert ("yes" ≠ "true") as Htrue by discriminate.
  assert ("yes" ≠ "false") as Hfalse by discriminate.
  split; [reflexivity|]. split; [exact Htrue|]. split; [exact Hfalse|].
  refine (proj1 (proxied_validation example.externals example.env
                   example.provider proxiedYes ["example.com"] tt "yes"
                   eq_refl Htrue Hfalse) _ _ _ _); discriminate.
Defined.

End more_props.

